(** * Cipherise TypeScript SDK: protocol and crypto layer

    A shallow embedding of the client-side protocol layer of the SDK
    ([lib/service.ts], [lib/authentication.ts], [lib/enrolment.ts],
    [lib/client.ts], [lib/device.ts], [lib/util.ts], [lib/version.ts],
    [lib/web-client.ts], [lib/logger.ts]) and the properties of its
    specification that are settled on it, followed by further
    properties that the code has.

    Modelling conventions.
    - JavaScript values that flow through [any] are values of [Val].
      Numbers are integers ([Z]); strings are byte strings.
    - Where the TypeScript source casts a value ([as string],
      [as number], [as Buffer]) the model reads the value at that type
      and reports a value of another type as a [TypeError].
    - The network, the RSA/AES/SHA-256 primitives, the JSON and msgpack
      codecs and the entropy source are external to the repository.
      They are parameters (type classes [Network], [Crypto], [Codec]).
    - Asynchronous code is sequential state passing: the monad [M]
      threads the session token, the cached payload size, the entropy
      position, the network and a log of the requests sent.
    - A non-null assertion ([!]) and a parameter with a declared type
      are read like a cast.
    - Logging has no effect on results and is left out of the
      operations; [PrefixLogger] is modelled on its own. *)

From Stdlib Require Import ZArith NArith List String Ascii Bool Lia.
From Stdlib Require Import Strings.Byte Numbers.DecimalString Numbers.DecimalZ.
Import ListNotations.

Local Open Scope string_scope.
Local Open Scope Z_scope.
Set Warnings "-register-all".

(** ** JavaScript values *)

(** Own property keys.  An array index is kept as a number, every other
    key as its name. *)
Inductive PKey : Type :=
| Idx (n : N)
| Name (s : string).

Inductive Val : Type :=
| VUndef
| VNull
| VBool (b : bool)
| VNum (z : Z)
| VStr (s : string)
| VBuf (b : list byte)
| VArr (l : list Val)
| VObj (o : list (PKey * Val)).

(** A JavaScript number used as a map key or level: an integer or NaN. *)
Inductive Num : Type :=
| NaN
| Int (z : Z).

Inductive Err : Type :=
| Error (msg : string)
| TypeError (msg : string)
| SessionExpiredError (msg : string)
| TimeoutError (msg : string)
| PayloadDataLengthExceededError (msg : string).

(** The outcome of a computation that may throw. *)
Inductive Res (A : Type) : Type :=
| Ok (a : A)
| Throw (e : Err).
Arguments Ok {A} a.
Arguments Throw {A} e.

Definition rbind {A B} (r : Res A) (k : A -> Res B) : Res B :=
  match r with
  | Ok a => k a
  | Throw e => Throw e
  end.

Declare Scope res_scope.
Delimit Scope res_scope with res.
Notation "x <-- r ;; k" := (rbind r (fun x => k))
  (at level 61, r at next level, right associativity) : res_scope.

Definition PKey_eqb (a b : PKey) : bool :=
  match a, b with
  | Idx n, Idx m => N.eqb n m
  | Name s, Name t => String.eqb s t
  | _, _ => false
  end.

Definition Num_eqb (a b : Num) : bool :=
  match a, b with
  | NaN, NaN => true
  | Int x, Int y => Z.eqb x y
  | _, _ => false
  end.

Definition bytes_eqb (a b : list byte) : bool :=
  if list_eq_dec Byte.byte_eq_dec a b then true else false.

Definition opt_string_eqb (a b : option string) : bool :=
  match a, b with
  | Some s, Some t => String.eqb s t
  | None, None => true
  | _, _ => false
  end.

(** [ToBoolean]. *)
Definition truthy (v : Val) : bool :=
  match v with
  | VUndef | VNull => false
  | VBool b => b
  | VNum z => negb (Z.eqb z 0)
  | VStr s => negb (String.eqb s EmptyString)
  | VBuf _ | VArr _ | VObj _ => true
  end.

(** [a && b] and [a || b] return one of their operands. *)
Definition js_and (a b : Val) : Val := if truthy a then b else a.
Definition js_or (a b : Val) : Val := if truthy a then a else b.

(** [v === VStr s] and [v === undefined], the only strict comparisons
    against a constant that the modelled code performs. *)
Definition is_str (v : Val) (s : string) : bool :=
  match v with
  | VStr t => String.eqb t s
  | _ => false
  end.

Definition is_undefined (v : Val) : bool :=
  match v with
  | VUndef => true
  | _ => false
  end.

Definition lookup_key (k : PKey) (o : list (PKey * Val)) : Val :=
  match find (fun kv => PKey_eqb (fst kv) k) o with
  | Some kv => snd kv
  | None => VUndef
  end.

(** Decimal rendering of an integer, [Number.prototype.toString]. *)
Definition Z_toString (z : Z) : string := NilZero.string_of_int (Z.to_int z).

Definition Num_toString (n : Num) : string :=
  match n with
  | NaN => "NaN"
  | Int z => Z_toString z
  end.

(** [Number(s)] on a property name: decimal integers are read, any
    other name is NaN. *)
Definition Number_of_string (s : string) : Num :=
  match NilZero.int_of_string s with
  | Some d => Int (Z.of_int d)
  | None => NaN
  end.

Definition array_index_bound : Z := 4294967295.

(** [ToPropertyKey] of a number. *)
Definition key_of_Num (n : Num) : PKey :=
  match n with
  | NaN => Name "NaN"
  | Int z =>
      if (0 <=? z) && (z <? array_index_bound)
      then Idx (Z.to_N z) else Name (Z_toString z)
  end.

Definition Number_of_key (k : PKey) : Num :=
  match k with
  | Idx n => Int (Z.of_N n)
  | Name s => Number_of_string s
  end.

Definition PKey_toString (k : PKey) : string :=
  match k with
  | Idx n => Z_toString (Z.of_N n)
  | Name s => s
  end.

Fixpoint indexed {A} (i : N) (l : list A) : list (PKey * A) :=
  match l with
  | [] => []
  | x :: r => (Idx i, x) :: indexed (N.succ i) r
  end.

Fixpoint chars (s : string) : list Val :=
  match s with
  | EmptyString => []
  | String c r => VStr (String c EmptyString) :: chars r
  end.

(** The own enumerable properties of a value, in enumeration order:
    what [for ... in] with [hasOwnProperty], [Object.keys] and object
    spread see. *)
Definition own_props (v : Val) : list (PKey * Val) :=
  match v with
  | VObj o => o
  | VArr l => indexed 0%N l
  | VStr s => indexed 0%N (chars s)
  | VBuf b => indexed 0%N (map (fun x => VNum (Z.of_N (Byte.to_N x))) b)
  | _ => []
  end.

(** [v[k]]: reading a property of [undefined] or [null] throws. *)
Definition prop (v : Val) (k : string) : Res Val :=
  match v with
  | VUndef => Throw (TypeError ("Cannot read property '" ++ k ++ "' of undefined"))
  | VNull => Throw (TypeError ("Cannot read property '" ++ k ++ "' of null"))
  | VObj o => Ok (lookup_key (Name k) o)
  | _ => Ok VUndef
  end.

(** Casts of the TypeScript source. *)
Definition as_string (v : Val) : Res string :=
  match v with
  | VStr s => Ok s
  | _ => Throw (TypeError "expected a string")
  end.

Definition as_number (v : Val) : Res Z :=
  match v with
  | VNum z => Ok z
  | _ => Throw (TypeError "expected a number")
  end.

Definition as_buffer (v : Val) : Res (list byte) :=
  match v with
  | VBuf b => Ok b
  | _ => Throw (TypeError "expected a Buffer")
  end.

Definition join (sep : string) (l : list string) : string :=
  match l with
  | [] => EmptyString
  | x :: r => fold_left (fun acc y => acc ++ sep ++ y) r x
  end.

(** [String(v)], as a template literal renders a value. *)
Fixpoint to_str (v : Val) : string :=
  match v with
  | VUndef => "undefined"
  | VNull => "null"
  | VBool true => "true"
  | VBool false => "false"
  | VNum z => Z_toString z
  | VStr s => s
  | VBuf b => string_of_list_byte b
  | VArr l =>
      join "," (map (fun x => match x with
                              | VUndef | VNull => EmptyString
                              | _ => to_str x
                              end) l)
  | VObj _ => "[object Object]"
  end.

(** ** Hex and UTF-8 conversions of [Buffer] *)

Definition hex_digit (n : N) : ascii :=
  match n with
  | 0 => "0" | 1 => "1" | 2 => "2" | 3 => "3" | 4 => "4" | 5 => "5"
  | 6 => "6" | 7 => "7" | 8 => "8" | 9 => "9" | 10 => "a" | 11 => "b"
  | 12 => "c" | 13 => "d" | 14 => "e" | _ => "f"
  end%N%char.

(** Hex digits are accepted in either case. *)
Definition hex_value (c : ascii) : option N :=
  let n := N_of_ascii c in
  (if (48 <=? n) && (n <=? 57) then Some (n - 48)
   else if (97 <=? n) && (n <=? 102) then Some (n - 87)
   else if (65 <=? n) && (n <=? 70) then Some (n - 55)
   else None)%N.

Definition byte_of_nibbles (h l : N) : byte :=
  match Byte.of_N (16 * h + l) with
  | Some b => b
  | None => x00
  end.

(** [b.toString("hex")]: two lower-case digits per byte. *)
Fixpoint to_hex (b : list byte) : string :=
  match b with
  | [] => EmptyString
  | x :: r =>
      String (hex_digit (Byte.to_N x / 16))
        (String (hex_digit (Byte.to_N x mod 16)) (to_hex r))
  end.

(** [Buffer.from(s, "hex")]: pairs of hex digits are decoded until the
    first pair that is not hexadecimal; a trailing single character is
    dropped. *)
Fixpoint from_hex (s : string) : list byte :=
  match s with
  | String a (String b r) =>
      match hex_value a, hex_value b with
      | Some h, Some l => byte_of_nibbles h l :: from_hex r
      | _, _ => []
      end
  | _ => []
  end.

(** [Buffer.from(v, "hex")] on a value that is not a string throws. *)
Definition Buffer_from_hex (v : Val) : Res (list byte) :=
  match v with
  | VStr s => Ok (from_hex s)
  | _ => Throw (TypeError "The first argument must be of type string")
  end.

(** [Buffer.from(s, "utf8")] and [b.toString("utf8")]; strings are
    kept in their UTF-8 encoding. *)
Definition utf8 (s : string) : list byte := list_byte_of_string s.
Definition utf8_toString (b : list byte) : string := string_of_list_byte b.

(** [s.toLowerCase()] on the ASCII letters; other bytes are kept. *)
Definition lower_ascii (c : ascii) : ascii :=
  let n := N_of_ascii c in
  if (65 <=? n)%N && (n <=? 90)%N then ascii_of_N (n + 32) else c.

Fixpoint toLowerCase (s : string) : string :=
  match s with
  | EmptyString => EmptyString
  | String c r => String (lower_ascii c) (toLowerCase r)
  end.

(** ** External collaborators *)

Inductive Verb : Type := GET | POST.

(** One call of the HTTP client: [webClient.postUrl(url, form, sessionId)]
    or [webClient.getUrl(url, sessionId)]. *)
Record Request : Type := mkReq {
  verb : Verb;
  target : Val;
  body : Val;
  session : Val
}.

(** The HTTP client with the server behind it: a call resolves to the
    parsed response or rejects with a classified error. *)
Class Network : Type := {
  World : Type;
  web : World -> Request -> Res Val * World
}.

(** [node-rsa] keys and the [crypto] module. *)
Class Crypto : Type := {
  RSAKey : Type;
  sha256 : list byte -> list byte;
  rsa_sign : RSAKey -> list byte -> list byte;
  rsa_verify : RSAKey -> list byte -> list byte -> bool;
  rsa_encrypt : RSAKey -> list byte -> list byte;
  rsa_decrypt : RSAKey -> list byte -> Res (list byte);
  new_NodeRSA : Val -> Res RSAKey;
  importKey_public_pem : Val -> Res RSAKey;
  exportKey_public_pem : RSAKey -> string;
  importKey_private_der : Val -> Res RSAKey;
  exportKey_private_der : RSAKey -> list byte;
  aes_256_cfb_encrypt : list byte -> list byte -> list byte -> list byte;
  aes_256_cfb_decrypt : list byte -> list byte -> list byte -> Res (list byte);
  random_source : nat -> byte
}.

(** [JSON] and [msgpack5].  [JSON.stringify] yields [undefined] for a
    value that has no JSON text. *)
Class Codec : Type := {
  JSON_stringify : Val -> option string;
  JSON_parse : string -> Res Val;
  msgpack_encode : Val -> list byte;
  msgpack_decode : list byte -> Res Val
}.

(** ** State and effects *)

Section Effects.
Context {net : Network}.

Record St : Type := mkSt {
  sessionId : Val;             (* Service.sessionId *)
  payloadSize : option Z;      (* Client.payloadSize *)
  rng : nat;                   (* bytes drawn from the entropy source *)
  world : World;
  log : list Request           (* requests sent, oldest first *)
}.

(** A computation resolves, throws, or is still pending when the
    recursion budget of [refreshSession] runs out ([None]). *)
Definition M (A : Type) : Type := St -> option (Res A * St).

Definition ret {A} (a : A) : M A := fun st => Some (Ok a, st).
Definition throw {A} (e : Err) : M A := fun st => Some (Throw e, st).
Definition lift {A} (r : Res A) : M A := fun st => Some (r, st).

Definition bind {A B} (m : M A) (k : A -> M B) : M B :=
  fun st =>
    match m st with
    | Some (Ok a, st') => k a st'
    | Some (Throw e, st') => Some (Throw e, st')
    | None => None
    end.

Definition set_sessionId (v : Val) : M unit :=
  fun st => Some (Ok tt, mkSt v (payloadSize st) (rng st) (world st) (log st)).

Definition set_payloadSize (z : Z) : M unit :=
  fun st => Some (Ok tt, mkSt (sessionId st) (Some z) (rng st) (world st) (log st)).

(** One request on the wire. *)
Definition send (r : Request) : St -> Res Val * St :=
  fun st =>
    let (res, w) := web (world st) r in
    (res, mkSt (sessionId st) (payloadSize st) (rng st) w (log st ++ [r])).

Definition webCall (r : Request) : M Val := fun st => Some (send r st).

End Effects.

Declare Scope m_scope.
Delimit Scope m_scope with m.
Notation "x <- m ;; k" := (bind m (fun x => k))
  (at level 61, m at next level, right associativity) : m_scope.
Notation "m ;;; k" := (bind m (fun _ => k))
  (at level 61, right associativity) : m_scope.

Definition is_SessionExpired (e : Err) : bool :=
  match e with
  | SessionExpiredError _ => true
  | _ => false
  end.

(** ** Entities *)

Section Entities.
Context {cry : Crypto}.

(** [Map<number, NodeRSA>]: entries in insertion order, one per key. *)
Definition KeyMap : Type := list (Num * RSAKey).

Fixpoint map_set (k : Num) (v : RSAKey) (m : KeyMap) : KeyMap :=
  match m with
  | [] => [(k, v)]
  | (k', v') :: r =>
      if Num_eqb k' k then (k', v) :: r else (k', v') :: map_set k v r
  end.

Fixpoint map_get (k : Num) (m : KeyMap) : option RSAKey :=
  match m with
  | [] => None
  | (k', v') :: r => if Num_eqb k' k then Some v' else map_get k r
  end.

(** A [Service] with its [Client]'s [WebClient]; the session token is
    in [St]. *)
Record Service : Type := mkService {
  svc_id : string;
  svc_url : string;            (* webClient.url *)
  svc_key : RSAKey
}.

Record Device : Type := mkDevice {
  dev_id : string;
  dev_name : string;
  dev_keys : KeyMap
}.

Record Enrolment : Type := mkEnrolment {
  enr_service : Service;
  enr_logId : string;
  enr_WaveCodeUrl : string;
  enr_directEnrolUrl : string;
  enr_statusUrl : string;
  enr_validateUrl : string;
  enr_username : string;
  enr_publicKeys : KeyMap;
  enr_deviceId : string;
  enr_confirmationUrl : string
}.

Record PushAuth : Type := mkPushAuth {
  push_service : Service;
  push_logId : string;
  push_authChallenge : list byte;
  push_authLevel : Z;
  push_username : string;
  push_device : Device;
  push_statusUrl : string;
  push_assertionUrl : string;
  push_verifyAuthUrl : option string
}.

Record WaveAuth : Type := mkWaveAuth {
  wave_service : Service;
  wave_logId : string;
  wave_authChallenge : list byte;
  wave_authLevel : Z;
  wave_initiatorUrl : string;
  wave_WaveCodeUrl : string;
  wave_statusUrl : string;
  wave_assertionUrl : string;
  wave_appChallengeUrl : option string;
  wave_verifyAuthUrl : option string
}.

Record PayloadRequest : Type := mkPayloadRequest {
  pr_get : list string;
  pr_set : list (PKey * string)
}.

Record PayloadResponse : Type := mkPayloadResponse {
  resp_get : list (PKey * Val);
  resp_set : Val
}.

Inductive Authenticated : Type := Success | Failure | Report | Cancel.

Record AuthenticationResult : Type := mkAuthenticationResult {
  authenticated : Authenticated;
  username : Val;
  payload : PayloadResponse
}.

Inductive AuthenticationState : Type :=
| Initialised | Scanned | PendingSPSolution | PendingAppSolution | Done | NotFound.

Inductive EnrolmentState : Type :=
| EnrInitialised | EnrScanned | EnrValidated | EnrConfirmed | EnrFailed | EnrUnknown.

End Entities.

(** ** [lib/version.ts], [lib/server-information.ts] *)

Definition is_space (c : ascii) : bool :=
  let n := N_of_ascii c in
  ((n =? 32) || ((9 <=? n) && (n <=? 13)))%N.

Definition digit_value (c : ascii) : option Z :=
  let n := N_of_ascii c in
  if ((48 <=? n) && (n <=? 57))%N then Some (Z.of_N n - 48) else None.

Fixpoint skip_spaces (s : string) : string :=
  match s with
  | String c r => if is_space c then skip_spaces r else s
  | EmptyString => s
  end.

(** The value of the longest prefix of decimal digits, if there is one. *)
Fixpoint leading_digits (s : string) (acc : option Z) : option Z :=
  match s with
  | String c r =>
      match digit_value c with
      | Some d =>
          leading_digits r (Some (10 * match acc with Some a => a | None => 0 end + d))
      | None => acc
      end
  | EmptyString => acc
  end.

(** [parseInt(s, 10)]. *)
Definition parseInt (s : string) : Num :=
  let t := skip_spaces s in
  let '(neg, u) :=
    match t with
    | String "-" r => (true, r)
    | String "+" r => (false, r)
    | _ => (false, t)
    end in
  match leading_digits u None with
  | Some z => Int (if neg then - z else z)
  | None => NaN
  end.

(** [s.split(".")]. *)
Fixpoint split_dots (s : string) (cur : string) : list string :=
  match s with
  | EmptyString => [cur]
  | String c r =>
      if Ascii.eqb c "." then cur :: split_dots r EmptyString
      else split_dots r (cur ++ String c EmptyString)
  end.

Record Version : Type := mkVersion { digits : list Num }.

(** [new Version(digits)] asserts that there are three digits. *)
Definition new_Version (ds : list Num) : Res Version :=
  if Nat.eqb (List.length ds) 3 then Ok (mkVersion ds)
  else Throw (Error "Expected three digits for version").

Definition Version_fromString (version : string) : Res Version :=
  new_Version (map parseInt (split_dots version EmptyString)).

Record ServerInformation : Type := mkServerInformation {
  serverVersion : Version;
  buildVersion : Num;
  appMinVersion : Version;
  maxPayloadSize : Z
}.

Definition new_ServerInformation (sv bv amv : Val) (mps : Z) : Res ServerInformation :=
  (s <-- as_string sv ;;
   v <-- Version_fromString s ;;
   b <-- as_string bv ;;
   a <-- as_string amv ;;
   m <-- Version_fromString a ;;
   Ok (mkServerInformation v (parseInt b) m mps))%res.

(** ** [lib/client.ts], [lib/service.ts] *)

Section ServiceOps.
Context {net : Network} {cry : Crypto} {cod : Codec}.
Local Open Scope m_scope.

Definition newline : string := String (ascii_of_nat 10) EmptyString.

(** [response.payloadSize as number || 4000]. *)
Definition payloadSize_or_default (v : Val) : Res Z :=
  match v with
  | VNum z => Ok (if z =? 0 then 4000 else z)
  | _ => if truthy v then Throw (TypeError "expected a number") else Ok 4000
  end.

(** [Client.serverInformation]; the request goes to the [WebClient]
    directly, with no session. *)
Definition serverInformation (url : string) : M ServerInformation :=
  response <- webCall (mkReq GET (VStr (url ++ "info")) VUndef VUndef) ;;
  productType <- lift (prop response "productType") ;;
  if negb (is_str productType "CS") then
    throw (Error ("Expected Cipherise server, but product type is '"
                  ++ to_str productType ++ "'"))
  else
    sv <- lift (prop response "serverVersion") ;;
    svs <- lift (as_string sv) ;;
    match parseInt (hd EmptyString (split_dots svs EmptyString)) with
    | Int major =>
        if major <? 6 then
          throw (Error ("This version of the SDK does not support Cipherise servers older than version 6.x.x. "
                        ++ "Please either upgrade your Cipherise server or downgrade your SDK, as appropriate."))
        else ret tt
    | NaN => ret tt
    end ;;;
    ps <- lift (prop response "payloadSize") ;;
    size <- lift (payloadSize_or_default ps) ;;
    set_payloadSize size ;;;
    bv <- lift (prop response "buildVersion") ;;
    amv <- lift (prop response "appMinVersion") ;;
    lift (new_ServerInformation sv bv amv size).

(** [Client.getPayloadSize]. *)
Definition getPayloadSize (url : string) : M Z :=
  fun st =>
    match payloadSize st with
    | Some z => Some (Ok z, st)
    | None =>
        (serverInformation url ;;;
         fun st' =>
           match payloadSize st' with
           | Some z => Some (Ok z, st')
           | None => Some (Throw (TypeError "payloadSize is undefined"), st')
           end) st
    end.

(** [this.sessionId ? this.sessionId : undefined]. *)
Definition session_arg (st : St) : Val :=
  if truthy (sessionId st) then sessionId st else VUndef.

(** The access helpers' loop
    [for (let i = 0; i < 2; i++) { try { return await call } catch ... }]
    with [n] iterations left; falling out of the loop resolves to
    [undefined]. *)
Fixpoint attempts (refresh : M unit) (call : Val -> Request) (n : nat) : M Val :=
  match n with
  | O => ret VUndef
  | S n' =>
      fun st =>
        match send (call (session_arg st)) st with
        | (Ok v, st') => Some (Ok v, st')
        | (Throw e, st') =>
            if is_SessionExpired e
            then (refresh ;;; attempts refresh call n') st'
            else Some (Throw e, st')
        end
  end.

Definition uri_target (s : Service) (uri : string) : Val :=
  VStr (svc_url s ++ uri).

(** [Service.refreshSession], over the two access helpers it calls. *)
Definition refreshSession_with
    (getUri' : string -> M Val) (postUri' : string -> Val -> M Val)
    (s : Service) : M unit :=
  challengeData <- getUri' ("sp/authenticate-service/" ++ svc_id s) ;;
  spAuthChallenge <- lift (prop challengeData "spAuthChallenge") ;;
  challengeHex <- lift (as_string spAuthChallenge) ;;
  let spAuthChallengeSolution :=
    to_hex (rsa_sign (svc_key s) (from_hex challengeHex)) in
  authToken <- lift (prop challengeData "authToken") ;;
  responseData <- postUri' "sp/authenticate-service/"
    (VObj [(Name "authToken", authToken);
           (Name "spAuthChallengeSolution", VStr spAuthChallengeSolution)]) ;;
  sid <- lift (prop responseData "sessionId") ;;
  set_sessionId sid.

(** An access helper on the request [call]; [fuel] bounds the depth of
    refreshes within refreshes. *)
Fixpoint access (fuel : nat) (s : Service) (call : Val -> Request) : M Val :=
  match fuel with
  | O => fun _ => None
  | S f =>
      attempts
        (refreshSession_with
           (fun uri => access f s (mkReq GET (uri_target s uri) VUndef))
           (fun uri form => access f s (mkReq POST (uri_target s uri) form))
           s)
        call 2
  end.

Definition postUrl (fuel : nat) (s : Service) (url form : Val) : M Val :=
  access fuel s (mkReq POST url form).

Definition postUri (fuel : nat) (s : Service) (uri : string) (form : Val) : M Val :=
  access fuel s (mkReq POST (uri_target s uri) form).

Definition getUrl (fuel : nat) (s : Service) (url : Val) : M Val :=
  access fuel s (mkReq GET url VUndef).

Definition getUri (fuel : nat) (s : Service) (uri : string) : M Val :=
  access fuel s (mkReq GET (uri_target s uri) VUndef).

Definition refreshSession (fuel : nat) (s : Service) : M unit :=
  refreshSession_with (getUri fuel s) (postUri fuel s) s.

(** [Service.sign]. *)
Definition sign (s : Service) (data : list byte) : list byte :=
  rsa_sign (svc_key s) data.

(** [hash.update(val, "utf8")] on a hash that holds the bytes fed so
    far; [hash.digest()] is [sha256] of them. *)
Definition hash_update (acc : list byte) (val : string) : list byte :=
  (acc ++ utf8 val)%list.

Definition signatureFields (s : Service) (username deviceId : string)
    (publicKey : RSAKey) (publicKeyLevel : Num) : list string :=
  [ toLowerCase (svc_url s);
    svc_id s;
    toLowerCase username;
    deviceId;
    exportKey_public_pem publicKey ++ newline;
    Num_toString publicKeyLevel ].

Definition calculateSignatureData (s : Service) (username deviceId : string)
    (publicKey : RSAKey) (publicKeyLevel : Num) : list byte :=
  sha256 (fold_left hash_update
            (signatureFields s username deviceId publicKey publicKeyLevel) []).

Definition calculateSignature (s : Service) (username deviceId : string)
    (publicKey : RSAKey) (publicKeyLevel : Num) : list byte :=
  let signatureData :=
    calculateSignatureData s username deviceId publicKey publicKeyLevel in
  sign s signatureData.

Definition verifySignature (s : Service) (signature : list byte)
    (username deviceId : string) (publicKey : RSAKey) (publicKeyLevel : Num) : bool :=
  let signatureData :=
    calculateSignatureData s username deviceId publicKey publicKeyLevel in
  rsa_verify (svc_key s) signatureData signature.

Definition Service_equals (a b : Service) : bool :=
  String.eqb (svc_id a) (svc_id b)
  && String.eqb (svc_url a) (svc_url b)
  && bytes_eqb (exportKey_private_der (svc_key a)) (exportKey_private_der (svc_key b)).

(** [Service.decryptPayloadJson]. *)
Definition decryptPayloadJson (s : Service) (initiatorPublicKey : RSAKey)
    (json : Val) : Res Val :=
  (d <-- prop json "data" ;;
   encryptedDataWithIV <-- Buffer_from_hex d ;;
   k <-- prop json "key" ;;
   encryptedKey <-- Buffer_from_hex k ;;
   g <-- prop json "signature" ;;
   signature <-- Buffer_from_hex g ;;
   if negb (rsa_verify initiatorPublicKey encryptedKey signature) then
     Throw (Error "Failed payload signature verification")
   else
     key <-- rsa_decrypt (svc_key s) encryptedKey ;;
     let ivBound := Z.of_nat (List.length encryptedDataWithIV) - 16 in
     if ivBound <=? 0 then
       Throw (Error "Data field insufficiently long for both data and IV")
     else
       let encryptedData := firstn (Z.to_nat ivBound) encryptedDataWithIV in
       let iv := skipn (Z.to_nat ivBound) encryptedDataWithIV in
       data <-- aes_256_cfb_decrypt key iv encryptedData ;;
       JSON_parse (utf8_toString data))%res.

(** [crypto.randomBytes(n)]. *)
Definition randomBytes (n : nat) : M (list byte) :=
  fun st =>
    Some (Ok (map random_source (seq (rng st) n)),
          mkSt (sessionId st) (payloadSize st) (rng st + n) (world st) (log st)).

Definition envelope (encryptedDataWithIV encryptedKey signature : list byte) : Val :=
  VObj [(Name "data", VStr (to_hex encryptedDataWithIV));
        (Name "key", VStr (to_hex encryptedKey));
        (Name "signature", VStr (to_hex signature))].

(** [Service.encryptPayloadData]. *)
Definition encryptPayloadData (s : Service) (recipientPublicKey : RSAKey)
    (json : Val) : M Val :=
  let data := JSON_stringify json in
  key <- randomBytes 32 ;;
  iv <- randomBytes 16 ;;
  plain <- lift (match data with
                 | Some d => Ok (utf8 d)
                 | None => Throw (TypeError "The first argument must be of type string")
                 end) ;;
  let encryptedData := aes_256_cfb_encrypt key iv plain in
  let encryptedDataWithIV := (encryptedData ++ iv)%list in
  let encryptedKey := rsa_encrypt recipientPublicKey key in
  let signature := rsa_sign (svc_key s) encryptedKey in
  payloadSize <- getPayloadSize (svc_url s) ;;
  if Z.of_nat (List.length encryptedDataWithIV) * 2 >=? payloadSize then
    throw (PayloadDataLengthExceededError
             ("Payload data length limit exceeded: length "
              ++ Z_toString (Z.of_nat (List.length encryptedDataWithIV))
              ++ ", but max " ++ Z_toString payloadSize))
  else
    ret (envelope encryptedDataWithIV encryptedKey signature).

End ServiceOps.

(** ** [lib/util.ts], [lib/device.ts] *)

(** [o[k] = v] on an object: a present key keeps its place, a new array
    index goes in ascending order before the names, a new name goes
    last. *)
Fixpoint obj_set (k : PKey) (v : Val) (o : list (PKey * Val)) : list (PKey * Val) :=
  match o with
  | [] => [(k, v)]
  | (k', v') :: r =>
      if PKey_eqb k' k then (k', v) :: r
      else
        match k, k' with
        | Idx n, Idx n' =>
            if (n <? n')%N then (k, v) :: o else (k', v') :: obj_set k v r
        | Idx _, Name _ => (k, v) :: o
        | Name _, _ => (k', v') :: obj_set k v r
        end
  end.

(** [{...o, ...v}] continued: the own properties of [v] assigned onto [o]. *)
Definition spread_into (o : list (PKey * Val)) (v : Val) : list (PKey * Val) :=
  fold_left (fun acc kv => obj_set (fst kv) (snd kv) acc) (own_props v) o.

Definition as_array (v : Val) : Res (list Val) :=
  match v with
  | VArr l => Ok l
  | _ => Throw (TypeError "expected an array")
  end.

Definition SERIALIZED_VERSION : string := "6.0.0".

Section Sessions.
Context {net : Network} {cry : Crypto} {cod : Codec}.
Local Open Scope m_scope.

Definition publicKeyMapToObject (publicKeys : KeyMap) : Val :=
  VObj (fold_left
          (fun keys lk =>
             obj_set (key_of_Num (fst lk)) (VStr (exportKey_public_pem (snd lk))) keys)
          publicKeys []).

Definition objectToPublicKeyMap (publicKeys : Val) : Res KeyMap :=
  fold_left
    (fun acc lv =>
       (keys <-- acc ;;
        publicKey <-- importKey_public_pem (snd lv) ;;
        Ok (map_set (Number_of_key (fst lv)) publicKey keys))%res)
    (own_props publicKeys) (Ok []).

Definition Device_Header : string := "CiphDvce".

Definition Device_serialize (d : Device) : list byte :=
  msgpack_encode
    (VArr [VStr Device_Header; VStr (dev_id d); VStr (dev_name d);
           publicKeyMapToObject (dev_keys d)]).

Definition Device_deserialize (data : list byte) : Res Device :=
  (arr <-- msgpack_decode data ;;
   match arr with
   | VArr l =>
       if negb (Nat.eqb (List.length l) 4) then
         Throw (Error "Attempted to deserialize device, but incorrect number of components")
       else if negb (is_str (nth 0 l VUndef) Device_Header) then
         Throw (Error "Attempted to deserialize device, but header not found")
       else
         id <-- as_string (nth 1 l VUndef) ;;
         name <-- as_string (nth 2 l VUndef) ;;
         keys <-- objectToPublicKeyMap (nth 3 l VUndef) ;;
         Ok (mkDevice id name keys)
   | _ => Throw (Error "Attempted to deserialize device, but buffer was invalid")
   end)%res.

Definition Device_equals (a b : Device) : bool :=
  let pkA := JSON_stringify (publicKeyMapToObject (dev_keys a)) in
  let pkB := JSON_stringify (publicKeyMapToObject (dev_keys b)) in
  String.eqb (dev_id a) (dev_id b)
  && String.eqb (dev_name a) (dev_name b)
  && opt_string_eqb pkA pkB.

(** ** [Service.getUserDevices] *)

(** The loop over the signatures of one device.  The result is the
    flag [foundValidDevice] and whether the loop ran to its end
    ([false]: the callback returned at a failing signature). *)
Fixpoint verifyLevels (s : Service) (username : string) (deviceJson : Val)
    (publicKeys : KeyMap) (signatures : list (PKey * Val))
    (foundValidDevice : bool) : Res (bool * bool) :=
  match signatures with
  | [] => Ok (foundValidDevice, true)
  | (level, sig) :: rest =>
      (let levelNumber := Number_of_key level in
       theirSignature <-- Buffer_from_hex sig ;;
       did <-- prop deviceJson "deviceId" ;;
       publicKey <-- match map_get levelNumber publicKeys with
                     | Some k => Ok k
                     | None => Throw (TypeError "Cannot read property 'exportKey' of undefined")
                     end ;;
       deviceId <-- as_string did ;;
       if verifySignature s theirSignature username deviceId publicKey levelNumber
       then verifyLevels s username deviceJson publicKeys rest true
       else Ok (foundValidDevice, false))%res
  end.

(** The [forEach] over the devices of the response. *)
Fixpoint verifyDevices (s : Service) (username : string) (devicesJson : list Val)
    (devices : list Device) (foundValidDevice : bool) : Res (list Device * bool) :=
  match devicesJson with
  | [] => Ok (devices, foundValidDevice)
  | deviceJson :: rest =>
      (pks <-- prop deviceJson "publicKeys" ;;
       publicKeys <-- objectToPublicKeyMap pks ;;
       sigs <-- prop deviceJson "signatures" ;;
       r <-- verifyLevels s username deviceJson publicKeys (own_props sigs)
               foundValidDevice ;;
       if snd r then
         did <-- prop deviceJson "deviceId" ;;
         deviceId <-- as_string did ;;
         fn <-- prop deviceJson "friendlyName" ;;
         friendlyName <-- as_string fn ;;
         verifyDevices s username rest
           (devices ++ [mkDevice deviceId friendlyName publicKeys])%list (fst r)
       else verifyDevices s username rest devices (fst r))%res
  end.

Definition getUserDevices (fuel : nat) (s : Service) (username : string)
  : M (list Device) :=
  data <- getUri fuel s ("sp/user-devices/" ++ username) ;;
  dv <- lift (prop data "devices") ;;
  devicesJson <- lift (as_array dv) ;;
  (* Assume invalid unless there are no devices *)
  let foundValidDevice := Nat.eqb (List.length devicesJson) 0 in
  r <- lift (verifyDevices s username devicesJson [] foundValidDevice) ;;
  if negb (snd r) then throw (Error "Mismatching key signatures")
  else ret (fst r).

(** ** [lib/authentication.ts] *)

Definition Authentication_getState (fuel : nat) (s : Service)
    (statusUrl logId : string) : M AuthenticationState :=
  data <- getUrl fuel s (VStr statusUrl) ;;
  statusText <- lift (prop data "statusText") ;;
  if is_str statusText "initialised" then ret Initialised
  else if is_str statusText "scanned" then ret Scanned
  else if is_str statusText "pending sp solution" then ret PendingSPSolution
  else if is_str statusText "pending app solution" then ret PendingAppSolution
  else if is_str statusText "done" then ret Done
  else if is_str statusText "not found" then ret NotFound
  else throw (Error ("Unexpected status " ++ to_str statusText
                     ++ " for authentication (" ++ logId ++ ")")).

Definition PushAuth_getState (fuel : nat) (p : PushAuth) : M AuthenticationState :=
  state <- Authentication_getState fuel (push_service p) (push_statusUrl p) (push_logId p) ;;
  ret (match state with
       | PendingSPSolution => Initialised
       | _ => state
       end).

Definition WaveAuth_getState (fuel : nat) (w : WaveAuth) : M AuthenticationState :=
  state <- Authentication_getState fuel (wave_service w) (wave_statusUrl w) (wave_logId w) ;;
  ret (match state with
       | PendingSPSolution => Scanned
       | _ => state
       end).

(** [Enrolment.getState]. *)
Definition Enrolment_getState (fuel : nat) (e : Enrolment) : M EnrolmentState :=
  data <- getUrl fuel (enr_service e) (VStr (enr_statusUrl e)) ;;
  status <- lift (prop data "QREnrolStatus") ;;
  if is_str status "initialised" then ret EnrInitialised
  else if is_str status "scanned" then ret EnrScanned
  else if is_str status "validated" then ret EnrValidated
  else if is_str status "confirm" then ret EnrConfirmed
  else if is_str status "failed" then ret EnrFailed
  else ret EnrUnknown.

(** [Authentication.accept], on the verification URL the caller has
    just stored in [this.verifyAuthUrl]. *)
Definition accept (fuel : nat) (s : Service) (verifyAuthUrl accepted failReason : Val)
  : M Val :=
  if is_undefined verifyAuthUrl then
    throw (Error "Expected authentication verification URL. Has `authenticate` been called?")
  else
    postUrl fuel s verifyAuthUrl
      (VObj [(Name "failReason", failReason); (Name "verified", accepted)]).

Definition new_PayloadResponse : PayloadResponse :=
  mkPayloadResponse [] (VBool false).

Definition payloadRequestJson (p : PayloadRequest) : Val :=
  VObj [(Name "get", VArr (map VStr (pr_get p)));
        (Name "set", VObj (map (fun kv => (fst kv, VStr (snd kv))) (pr_set p)))].

Definition mismatch_reason (username : Val) : string :=
  "Mismatching key signatures for `" ++ to_str username
  ++ "`; re-authentication may be necessary".

(** The payload exchange of [authenticateInternal]; the result is
    [payloadValid] and the payload response. *)
Definition exchangePayload (fuel : nat) (s : Service) (data : Val)
    (publicKey : RSAKey) (p : PayloadRequest) (payloadResponse : PayloadResponse)
  : M (Val * PayloadResponse) :=
  enc <- encryptPayloadData s publicKey (payloadRequestJson p) ;;
  let payloadRequest := VObj [(Name "payload", enc)] in
  payloadURL <- lift (prop data "payloadURL") ;;
  payloadResponseEncrypted <- postUrl fuel s payloadURL payloadRequest ;;
  encrypted <- lift (prop payloadResponseEncrypted "payload") ;;
  payloadResponseJson <- lift (decryptPayloadJson s publicKey encrypted) ;;
  let payloadSetEmpty := Nat.eqb (List.length (pr_set p)) 0 in
  set' <- (if payloadSetEmpty then ret (resp_set payloadResponse)
           else lift (prop payloadResponseJson "setResponse")) ;;
  getResponse <- lift (prop payloadResponseJson "getResponse") ;;
  let get' := spread_into (spread_into [] (VObj (resp_get payloadResponse))) getResponse in
  let payloadValid := js_or (VBool payloadSetEmpty) set' in
  ret (payloadValid, mkPayloadResponse get' set').

(** [Authentication.authenticateInternal]; [retrieveAssertion] is the
    method of the subclass. *)
Definition authenticateInternal (fuel : nat) (s : Service)
    (retrieveAssertion : M Val) (authChallenge : list byte)
    (payload : option PayloadRequest) : M AuthenticationResult :=
  data <- retrieveAssertion ;;
  verifyAuthUrl <- lift (prop data "verifyAuthenticationURL") ;;
  username <- lift (prop data "username") ;;
  let authenticated := false in
  let payloadResponse := new_PayloadResponse in
  outcome <- lift (prop data "authenticated") ;;
  if is_str outcome "cancelled" then
    accept fuel s verifyAuthUrl (VBool authenticated) outcome ;;;
    ret (mkAuthenticationResult Cancel username payloadResponse)
  else if is_str outcome "reported" then
    accept fuel s verifyAuthUrl (VBool authenticated) outcome ;;;
    ret (mkAuthenticationResult Report username payloadResponse)
  else if negb (is_str outcome "true") then
    accept fuel s verifyAuthUrl (VBool authenticated) VUndef ;;;
    ret (mkAuthenticationResult Failure username payloadResponse)
  else
    pem <- lift (prop data "publicKey") ;;
    publicKey <- lift (new_NodeRSA pem) ;;
    ks <- lift (prop data "keySignature") ;;
    keySignature <- lift (Buffer_from_hex ks) ;;
    user <- lift (as_string username) ;;
    did <- lift (prop data "deviceId") ;;
    deviceId <- lift (as_string did) ;;
    lvl <- lift (prop data "publicKeyLevel") ;;
    publicKeyLevel <- lift (as_number lvl) ;;
    let validSignature :=
      verifySignature s keySignature user deviceId publicKey (Int publicKeyLevel) in
    if negb validSignature then
      accept fuel s verifyAuthUrl (VBool false) (VStr (mismatch_reason username)) ;;;
      throw (Error (mismatch_reason username))
    else
      sol <- lift (prop data "authenticationSolution") ;;
      solution <- lift (Buffer_from_hex sol) ;;
      let authenticated := rsa_verify publicKey authChallenge solution in
      r <- match payload with
           | Some p => exchangePayload fuel s data publicKey p payloadResponse
           | None => ret (VBool true, payloadResponse)
           end ;;
      let payloadValid := fst r in
      let payloadResponse := snd r in
      accept fuel s verifyAuthUrl (js_and (VBool authenticated) payloadValid) VUndef ;;;
      let result := if authenticated then Success else Failure in
      ret (mkAuthenticationResult result username payloadResponse).

Definition PushAuth_retrieveAssertion (fuel : nat) (p : PushAuth) : M Val :=
  getUrl fuel (push_service p) (VStr (push_assertionUrl p)).

Definition WaveAuth_retrieveAssertion (fuel : nat) (w : WaveAuth) : M Val :=
  request <- match wave_appChallengeUrl w with
             | Some appChallengeUrl =>
                 challengeData <- getUrl fuel (wave_service w) (VStr appChallengeUrl) ;;
                 ac <- lift (prop challengeData "appChallenge") ;;
                 appChallenge <- lift (Buffer_from_hex ac) ;;
                 let appChallengeSolution := sign (wave_service w) appChallenge in
                 ret (obj_set (Name "appChallengeSolution")
                        (VStr (to_hex appChallengeSolution)) [])
             | None => ret []
             end ;;
  let request := obj_set (Name "authenticationLevel") (VNum (wave_authLevel w)) request in
  let request := obj_set (Name "authenticationChallenge")
                   (VStr (to_hex (wave_authChallenge w))) request in
  let request := obj_set (Name "waitForAppSolution") (VBool true) request in
  postUrl fuel (wave_service w) (VStr (wave_assertionUrl w)) (VObj request).

Definition PushAuth_authenticate (fuel : nat) (p : PushAuth)
    (payload : option PayloadRequest) : M AuthenticationResult :=
  authenticateInternal fuel (push_service p) (PushAuth_retrieveAssertion fuel p)
    (push_authChallenge p) payload.

Definition WaveAuth_authenticate (fuel : nat) (w : WaveAuth) (autoAccept : bool)
    (payload : option PayloadRequest) : M AuthenticationResult :=
  authenticateInternal fuel (wave_service w) (WaveAuth_retrieveAssertion fuel w)
    (wave_authChallenge w) payload.

End Sessions.

(** ** Serialization *)

Section Serialization.
Context {cry : Crypto} {cod : Codec}.

Definition Service_Header : string := "CiphSrvc".
Definition Enrolment_Header : string := "CiphEnrl".
Definition PushAuth_Header : string := "CiphUsrP".
Definition WaveAuth_Header : string := "CiphUsrW".

Definition opt_to_null (o : option string) : Val :=
  match o with
  | Some s => VStr s
  | None => VNull
  end.

(** A field read as [string | null], with [null] turned into
    [undefined]. *)
Definition null_to_opt (v : Val) : Res (option string) :=
  match v with
  | VNull => Ok None
  | VStr s => Ok (Some s)
  | _ => Throw (TypeError "expected a string or null")
  end.

(** [Service.serialize]; [sessionId] is the current session token. *)
Definition Service_serialize (s : Service) (sessionId : Val) : list byte :=
  msgpack_encode
    (VArr [VStr Service_Header; VStr SERIALIZED_VERSION; VStr (svc_id s);
           VBuf (exportKey_private_der (svc_key s)); VNull; sessionId]).

(** [Client.deserializeService] on the client whose [WebClient] has the
    URL [url]; the result is the service and its session token. *)
Definition deserializeService (url : string) (data : list byte) : Res (Service * Val) :=
  (arr <-- msgpack_decode data ;;
   match arr with
   | VArr l =>
       if Nat.eqb (List.length l) 0 then
         Throw (Error "Attempted to deserialize service, but no components")
       else if negb (is_str (nth 0 l VUndef) Service_Header) then
         Throw (Error "Attempted to deserialize service, but header not found")
       else if Nat.eqb (List.length l) 5 then
         id <-- as_string (nth 1 l VUndef) ;;
         key <-- importKey_private_der (nth 2 l VUndef) ;;
         Ok (mkService id url key, nth 4 l VUndef)
       else if Nat.eqb (List.length l) 6 then
         if negb (is_str (nth 1 l VUndef) SERIALIZED_VERSION) then
           Throw (Error "Attempted to deserialize service, but header not found")
         else
           id <-- as_string (nth 2 l VUndef) ;;
           key <-- importKey_private_der (nth 3 l VUndef) ;;
           Ok (mkService id url key, nth 5 l VUndef)
       else
         Throw (Error "Attempted to deserialize service, but incorrect number of components")
   | _ => Throw (Error "Attempted to deserialize service, but buffer was invalid")
   end)%res.

Definition Enrolment_serialize (e : Enrolment) : list byte :=
  msgpack_encode
    (VArr [VStr Enrolment_Header; VStr SERIALIZED_VERSION; VStr (enr_logId e);
           VStr (enr_WaveCodeUrl e); VStr (enr_directEnrolUrl e);
           VStr (enr_statusUrl e); VStr (enr_validateUrl e); VStr (enr_username e);
           VStr (enr_confirmationUrl e); VStr (enr_deviceId e);
           publicKeyMapToObject (enr_publicKeys e)]).

(** [Service.deserializeEnrolment]. *)
Definition deserializeEnrolment (s : Service) (data : list byte) : Res Enrolment :=
  (arr <-- msgpack_decode data ;;
   match arr with
   | VArr l =>
       if negb (Nat.eqb (List.length l) 11) then
         Throw (Error "Attempted to deserialize enrolment, but incorrect number of components")
       else if negb (is_str (nth 0 l VUndef) Enrolment_Header) then
         Throw (Error "Attempted to deserialize enrolment, but header not found")
       else if negb (is_str (nth 1 l VUndef) SERIALIZED_VERSION) then
         Throw (Error "Attempted to deserialize PushAuth, but wrong version")
       else
         logId <-- as_string (nth 2 l VUndef) ;;
         WaveCodeUrl <-- as_string (nth 3 l VUndef) ;;
         directEnrolUrl <-- as_string (nth 4 l VUndef) ;;
         statusUrl <-- as_string (nth 5 l VUndef) ;;
         validateUrl <-- as_string (nth 6 l VUndef) ;;
         username <-- as_string (nth 7 l VUndef) ;;
         confirmationUrl <-- as_string (nth 8 l VUndef) ;;
         deviceId <-- as_string (nth 9 l VUndef) ;;
         publicKeys <-- objectToPublicKeyMap (nth 10 l VUndef) ;;
         Ok (mkEnrolment s logId WaveCodeUrl directEnrolUrl statusUrl validateUrl
               username publicKeys deviceId confirmationUrl)
   | _ => Throw (Error "Attempted to deserialize enrolment, but buffer was invalid")
   end)%res.


Definition PushAuth_serialize (p : PushAuth) : list byte :=
  msgpack_encode
    (VArr [VStr PushAuth_Header; VStr SERIALIZED_VERSION; VStr (push_logId p);
           VBuf (push_authChallenge p); VNum (push_authLevel p);
           VStr (push_username p); VBuf (Device_serialize (push_device p));
           VStr (push_statusUrl p); VStr (push_assertionUrl p);
           opt_to_null (push_verifyAuthUrl p)]).

(** [Service.deserializePushAuth]. *)
Definition deserializePushAuth (s : Service) (data : list byte) : Res PushAuth :=
  (arr <-- msgpack_decode data ;;
   match arr with
   | VArr l =>
       if negb (Nat.eqb (List.length l) 10) then
         Throw (Error "Attempted to deserialize PushAuth, but incorrect number of components")
       else if negb (is_str (nth 0 l VUndef) PushAuth_Header) then
         Throw (Error "Attempted to deserialize PushAuth, but header not found")
       else if negb (is_str (nth 1 l VUndef) SERIALIZED_VERSION) then
         Throw (Error "Attempted to deserialize PushAuth, but wrong version")
       else
         logId <-- as_string (nth 2 l VUndef) ;;
         authChallenge <-- as_buffer (nth 3 l VUndef) ;;
         level <-- as_number (nth 4 l VUndef) ;;
         username <-- as_string (nth 5 l VUndef) ;;
         deviceData <-- as_buffer (nth 6 l VUndef) ;;
         device <-- Device_deserialize deviceData ;;
         statusUrl <-- as_string (nth 7 l VUndef) ;;
         assertionUrl <-- as_string (nth 8 l VUndef) ;;
         verifyAuthUrl <-- null_to_opt (nth 9 l VUndef) ;;
         Ok (mkPushAuth s logId authChallenge level username device statusUrl
               assertionUrl verifyAuthUrl)
   | _ => Throw (Error "Attempted to deserialize PushAuth, but buffer was invalid")
   end)%res.


Definition WaveAuth_serialize (w : WaveAuth) : list byte :=
  msgpack_encode
    (VArr [VStr WaveAuth_Header; VStr SERIALIZED_VERSION; VStr (wave_logId w);
           VBuf (wave_authChallenge w); VNum (wave_authLevel w);
           VStr (wave_initiatorUrl w); VStr (wave_WaveCodeUrl w);
           VStr (wave_statusUrl w); VStr (wave_assertionUrl w);
           opt_to_null (wave_appChallengeUrl w);
           opt_to_null (wave_verifyAuthUrl w)]).

(** [Service.deserializeWaveAuth]. *)
Definition deserializeWaveAuth (s : Service) (data : list byte) : Res WaveAuth :=
  (arr <-- msgpack_decode data ;;
   match arr with
   | VArr l =>
       if negb (Nat.eqb (List.length l) 11) then
         Throw (Error "Attempted to deserialize WaveAuth, but incorrect number of components")
       else if negb (is_str (nth 0 l VUndef) WaveAuth_Header) then
         Throw (Error "Attempted to deserialize WaveAuth, but header not found")
       else if negb (is_str (nth 1 l VUndef) SERIALIZED_VERSION) then
         Throw (Error "Attempted to deserialize WaveAuth, but wrong version")
       else
         logId <-- as_string (nth 2 l VUndef) ;;
         authChallenge <-- as_buffer (nth 3 l VUndef) ;;
         authLevel <-- as_number (nth 4 l VUndef) ;;
         initiatorUrl <-- as_string (nth 5 l VUndef) ;;
         WaveCodeUrl <-- as_string (nth 6 l VUndef) ;;
         statusUrl <-- as_string (nth 7 l VUndef) ;;
         assertionUrl <-- as_string (nth 8 l VUndef) ;;
         appChallengeUrl <-- null_to_opt (nth 9 l VUndef) ;;
         verifyAuthUrl <-- null_to_opt (nth 10 l VUndef) ;;
         Ok (mkWaveAuth s logId authChallenge authLevel initiatorUrl WaveCodeUrl
               statusUrl assertionUrl appChallengeUrl verifyAuthUrl)
   | _ => Throw (Error "Attempted to deserialize WaveAuth, but buffer was invalid")
   end)%res.


End Serialization.

(** ** [lib/version.ts]: comparison and rendering *)

(** [a > b] on numbers: false as soon as one side is NaN. *)
Definition Num_gt (a b : Num) : bool :=
  match a, b with
  | Int x, Int y => y <? x
  | _, _ => false
  end.

(** The loop of [Version.compare] from position [index] on.
    [rhs.digits[index]] past the end is [undefined], which compares
    like NaN. *)
Fixpoint compare_from (index : nat) (left : list Num) (rhs : list Num) : Z :=
  match left with
  | [] => 0
  | leftElement :: rest =>
      let rightElement := nth index rhs NaN in
      if Num_gt leftElement rightElement then 1
      else if Num_gt rightElement leftElement then -1
      else compare_from (S index) rest rhs
  end.

Definition Version_compare (v rhs : Version) : Z :=
  compare_from 0 (digits v) (digits rhs).

Definition Version_lessThan (v rhs : Version) : bool :=
  Version_compare v rhs =? -1.

Definition Version_greaterThan (v rhs : Version) : bool :=
  Version_compare v rhs =? 1.

Definition Version_equalTo (v rhs : Version) : bool :=
  Version_compare v rhs =? 0.

Definition Version_lessThanOrEqual (v rhs : Version) : bool :=
  negb (Version_compare v rhs =? 1).

(** [this.digits.join(".")]. *)
Definition Version_toString (v : Version) : string :=
  join "." (map Num_toString (digits v)).

(** ** [lib/logger.ts] *)

Inductive LogLevel : Type :=
| LogError | LogWarn | LogInfo | LogDebug | LogVerbose.

(** One call of a logger method: [logger.level(msg, ...meta)]. *)
Record LogCall : Type := mkLogCall {
  log_level : LogLevel;
  log_msg : string;
  log_meta : list Val
}.

(** The call that a [PrefixLogger] makes on the logger it wraps: the
    rest parameter [meta] is handed on as one argument. *)
Definition PrefixLogger_forward (prefix : string) (c : LogCall) : LogCall :=
  mkLogCall (log_level c) (prefix ++ ": " ++ log_msg c) [VArr (log_meta c)].

(** ** [lib/client.ts]: the constructor *)

Definition string_of_codes (l : list N) : string :=
  fold_right (fun n s => String (ascii_of_N n) s) EmptyString l.

(** The white space and line terminator characters that [trim]
    removes, in UTF-8: U+0009 to U+000D, U+0020, U+00A0, U+1680,
    U+2000 to U+200A, U+2028, U+2029, U+202F, U+205F, U+3000, U+FEFF. *)
Definition white_space : list string :=
  map string_of_codes
    [ [9]; [10]; [11]; [12]; [13]; [32]; [194; 160]; [225; 154; 128];
      [226; 128; 128]; [226; 128; 129]; [226; 128; 130]; [226; 128; 131];
      [226; 128; 132]; [226; 128; 133]; [226; 128; 134]; [226; 128; 135];
      [226; 128; 136]; [226; 128; 137]; [226; 128; 138];
      [226; 128; 168]; [226; 128; 169]; [226; 128; 175]; [226; 129; 159];
      [227; 128; 128]; [239; 187; 191] ]%N.

(** What follows [p] in [s], when [s] starts with [p]. *)
Fixpoint after_prefix (p s : string) : option string :=
  match p, s with
  | EmptyString, _ => Some s
  | String a p', String b s' => if Ascii.eqb a b then after_prefix p' s' else None
  | String _ _, EmptyString => None
  end.

(** [s] without its first character, when that is white space. *)
Definition drop_white (s : string) : option string :=
  fold_right
    (fun w found =>
       match after_prefix w s with
       | Some r => Some r
       | None => found
       end)
    None white_space.

Fixpoint drop_whites (n : nat) (s : string) : string :=
  match n with
  | O => s
  | S n' =>
      match drop_white s with
      | Some r => drop_whites n' r
      | None => s
      end
  end.

Definition trimStart (s : string) : string := drop_whites (String.length s) s.

Definition reverse (s : string) : string :=
  string_of_list_ascii (rev (list_ascii_of_string s)).

(** As [drop_white], at the end of [s]. *)
Definition drop_white_end (s : string) : option string :=
  fold_right
    (fun w found =>
       match after_prefix (reverse w) (reverse s) with
       | Some r => Some (reverse r)
       | None => found
       end)
    None white_space.

Fixpoint drop_whites_end (n : nat) (s : string) : string :=
  match n with
  | O => s
  | S n' =>
      match drop_white_end s with
      | Some r => drop_whites_end n' r
      | None => s
      end
  end.

Definition trimEnd (s : string) : string := drop_whites_end (String.length s) s.

(** [s.trim()]. *)
Definition trim (s : string) : string := trimEnd (trimStart s).

(** [url[i]]: [undefined] outside the string. *)
Definition char_at (url : string) (i : Z) : option ascii :=
  if i <? 0 then None else String.get (Z.to_nat i) url.

Definition same_char (a b : option ascii) : bool :=
  match a, b with
  | Some x, Some y => Ascii.eqb x y
  | None, None => true
  | _, _ => false
  end.

(** [while (url[endIndex - 1] === url[endIndex - 2]) { endIndex--; }]
    run for at most [n] iterations; [None] when the loop has not ended
    by then. *)
Fixpoint skip_duplicates (n : nat) (url : string) (endIndex : Z) : option Z :=
  if same_char (char_at url (endIndex - 1)) (char_at url (endIndex - 2)) then
    match n with
    | O => None
    | S n' => skip_duplicates n' url (endIndex - 1)
    end
  else Some endIndex.

(** The URL that the constructor of [Client] hands to its [WebClient].
    The loop is given as many iterations as the string has characters;
    [None] stands for a constructor that does not return. *)
Definition Client_url (url : string) : option (Res string) :=
  let url := trim url in
  if Nat.eqb (String.length url) 0 then
    Some (Throw (Error "Expected non-empty URL!"))
  else
    let url := url ++ "/" in
    let endIndex := Z.of_nat (String.length url) in
    match skip_duplicates (String.length url) url endIndex with
    | Some endIndex => Some (Ok (substring 0 (Z.to_nat endIndex) url))
    | None => None
    end.

(** ** [lib/web-client.ts] *)

(** [s.endsWith(suffix)]. *)
Definition endsWith (s suffix : string) : bool :=
  (String.length suffix <=? String.length s)%nat
  && String.eqb
       (substring (String.length s - String.length suffix) (String.length suffix) s)
       suffix.

(** The [url] of a [WebClient] constructed on [url]. *)
Definition WebClient_url (url : string) : string :=
  if negb (endsWith url "/") then url ++ "/" else url.

(** [s.indexOf(t) !== -1]. *)
Definition includes (s t : string) : bool :=
  match index 0 t s with
  | Some _ => true
  | None => false
  end.

(** The response that [request] hands to its callback; the status code
    is all that the SDK reads of it. *)
Record HttpResponse : Type := mkHttpResponse { statusCode : Z }.

(** How a call of the [request] callback ends: the promise is resolved
    or rejected, or the callback throws and the promise stays pending. *)
Inductive Settled : Type :=
| Resolved (v : Val)
| Rejected (e : Err)
| Raised (e : Err).

Section WebClient.
Context {cod : Codec}.

(** [if (typeof body === "string") { body = JSON.parse(body); }]. *)
Definition parse_if_string (body : Val) : Res Val :=
  match body with
  | VStr s => JSON_parse s
  | _ => Ok body
  end.

(** [WebClient.checkForTimeout]. *)
Definition checkForTimeout (response : option HttpResponse) (body : Val)
  : Res (option Err) :=
  let timeoutError := TimeoutError "Operation timed out" in
  match response with
  | None => Ok None
  | Some response =>
      let status := statusCode response in
      if (status =? 408) || (status =? 502) || (status =? 504) then
        Ok (Some timeoutError)
      else if negb (status =? 204) && negb (truthy body) then
        Ok (Some timeoutError)
      else
        (body <-- parse_if_string body ;;
         if truthy body then
           error_message <-- prop body "error_message" ;;
           if truthy error_message && is_str error_message "Request timeout"
           then Ok (Some timeoutError)
           else Ok None
         else Ok None)%res
  end.

(** [WebClient.checkForSessionExpiry]. *)
Definition checkForSessionExpiry (response : option HttpResponse) (body : Val)
  : Res (option Err) :=
  if negb (truthy body) then Ok None
  else
    (body <-- parse_if_string body ;;
     error_message <-- prop body "error_message" ;;
     if negb (truthy error_message) then Ok None
     else
       error <-- match error_message with
                 | VStr m => Ok (toLowerCase m)
                 | _ => Throw (TypeError "body.error_message.toLowerCase is not a function")
                 end ;;
       if includes error "invalid session" || includes error "expired session"
       then Ok (Some (SessionExpiredError "Cipherise session expired"))
       else Ok None)%res.

(** The checks that the callbacks of [postUrl] and [getUrl] share;
    [Ok tt] when the callback goes on to read the body. *)
Definition check_response (error : option Err) (response : option HttpResponse)
    (body : Val) : Settled + unit :=
  match error with
  | Some e => inl (Rejected e)
  | None =>
      match checkForTimeout response body with
      | Throw e => inl (Raised e)
      | Ok (Some timeoutError) => inl (Rejected timeoutError)
      | Ok None =>
          match checkForSessionExpiry response body with
          | Throw e => inl (Raised e)
          | Ok (Some sessionExpiryError) => inl (Rejected sessionExpiryError)
          | Ok None => inr tt
          end
      end
  end.

(** The callback that [WebClient.postUrl] gives to [request.post]. *)
Definition postUrl_callback (error : option Err) (response : option HttpResponse)
    (body : Val) : Settled :=
  match check_response error response body with
  | inl done => done
  | inr _ =>
      match prop body "error_message" with
      | Throw e => Raised e
      | Ok error_message =>
          if truthy error_message then Rejected (Error (to_str error_message))
          else Resolved body
      end
  end.

(** The callback that [WebClient.getUrl] gives to [request.get]; what
    is thrown inside its [try] block rejects with "Invalid response". *)
Definition getUrl_callback (error : option Err) (response : option HttpResponse)
    (body : Val) : Settled :=
  match check_response error response body with
  | inl done => done
  | inr _ =>
      match (bodyJson <-- JSON_parse (to_str body) ;;
             error_message <-- prop bodyJson "error_message" ;;
             Ok (bodyJson, error_message))%res with
      | Ok (bodyJson, error_message) =>
          if truthy error_message then Rejected (Error (to_str error_message))
          else Resolved bodyJson
      | Throw _ =>
          Rejected (Error ("Invalid response: `" ++ to_str body ++ "`"))
      end
  end.

End WebClient.

(** ** [lib/client.ts], [lib/service.ts], [lib/enrolment.ts]: the
    remaining operations *)

Section Operations.
Context {net : Network} {cry : Crypto} {cod : Codec}.
Local Open Scope m_scope.

(** [if (this.validateServerVersion) { await this.serverInformation(); }]. *)
Definition validate_server (validateServerVersion : bool) (url : string) : M unit :=
  if validateServerVersion then serverInformation url ;;; ret tt else ret tt.

Definition createService_request (url serviceName : string) (key : RSAKey) : Request :=
  mkReq POST (VStr (url ++ "sp/create-service"))
    (VObj [(Name "friendlyName", VStr serviceName);
           (Name "publicKey", VStr (exportKey_public_pem key))])
    VUndef.

(** [Client.createService] on the client whose [WebClient] has the URL
    [url]; [key] is the key pair that [generateKeyPair] has made.  The
    result is the service and its session token. *)
Definition createService (validateServerVersion : bool) (url : string)
    (key : RSAKey) (serviceName : string) : M (Service * Val) :=
  validate_server validateServerVersion url ;;;
  response <- webCall (createService_request url serviceName key) ;;
  sid <- lift (prop response "serviceId") ;;
  serviceId <- lift (as_string sid) ;;
  ret (mkService serviceId url key, VNull).

(** [Client.deserializeServiceAsync]. *)
Definition deserializeServiceAsync (validateServerVersion : bool) (url : string)
    (data : list byte) : M (Service * Val) :=
  validate_server validateServerVersion url ;;;
  lift (deserializeService url data).

(** [Service.userEnrolled]. *)
Definition userEnrolled (fuel : nat) (s : Service) (username : string) : M bool :=
  devices <- getUserDevices fuel s username ;;
  ret (0 <? Z.of_nat (List.length devices)).

(** [new Enrolment(...)] with the defaults of its last three
    parameters. *)
Definition new_Enrolment (s : Service)
    (logId WaveCodeUrl directEnrolUrl statusUrl validateUrl username : string)
  : Enrolment :=
  mkEnrolment s logId WaveCodeUrl directEnrolUrl statusUrl validateUrl username
    [] EmptyString EmptyString.

(** [Service.enrolUser].  The constructor of [Enrolment] declares its
    parameters as strings and they are read as such. *)
Definition enrolUser (fuel : nat) (s : Service) (username : string) : M Enrolment :=
  data <- postUri fuel s "sp/enrol-user/" (VObj [(Name "username", VStr username)]) ;;
  lid <- lift (prop data "logId") ;;
  logId <- lift (as_string lid) ;;
  qr <- lift (prop data "qrCodeURL") ;;
  qrCodeURL <- lift (as_string qr) ;;
  de <- lift (prop data "directEnrolURL") ;;
  directEnrolURL <- lift (as_string de) ;;
  su <- lift (prop data "statusURL") ;;
  statusURL <- lift (as_string su) ;;
  vu <- lift (prop data "validateURL") ;;
  validateURL <- lift (as_string vu) ;;
  ret (new_Enrolment s logId qrCodeURL directEnrolURL statusURL validateURL username).

(** The three fields of an [Enrolment] that [validate] assigns.  The
    device id and the confirmation URL hold what the response holds. *)
Record Validated : Type := mkValidated {
  val_publicKeys : KeyMap;
  val_deviceId : Val;
  val_confirmationUrl : Val
}.

(** These fields on an enrolment that was constructed or deserialized. *)
Definition fields_of (e : Enrolment) : Validated :=
  mkValidated (enr_publicKeys e) (VStr (enr_deviceId e)) (VStr (enr_confirmationUrl e)).

(** [Enrolment.validate]: the identicon URL and the fields assigned. *)
Definition Enrolment_validate (fuel : nat) (e : Enrolment) : M (Val * Validated) :=
  data <- getUrl fuel (enr_service e) (VStr (enr_validateUrl e)) ;;
  failReason <- lift (prop data "failReason") ;;
  if truthy failReason then
    reason <- lift (as_string failReason) ;;
    throw (Error reason)
  else
    pks <- lift (prop data "publicKeys") ;;
    publicKeys <- lift (objectToPublicKeyMap pks) ;;
    deviceId <- lift (prop data "deviceId") ;;
    confirmationURL <- lift (prop data "confirmationURL") ;;
    identiconURL <- lift (prop data "identiconURL") ;;
    ret (identiconURL, mkValidated publicKeys deviceId confirmationURL).

(** The loop of [Enrolment.confirm] that signs every key of the
    device; the hash takes the device id as a string only. *)
Definition confirm_signatures (s : Service) (username : string) (deviceId : Val)
    (publicKeys : KeyMap) : Res (list (PKey * Val)) :=
  fold_left
    (fun acc lk =>
       (signatures <-- acc ;;
        did <-- as_string deviceId ;;
        Ok (obj_set (key_of_Num (fst lk))
              (VStr (to_hex (calculateSignature s username did (snd lk) (fst lk))))
              signatures))%res)
    publicKeys (Ok []).

Record EnrolmentResult : Type := mkEnrolmentResult {
  er_success : Val;
  er_payload : option PayloadResponse
}.

(** [payload !== undefined && Object.keys(payload.set).length > 0]. *)
Definition has_set (payload : option PayloadRequest) : bool :=
  match payload with
  | Some p => negb (Nat.eqb (List.length (pr_set p)) 0)
  | None => false
  end.

(** [this.service.encryptPayloadData(this.publicKeys.get(1)!, json)].
    Without a key of level 1 the call fails where the key is first
    used, after the bytes have been drawn. *)
Definition encryptPayloadData_for (s : Service) (recipientPublicKey : option RSAKey)
    (json : Val) : M Val :=
  match recipientPublicKey with
  | Some key => encryptPayloadData s key json
  | None =>
      key <- randomBytes 32 ;;
      iv <- randomBytes 16 ;;
      plain <- lift (match JSON_stringify json with
                     | Some d => Ok (utf8 d)
                     | None => Throw (TypeError "The first argument must be of type string")
                     end) ;;
      throw (TypeError "Cannot read property 'encrypt' of undefined")
  end.

(** [this.service.decryptPayloadJson(this.publicKeys.get(1)!, json)].
    Without a key of level 1 the call fails where the key is first
    used, after the three fields of [json] have been read. *)
Definition decryptPayloadJson_for (s : Service) (initiatorPublicKey : option RSAKey)
    (json : Val) : Res Val :=
  match initiatorPublicKey with
  | Some key => decryptPayloadJson s key json
  | None =>
      (d <-- prop json "data" ;;
       encryptedDataWithIV <-- Buffer_from_hex d ;;
       k <-- prop json "key" ;;
       encryptedKey <-- Buffer_from_hex k ;;
       g <-- prop json "signature" ;;
       signature <-- Buffer_from_hex g ;;
       Throw (TypeError "Cannot read property 'verify' of undefined"))%res
  end.

Definition confirm_request (success : bool) (payload : Val)
    (signatures : list (PKey * Val)) : Val :=
  VObj [(Name "confirm", VStr (if success then "confirm" else "reject"));
        (Name "payload", payload);
        (Name "signatures", VObj signatures)].

(** [Enrolment.confirm] on the fields [v] of the enrolment [e]. *)
Definition Enrolment_confirm (fuel : nat) (e : Enrolment) (v : Validated)
    (success : bool) (payload : option PayloadRequest) : M EnrolmentResult :=
  let s := enr_service e in
  if negb (truthy (val_confirmationUrl v)) then
    throw (Error "Expected confirmation URL. Has `validate` been called?")
  else
    signatures <- lift (confirm_signatures s (enr_username e) (val_deviceId v)
                          (val_publicKeys v)) ;;
    sealedPayload <-
      (if success && has_set payload then
         encryptPayloadData_for s (map_get (Int 1) (val_publicKeys v))
           (VObj [(Name "set",
                   VObj (map (fun kv => (fst kv, VStr (snd kv)))
                           (match payload with
                            | Some p => pr_set p
                            | None => []
                            end)))])
       else ret VUndef) ;;
    response <- postUrl fuel s (val_confirmationUrl v)
                  (confirm_request success sealedPayload signatures) ;;
    if has_set payload then
      encrypted <- lift (prop response "payload") ;;
      payloadResponseJson <-
        lift (decryptPayloadJson_for s (map_get (Int 1) (val_publicKeys v)) encrypted) ;;
      setResponse <- lift (prop payloadResponseJson "setResponse") ;;
      let success := js_and (VBool success) setResponse in
      payloadVerifyUrl <- lift (prop response "payloadVerifyURL") ;;
      (if truthy payloadVerifyUrl then
         postUrl fuel s payloadVerifyUrl (VObj [(Name "verified", success)]) ;;; ret tt
       else ret tt) ;;;
      ret (mkEnrolmentResult success (Some (mkPayloadResponse [] setResponse)))
    else
      ret (mkEnrolmentResult (VBool success) None).

(** [Service.PushAuth]: the request that starts a push authentication,
    the answer to the challenge of the app, and the session object. *)
Definition pushAuth_request (authChallenge : list byte) (authLevel : Z)
    (authenticationMessage brandingMessage notificationMessage username : string)
    (device : Device) : Val :=
  VObj [(Name "authenticationChallenge", VStr (to_hex authChallenge));
        (Name "authenticationLevel", VNum authLevel);
        (Name "authenticationMessage", VStr authenticationMessage);
        (Name "brandingMessage", VStr brandingMessage);
        (Name "deviceId", VStr (dev_id device));
        (Name "interaction", VStr "Push");
        (Name "notificationMessage", VStr notificationMessage);
        (Name "payloadRequired", VBool false);
        (Name "type", VStr "Authentication");
        (Name "username", VStr username)].

Definition challenge_answer (s : Service) (appChallenge authChallenge : list byte)
    (authLevel : Z) : Val :=
  VObj [(Name "appChallengeSolution", VStr (to_hex (sign s appChallenge)));
        (Name "authenticationChallenge", VStr (to_hex authChallenge));
        (Name "authenticationLevel", VNum authLevel);
        (Name "waitForAppSolution", VBool false)].

Definition Service_PushAuth (fuel : nat) (s : Service) (username : string)
    (device : Device)
    (authenticationMessage brandingMessage notificationMessage : string)
    (authLevel : Z) : M PushAuth :=
  authChallenge <- randomBytes 16 ;;
  let request :=
    pushAuth_request authChallenge authLevel authenticationMessage brandingMessage
      notificationMessage username device in
  data <- postUri fuel s "sp/authentication" request ;;
  assertionUrl <- lift (prop data "challengeExchangeURL") ;;
  appAuthenticationURL <- lift (prop data "appAuthenticationURL") ;;
  challengeData <- getUrl fuel s appAuthenticationURL ;;
  ac <- lift (prop challengeData "appChallenge") ;;
  appChallenge <- lift (Buffer_from_hex ac) ;;
  postUrl fuel s assertionUrl (challenge_answer s appChallenge authChallenge authLevel) ;;;
  lid <- lift (prop data "logId") ;;
  logId <- lift (as_string lid) ;;
  su <- lift (prop data "statusURL") ;;
  statusURL <- lift (as_string su) ;;
  assertionUrl <- lift (as_string assertionUrl) ;;
  ret (mkPushAuth s logId authChallenge authLevel username device statusURL
         assertionUrl None).

(** [Service.WaveAuth]. *)
Definition waveAuth_request (authChallenge : list byte) (authLevel : Z)
    (authenticationMessage brandingMessage : string) : Val :=
  VObj [(Name "authenticationChallenge", VStr (to_hex authChallenge));
        (Name "authenticationLevel", VNum authLevel);
        (Name "authenticationMessage", VStr authenticationMessage);
        (Name "brandingMessage", VStr brandingMessage);
        (Name "interaction", VStr "Wave");
        (Name "payloadRequired", VBool false);
        (Name "type", VStr "Authentication")].

(** A constructor parameter declared [string | undefined]. *)
Definition optional_string (v : Val) : Res (option string) :=
  match v with
  | VUndef => Ok None
  | VStr s => Ok (Some s)
  | _ => Throw (TypeError "expected a string or undefined")
  end.

Definition Service_WaveAuth (fuel : nat) (s : Service)
    (authenticationMessage brandingMessage : string) (authLevel : Z) : M WaveAuth :=
  authChallenge <- randomBytes 16 ;;
  let request :=
    waveAuth_request authChallenge authLevel authenticationMessage brandingMessage in
  data <- postUri fuel s "sp/authentication" request ;;
  lid <- lift (prop data "logId") ;;
  logId <- lift (as_string lid) ;;
  du <- lift (prop data "directURL") ;;
  directURL <- lift (as_string du) ;;
  qr <- lift (prop data "qrURL") ;;
  qrURL <- lift (as_string qr) ;;
  su <- lift (prop data "statusURL") ;;
  statusURL <- lift (as_string su) ;;
  ce <- lift (prop data "challengeExchangeURL") ;;
  challengeExchangeURL <- lift (as_string ce) ;;
  aa <- lift (prop data "appAuthenticationURL") ;;
  appAuthenticationURL <- lift (optional_string aa) ;;
  ret (mkWaveAuth s logId authChallenge authLevel directURL qrURL statusURL
         challengeExchangeURL appAuthenticationURL None).

End Operations.

(** ** A small executable environment

    Concrete stand-ins for the external collaborators, small enough to
    run inside the logic: a scripted server, textbook RSA over a 12-bit
    modulus with a polynomial checksum in place of SHA-256, CFB mode
    over a toy block function, and codecs for the JSON and msgpack
    fragments that the SDK exchanges.  They are used to run the model
    on concrete inputs and to show that the assumptions made about the
    collaborators can be met together. *)

Module Reference.

(** *** Network *)

(** A server that answers the successive requests with the scripted
    results. *)
Definition scripted : Network :=
  {| World := list (Res Val);
     web := fun w _ =>
       match w with
       | [] => (Throw (Error "no response"), [])
       | r :: w' => (r, w')
       end |}.

(** A server on which every session has expired. *)
Definition always_expired : Network :=
  {| World := unit;
     web := fun w _ => (Throw (SessionExpiredError "Cipherise session expired"), w) |}.

(** *** Keys and ciphers *)

Record ToyKey : Type := mkToyKey {
  modulus : Z;
  public_exponent : Z;
  private_exponent : Z          (* 0 in a key that holds the public half only *)
}.

Fixpoint modpow_pos (b : Z) (e : positive) (n : Z) : Z :=
  match e with
  | xH => b mod n
  | xO e' => let r := modpow_pos b e' n in (r * r) mod n
  | xI e' => let r := modpow_pos b e' n in (r * r * b) mod n
  end.

Definition modpow (b e n : Z) : Z :=
  match e with
  | Zpos p => modpow_pos b p n
  | _ => 1 mod n
  end.

Definition byte_of_Z (z : Z) : byte :=
  match Byte.of_N (Z.to_N (z mod 256)) with
  | Some b => b
  | None => x00
  end.

Definition Z_of_byte (b : byte) : Z := Z.of_N (Byte.to_N b).

(** Big-endian numbers. *)
Definition num_of_bytes (b : list byte) : Z :=
  fold_left (fun acc x => 256 * acc + Z_of_byte x) b 0.

Definition two_bytes (z : Z) : list byte := [byte_of_Z (z / 256); byte_of_Z z].

Definition checksum (b : list byte) : list byte :=
  let h := fold_left (fun acc x => (acc * 31 + Z_of_byte x + 7) mod 4294967296) b 17 in
  [byte_of_Z (h / 16777216); byte_of_Z (h / 65536); byte_of_Z (h / 256); byte_of_Z h].

Definition residue (k : ToyKey) (m : list byte) : Z :=
  num_of_bytes (checksum m) mod modulus k.

Definition toy_sign (k : ToyKey) (m : list byte) : list byte :=
  two_bytes (modpow (residue k m) (private_exponent k) (modulus k)).

Definition toy_verify (k : ToyKey) (m sig : list byte) : bool :=
  Nat.eqb (List.length sig) 2
  && (modpow (num_of_bytes sig) (public_exponent k) (modulus k) =? residue k m).

Definition toy_encrypt (k : ToyKey) (m : list byte) : list byte :=
  flat_map (fun x => two_bytes (modpow (Z_of_byte x) (public_exponent k) (modulus k))) m.

Fixpoint toy_decrypt (k : ToyKey) (c : list byte) : Res (list byte) :=
  match c with
  | [] => Ok []
  | hi :: lo :: r =>
      let p := modpow (num_of_bytes [hi; lo]) (private_exponent k) (modulus k) in
      if p <? 256 then
        match toy_decrypt k r with
        | Ok m => Ok (byte_of_Z p :: m)
        | Throw e => Throw e
        end
      else Throw (Error "Error during decryption")
  | _ => Throw (Error "Error during decryption")
  end.

(** Keys are written as the dot-separated decimal numbers of their
    components. *)
Definition toy_public_pem (k : ToyKey) : string :=
  "PUBLIC." ++ Z_toString (modulus k) ++ "." ++ Z_toString (public_exponent k).

Definition toy_private_text (k : ToyKey) : string :=
  "PRIVATE." ++ Z_toString (modulus k) ++ "." ++ Z_toString (public_exponent k)
  ++ "." ++ Z_toString (private_exponent k).

Definition toy_import_public (v : Val) : Res ToyKey :=
  match v with
  | VStr s =>
      match split_dots s EmptyString with
      | [tag; n; e] =>
          match String.eqb tag "PUBLIC", parseInt n, parseInt e with
          | true, Int n', Int e' => Ok (mkToyKey n' e' 0)
          | _, _, _ => Throw (Error "No key data")
          end
      | _ => Throw (Error "No key data")
      end
  | _ => Throw (Error "No key data")
  end.

Definition toy_import_private (v : Val) : Res ToyKey :=
  match v with
  | VBuf b =>
      match split_dots (string_of_list_byte b) EmptyString with
      | [tag; n; e; d] =>
          match String.eqb tag "PRIVATE", parseInt n, parseInt e, parseInt d with
          | true, Int n', Int e', Int d' => Ok (mkToyKey n' e' d')
          | _, _, _, _ => Throw (Error "No key data")
          end
      | _ => Throw (Error "No key data")
      end
  | _ => Throw (Error "No key data")
  end.

Definition xor_bytes (a b : list byte) : list byte :=
  map (fun xy => byte_of_Z (Z.lxor (Z_of_byte (fst xy)) (Z_of_byte (snd xy))))
      (combine a b).

(** The block function that stands in for AES-256. *)
Definition toy_block (key block : list byte) : list byte :=
  let s := fold_left (fun acc x => acc + Z_of_byte x) (key ++ block)%list 0 in
  map (fun i => byte_of_Z (Z_of_byte (nth i block x00) * 5
                           + Z_of_byte (nth i key x00) * 3
                           + Z_of_byte (nth (i + 16) key x00)
                           + s + Z.of_nat i))
      (seq 0 16).

(** CFB with 128-bit segments: each segment is combined with the
    encryption of the previous ciphertext segment, the first one with
    that of the IV. *)
Fixpoint cfb_encrypt (n : nat) (key prev plain : list byte) : list byte :=
  match n, plain with
  | S n', _ :: _ =>
      let c := xor_bytes (firstn 16 plain) (toy_block key prev) in
      (c ++ cfb_encrypt n' key c (skipn 16 plain))%list
  | _, _ => []
  end.

Fixpoint cfb_decrypt (n : nat) (key prev cipher : list byte) : list byte :=
  match n, cipher with
  | S n', _ :: _ =>
      let c := firstn 16 cipher in
      (xor_bytes c (toy_block key prev) ++ cfb_decrypt n' key c (skipn 16 cipher))%list
  | _, _ => []
  end.

Definition toy_cfb_encrypt (key iv plain : list byte) : list byte :=
  cfb_encrypt (List.length plain) key iv plain.

Definition toy_cfb_decrypt (key iv cipher : list byte) : Res (list byte) :=
  if negb (Nat.eqb (List.length key) 32) then Throw (Error "Invalid key length")
  else if negb (Nat.eqb (List.length iv) 16) then Throw (Error "Invalid IV length")
  else Ok (cfb_decrypt (List.length cipher) key iv cipher).

Definition toy_random (i : nat) : byte := byte_of_Z (Z.of_nat i * 37 + 11).

Definition toy_crypto : Crypto :=
  {| RSAKey := ToyKey;
     sha256 := checksum;
     rsa_sign := toy_sign;
     rsa_verify := toy_verify;
     rsa_encrypt := toy_encrypt;
     rsa_decrypt := toy_decrypt;
     new_NodeRSA := toy_import_public;
     importKey_public_pem := toy_import_public;
     exportKey_public_pem := toy_public_pem;
     importKey_private_der := toy_import_private;
     exportKey_private_der := fun k => list_byte_of_string (toy_private_text k);
     aes_256_cfb_encrypt := toy_cfb_encrypt;
     aes_256_cfb_decrypt := toy_cfb_decrypt;
     random_source := toy_random |}.

(** *** JSON *)

Definition dq : ascii := ascii_of_nat 34.

Definition quote (s : string) : string := String dq (s ++ String dq EmptyString).

(** The property key that a name denotes: the canonical decimal numbers
    below the array-index bound are indices. *)
Definition key_of_string (s : string) : PKey :=
  match Number_of_string s with
  | Int z =>
      if String.eqb (Z_toString z) s && (0 <=? z) && (z <? array_index_bound)
      then Idx (Z.to_N z) else Name s
  | NaN => Name s
  end.

Fixpoint json_text (v : Val) : option string :=
  match v with
  | VUndef => None
  | VNull => Some "null"
  | VBool true => Some "true"
  | VBool false => Some "false"
  | VNum z => Some (Z_toString z)
  | VStr s => Some (quote s)
  | VBuf b =>
      Some ("{" ++ quote "type" ++ ":" ++ quote "Buffer" ++ "," ++ quote "data" ++ ":["
            ++ join "," (map (fun x => Z_toString (Z_of_byte x)) b) ++ "]}")
  | VArr l =>
      Some ("[" ++ join "," (map (fun x => match json_text x with
                                           | Some t => t
                                           | None => "null"
                                           end) l) ++ "]")
  | VObj o =>
      Some ("{" ++ join ","
                     (flat_map (fun kv => match json_text (snd kv) with
                                          | Some t => [quote (PKey_toString (fst kv)) ++ ":" ++ t]
                                          | None => []
                                          end) o) ++ "}")
  end.

Fixpoint strip_prefix (p s : string) : option string :=
  match p, s with
  | EmptyString, _ => Some s
  | String a p', String b s' => if Ascii.eqb a b then strip_prefix p' s' else None
  | _, _ => None
  end.

(** The text of a string literal up to its closing quote; escapes and
    control characters are not accepted. *)
Fixpoint string_body (s acc : string) : option (string * string) :=
  match s with
  | EmptyString => None
  | String c r =>
      if Ascii.eqb c dq then Some (acc, r)
      else if (N_of_ascii c <? 32)%N || Ascii.eqb c (ascii_of_nat 92) then None
      else string_body r (acc ++ String c EmptyString)
  end.

Fixpoint span_digits (s acc : string) : string * string :=
  match s with
  | String c r =>
      match digit_value c with
      | Some _ => span_digits r (acc ++ String c EmptyString)
      | None => (acc, s)
      end
  | EmptyString => (acc, s)
  end.

Definition number_literal (s : string) : option (Val * string) :=
  let '(neg, u) := match s with
                   | String "-" r => (true, r)
                   | _ => (false, s)
                   end in
  let '(ds, rest) := span_digits u EmptyString in
  match leading_digits ds None, rest with
  | None, _ => None
  | Some _, String "." _ | Some _, String "e" _ | Some _, String "E" _ => None
  | Some z, _ =>
      if (1 <? String.length ds)%nat && String.prefix "0" ds then None
      else Some (VNum (if neg then - z else z), rest)
  end.

Fixpoint array_items (value : string -> option (Val * string)) (k : nat)
    (s : string) (acc : list Val) : option (Val * string) :=
  match k with
  | O => None
  | S k' =>
      match value s with
      | Some (v, r) =>
          match skip_spaces r with
          | String "," r' => array_items value k' r' (acc ++ [v])%list
          | String "]" r' => Some (VArr (acc ++ [v])%list, r')
          | _ => None
          end
      | None => None
      end
  end.

Fixpoint object_members (value : string -> option (Val * string)) (k : nat)
    (s : string) (acc : list (PKey * Val)) : option (Val * string) :=
  match k with
  | O => None
  | S k' =>
      match skip_spaces s with
      | String c r =>
          if Ascii.eqb c dq then
            match string_body r EmptyString with
            | Some (name, r1) =>
                match skip_spaces r1 with
                | String ":" r2 =>
                    match value r2 with
                    | Some (v, r3) =>
                        let acc' := obj_set (key_of_string name) v acc in
                        match skip_spaces r3 with
                        | String "," r4 => object_members value k' r4 acc'
                        | String "}" r4 => Some (VObj acc', r4)
                        | _ => None
                        end
                    | None => None
                    end
                | _ => None
                end
            | None => None
            end
          else None
      | EmptyString => None
      end
  end.

Fixpoint parse_value (n : nat) (s : string) : option (Val * string) :=
  match n with
  | O => None
  | S n' =>
      match skip_spaces s with
      | EmptyString => None
      | String c r as t =>
          if Ascii.eqb c dq then
            match string_body r EmptyString with
            | Some (x, r') => Some (VStr x, r')
            | None => None
            end
          else if Ascii.eqb c "[" then
            match skip_spaces r with
            | String "]" r' => Some (VArr [], r')
            | _ => array_items (parse_value n') (S (String.length r)) r []
            end
          else if Ascii.eqb c "{" then
            match skip_spaces r with
            | String "}" r' => Some (VObj [], r')
            | _ => object_members (parse_value n') (S (String.length r)) r []
            end
          else
            match strip_prefix "null" t, strip_prefix "true" t, strip_prefix "false" t with
            | Some r', _, _ => Some (VNull, r')
            | _, Some r', _ => Some (VBool true, r')
            | _, _, Some r' => Some (VBool false, r')
            | None, None, None => number_literal t
            end
      end
  end.

Definition json_parse (s : string) : Res Val :=
  match parse_value (S (String.length s)) s with
  | Some (v, r) =>
      match skip_spaces r with
      | EmptyString => Ok v
      | _ => Throw (Error "Unexpected token in JSON")
      end
  | None => Throw (Error "Unexpected token in JSON")
  end.

(** *** msgpack *)

Definition be16 (n : Z) : list byte := [byte_of_Z (n / 256); byte_of_Z n].

Definition be64 (z : Z) : list byte :=
  map (fun i => byte_of_Z (z / 256 ^ Z.of_nat (7 - i))) (seq 0 8).

Definition len16 {A} (l : list A) : list byte := be16 (Z.of_nat (List.length l)).

(** The 16-bit formats of msgpack. *)
Fixpoint mp_encode (v : Val) : list byte :=
  match v with
  | VUndef => [xd4; x00; x00]
  | VNull => [xc0]
  | VBool false => [xc2]
  | VBool true => [xc3]
  | VNum z =>
      if (0 <=? z) && (z <? 128) then [byte_of_Z z]
      else xd3 :: be64 (z mod 2 ^ 64)
  | VStr s => xda :: len16 (utf8 s) ++ utf8 s
  | VBuf b => xc5 :: len16 b ++ b
  | VArr l => xdc :: len16 l ++ flat_map mp_encode l
  | VObj o =>
      xde :: len16 o
        ++ flat_map (fun kv =>
                       let k := utf8 (PKey_toString (fst kv)) in
                       (xda :: len16 k ++ k) ++ mp_encode (snd kv)) o
  end%list.

Definition take_len (b : list byte) : option (nat * list byte) :=
  match b with
  | hi :: lo :: r => Some (Z.to_nat (num_of_bytes [hi; lo]), r)
  | _ => None
  end.

Definition take_bytes (b : list byte) : option (list byte * list byte) :=
  match take_len b with
  | Some (n, r) =>
      if (n <=? List.length r)%nat then Some (firstn n r, skipn n r) else None
  | None => None
  end.

Fixpoint mp_items (value : list byte -> option (Val * list byte)) (count : nat)
    (b : list byte) (acc : list Val) : option (Val * list byte) :=
  match count with
  | O => Some (VArr acc, b)
  | S c =>
      match value b with
      | Some (v, r) => mp_items value c r (acc ++ [v])%list
      | None => None
      end
  end.

Fixpoint mp_members (value : list byte -> option (Val * list byte)) (count : nat)
    (b : list byte) (acc : list (PKey * Val)) : option (Val * list byte) :=
  match count with
  | O => Some (VObj acc, b)
  | S c =>
      match value b with
      | Some (VStr k, r) =>
          match value r with
          | Some (v, r') => mp_members value c r' (obj_set (key_of_string k) v acc)
          | None => None
          end
      | _ => None
      end
  end.

Fixpoint mp_value (n : nat) (b : list byte) : option (Val * list byte) :=
  match n with
  | O => None
  | S n' =>
      match b with
      | [] => None
      | t :: r =>
          let tz := Z_of_byte t in
          if tz <? 128 then Some (VNum tz, r)
          else if tz =? 192 then Some (VNull, r)
          else if tz =? 194 then Some (VBool false, r)
          else if tz =? 195 then Some (VBool true, r)
          else if tz =? 212 then
            match r with
            | _ :: _ :: r' => Some (VUndef, r')
            | _ => None
            end
          else if tz =? 211 then
            if (8 <=? List.length r)%nat then
              let u := num_of_bytes (firstn 8 r) in
              Some (VNum (if u <? 2 ^ 63 then u else u - 2 ^ 64), skipn 8 r)
            else None
          else if tz =? 218 then
            match take_bytes r with
            | Some (x, r') => Some (VStr (string_of_list_byte x), r')
            | None => None
            end
          else if tz =? 197 then
            match take_bytes r with
            | Some (x, r') => Some (VBuf x, r')
            | None => None
            end
          else if tz =? 220 then
            match take_len r with
            | Some (c, r') => mp_items (mp_value n') c r' []
            | None => None
            end
          else if tz =? 222 then
            match take_len r with
            | Some (c, r') => mp_members (mp_value n') c r' []
            | None => None
            end
          else None
      end
  end.

Definition mp_decode (b : list byte) : Res Val :=
  match mp_value (S (List.length b)) b with
  | Some (v, []) => Ok v
  | _ => Throw (Error "Incomplete buffer")
  end.

Definition toy_codec : Codec :=
  {| JSON_stringify := json_text;
     JSON_parse := json_parse;
     msgpack_encode := mp_encode;
     msgpack_decode := mp_decode |}.

End Reference.

(** ** Concrete entities of the executable environment *)

Module Sample.
Import Reference.

Definition serviceKey : ToyKey := mkToyKey 3233 17 2753.
Definition deviceKey : ToyKey := mkToyKey 3127 3 2011.
Definition devicePublicKey : ToyKey := mkToyKey 3127 3 0.

Definition service : @Service toy_crypto :=
  @mkService toy_crypto "svc-1" "https://cs.example/" serviceKey.

(** The signature that the service makes when it enrols the device key
    of user alice at level 1, and one made with the device key itself. *)
Definition serviceSignature : list byte :=
  @calculateSignature toy_crypto service "alice" "device-1" devicePublicKey (Int 1).



Definition device : @Device toy_crypto :=
  @mkDevice toy_crypto "device-1" "Alice's phone" [(Int 1, devicePublicKey)].

Definition authChallenge : list byte := map toy_random (seq 100 16).

Definition pushAuth : @PushAuth toy_crypto :=
  @mkPushAuth toy_crypto service "log-7" authChallenge 1 "alice" device
    "https://cs.example/status/7" "https://cs.example/assertion/7" None.

Definition waveAuth : @WaveAuth toy_crypto :=
  @mkWaveAuth toy_crypto service "log-8" authChallenge 4
    "https://cs.example/direct/8" "https://cs.example/wave/8"
    "https://cs.example/status/8" "https://cs.example/assertion/8"
    (Some "https://cs.example/app-challenge/8") None.

Definition enrolment : @Enrolment toy_crypto :=
  @mkEnrolment toy_crypto service "log-9" "https://cs.example/wave/9"
    "https://cs.example/direct/9" "https://cs.example/status/9"
    "https://cs.example/validate/9" "alice"
    [(Int 2, devicePublicKey); (Int 1, devicePublicKey)] "device-1"
    "https://cs.example/confirm/9".

(** A status response whose text no state corresponds to. *)
Definition pausedStatus : list (Res Val) :=
  [Ok (VObj [(Name "statusText", VStr "paused"); (Name "QREnrolStatus", VStr "paused")])].

Definition servicePublicKey : ToyKey := mkToyKey 3233 17 0.

(** The device seen as the other end of the payload exchange. *)
Definition deviceService : @Service toy_crypto :=
  @mkService toy_crypto "device-1" "https://cs.example/" deviceKey.

Definition payloadRequest : PayloadRequest :=
  mkPayloadRequest [] [(Name "a", "x")].

(** The JSON text of the payload request. *)
Definition payloadText : string :=
  match json_text (payloadRequestJson payloadRequest) with
  | Some t => t
  | None => EmptyString
  end.

(** A state in which the payload size has been negotiated. *)
Definition ready : @St scripted := @mkSt scripted VNull (Some 4000) 0 [] [].

(** The envelope that [service] seals for the device in [ready]. *)
Definition sealedData : string :=
  "901be0b0575385560685d536f6950d47eaff2ad2f26ba0a0faeaabd0f51a3f6489aed3f81d42678cb1d6".

Definition sealedKey : string :=
  "0533047b04d1088c05cc0b1f026e0ab805250b610755078f022f05c306fa045a0c13080e06d90acb0a0406d202bc07890b59044c00f0039c0ae200ed0a9c05a1".

Definition sealedSignature : string := "0c14".

Definition envelopeOf (data key signature : string) : Val :=
  VObj [(Name "data", VStr data); (Name "key", VStr key);
        (Name "signature", VStr signature)].

(** [s] with its character at position [i] replaced by [c]. *)
Definition replace_char (i : nat) (c : ascii) (s : string) : string :=
  substring 0 i s ++ String c (substring (S i) (String.length s - S i) s).

(** What the server relays when the device has solved the challenge. *)
Definition assertion : Val :=
  VObj [(Name "verifyAuthenticationURL", VStr "https://cs.example/verify/7");
        (Name "username", VStr "alice");
        (Name "authenticated", VStr "true");
        (Name "publicKey", VStr (toy_public_pem devicePublicKey));
        (Name "keySignature", VStr (to_hex serviceSignature));
        (Name "deviceId", VStr "device-1");
        (Name "publicKeyLevel", VNum 1);
        (Name "authenticationSolution", VStr (to_hex (toy_sign deviceKey authChallenge)));
        (Name "payloadURL", VStr "https://cs.example/payload/7")].

(** Server information without a payload size. *)
Definition serverInfo : Val :=
  VObj [(Name "productType", VStr "CS"); (Name "serverVersion", VStr "6.3.1");
        (Name "buildVersion", VStr "1734"); (Name "appMinVersion", VStr "6.0.0")].

(** The reply of the device to a payload request, sealed with the
    device key for the service. *)
Definition deviceReply (ack : Val) : Val :=
  let text := match json_text (VObj [(Name "setResponse", ack);
                                     (Name "getResponse", VObj [])]) with
              | Some t => t
              | None => EmptyString
              end in
  let key := map toy_random (seq 200 32) in
  let iv := map toy_random (seq 232 16) in
  let encryptedKey := toy_encrypt servicePublicKey key in
  VObj [(Name "payload",
         envelope (toy_cfb_encrypt key iv (utf8 text) ++ iv)%list encryptedKey
           (toy_sign deviceKey encryptedKey))].

(** The device solves the challenge and refuses to store the payload. *)
Definition payloadRefused : list (Res Val) :=
  [Ok assertion; Ok serverInfo; Ok (deviceReply (VBool false)); Ok (VObj [])].

Definition expired : Res Val := Throw (SessionExpiredError "Cipherise session expired").

Definition state (w : list (Res Val)) : @St scripted :=
  @mkSt scripted VNull None 0 w [].

Definition challengeResponse : Val :=
  VObj [(Name "spAuthChallenge", VStr "0a0b0c"); (Name "authToken", VStr "token-1")].

Definition sessionResponse : Val := VObj [(Name "sessionId", VStr "session-2")].

(** The session has expired and the refresh cannot reach the server. *)
Definition refresh_fails : list (Res Val) :=
  [expired; Throw (Error "socket hang up")].

(** The session expires again right after a refresh, and the second
    refresh cannot reach the server. *)
Definition expires_twice : list (Res Val) :=
  [expired; Ok challengeResponse; Ok sessionResponse;
   expired; Throw (Error "socket hang up")].

(** The same, with a second refresh that goes through. *)
Definition expires_twice_refreshed : list (Res Val) :=
  [expired; Ok challengeResponse; Ok sessionResponse;
   expired; Ok challengeResponse; Ok sessionResponse].

(** The states that the run on [payloadRefused] goes through: after
    the assertion, after sealing the payload request, after the payload
    exchange, after the acceptance notice. *)
Definition state_of {A} (r : option (Res A * @St scripted)) : @St scripted :=
  match r with
  | Some (_, st) => st
  | None => state []
  end.

Definition afterAssertion : @St scripted :=
  state_of (@PushAuth_retrieveAssertion scripted toy_crypto 1 pushAuth
              (state payloadRefused)).

Definition afterSealing : @St scripted :=
  state_of (@encryptPayloadData scripted toy_crypto toy_codec service devicePublicKey
              (payloadRequestJson payloadRequest) afterAssertion).

Definition afterExchange : @St scripted :=
  state_of (@postUrl scripted toy_crypto 1 service
              (VStr "https://cs.example/payload/7")
              (VObj [(Name "payload", envelopeOf sealedData sealedKey sealedSignature)])
              afterSealing).

Definition refusal : Request :=
  mkReq POST (VStr "https://cs.example/verify/7")
    (VObj [(Name "failReason", VUndef); (Name "verified", VBool false)]) VUndef.

Definition afterNotice : @St scripted := snd (@send scripted refusal afterExchange).

(** A device record as the server lists it, with the given signatures. *)
Definition signatureHex (level : Z) : Val :=
  VStr (to_hex (@calculateSignature toy_crypto service "alice" "device-1"
                  devicePublicKey (Int level))).

Definition deviceJson (signatures : list (PKey * Val)) : Val :=
  VObj [(Name "deviceId", VStr "device-1");
        (Name "friendlyName", VStr "Alice's phone");
        (Name "publicKeys", VObj [(Idx 1, VStr (toy_public_pem devicePublicKey));
                                  (Idx 2, VStr (toy_public_pem devicePublicKey))]);
        (Name "signatures", VObj signatures)].

Definition devicesResponse (devices : list Val) : list (Res Val) :=
  [Ok (VObj [(Name "devices", VArr devices)])].

(** The signature of level 1 is right, that of level 2 is the one that
    belongs to level 1. *)
Definition halfVerified : Val :=
  deviceJson [(Idx 1, signatureHex 1); (Idx 2, signatureHex 1)].

(** Serialized entities with a version that is not 6.0.0. *)
Definition oldEnrolment : list byte :=
  mp_encode (VArr [VStr "CiphEnrl"; VStr "5.0.0"; VStr "log-9"; VStr "w"; VStr "d";
                   VStr "s"; VStr "v"; VStr "alice"; VStr "c"; VStr "device-1";
                   VObj []]).

Definition oldService : list byte :=
  mp_encode (VArr [VStr "CiphSrvc"; VStr "5.0.0"; VStr "svc-1";
                   VBuf (list_byte_of_string (toy_private_text serviceKey));
                   VNull; VNull]).

(** The states that [getUri] goes through on [expires_twice_refreshed]:
    after the first attempt, the first refresh, the second attempt and
    the second refresh. *)
Definition devicesRequest (sid : Val) : Request :=
  mkReq GET (VStr "https://cs.example/sp/user-devices/alice") VUndef sid.

Definition afterAttempt1 : @St scripted :=
  snd (@send scripted (devicesRequest VUndef) (state expires_twice_refreshed)).

Definition afterRefresh1 : @St scripted :=
  state_of (@refreshSession scripted toy_crypto 1 service afterAttempt1).

Definition afterAttempt2 : @St scripted :=
  snd (@send scripted (devicesRequest (VStr "session-2")) afterRefresh1).

Definition afterRefresh2 : @St scripted :=
  state_of (@refreshSession scripted toy_crypto 1 service afterAttempt2).

(** The states in which [getUri] ends on [expires_twice] and on
    [refresh_fails]. *)
Definition afterFailedRefresh2 : @St scripted :=
  state_of (@getUri scripted toy_crypto 2 service "sp/user-devices/alice"
              (state expires_twice)).

Definition afterFailedRefresh1 : @St scripted :=
  state_of (@getUri scripted toy_crypto 2 service "sp/user-devices/alice"
              (state refresh_fails)).


End Sample.

(** ** Notions used to state the properties *)

Section Notions.
Context {net : Network} {cry : Crypto} {cod : Codec}.





(** The four access helpers of [Service]. *)
Inductive Helper : Type :=
| PostUrl (url form : Val)
| PostUri (uri : string) (form : Val)
| GetUrl (url : Val)
| GetUri (uri : string).

Definition run_helper (fuel : nat) (s : Service) (h : Helper) : M Val :=
  match h with
  | PostUrl url form => postUrl fuel s url form
  | PostUri uri form => postUri fuel s uri form
  | GetUrl url => getUrl fuel s url
  | GetUri uri => getUri fuel s uri
  end.

(** The request that a helper puts on the wire under a session token. *)
Definition helper_request (s : Service) (h : Helper) (sid : Val) : Request :=
  match h with
  | PostUrl url form => mkReq POST url form sid
  | PostUri uri form => mkReq POST (uri_target s uri) form sid
  | GetUrl url => mkReq GET url VUndef sid
  | GetUri uri => mkReq GET (uri_target s uri) VUndef sid
  end.

(** What [encryptPayloadData] draws and builds in the state [st]: the
    AES key, the IV, the state after the two draws, the ciphertext with
    the IV appended, and the envelope. *)
Definition drawnKey (st : St) : list byte := map random_source (seq (rng st) 32).

Definition drawnIV (st : St) : list byte := map random_source (seq (rng st + 32) 16).

Definition after_draws (st : St) : St :=
  mkSt (sessionId st) (payloadSize st) (rng st + 32 + 16) (world st) (log st).

Definition cipherWithIV (text : string) (st : St) : list byte :=
  (aes_256_cfb_encrypt (drawnKey st) (drawnIV st) (utf8 text) ++ drawnIV st)%list.

Definition sealed (s : Service) (recipientPublicKey : RSAKey) (text : string) (st : St) : Val :=
  envelope (cipherWithIV text st)
    (rsa_encrypt recipientPublicKey (drawnKey st))
    (rsa_sign (svc_key s) (rsa_encrypt recipientPublicKey (drawnKey st))).

Definition length_exceeded (len max : Z) : Err :=
  PayloadDataLengthExceededError
    ("Payload data length limit exceeded: length " ++ Z_toString len
     ++ ", but max " ++ Z_toString max).

Definition info_request (url : string) : Request :=
  mkReq GET (VStr (url ++ "info")) VUndef VUndef.

(** The arrays that the [serialize] methods hand to msgpack. *)
Definition Service_fields (s : Service) (sessionId : Val) : Val :=
  VArr [VStr Service_Header; VStr SERIALIZED_VERSION; VStr (svc_id s);
        VBuf (exportKey_private_der (svc_key s)); VNull; sessionId].

Definition Device_fields (d : Device) : Val :=
  VArr [VStr Device_Header; VStr (dev_id d); VStr (dev_name d);
        publicKeyMapToObject (dev_keys d)].

Definition Enrolment_fields (e : Enrolment) : Val :=
  VArr [VStr Enrolment_Header; VStr SERIALIZED_VERSION; VStr (enr_logId e);
        VStr (enr_WaveCodeUrl e); VStr (enr_directEnrolUrl e);
        VStr (enr_statusUrl e); VStr (enr_validateUrl e); VStr (enr_username e);
        VStr (enr_confirmationUrl e); VStr (enr_deviceId e);
        publicKeyMapToObject (enr_publicKeys e)].

Definition PushAuth_fields (p : PushAuth) : Val :=
  VArr [VStr PushAuth_Header; VStr SERIALIZED_VERSION; VStr (push_logId p);
        VBuf (push_authChallenge p); VNum (push_authLevel p);
        VStr (push_username p); VBuf (Device_serialize (push_device p));
        VStr (push_statusUrl p); VStr (push_assertionUrl p);
        opt_to_null (push_verifyAuthUrl p)].

Definition WaveAuth_fields (w : WaveAuth) : Val :=
  VArr [VStr WaveAuth_Header; VStr SERIALIZED_VERSION; VStr (wave_logId w);
        VBuf (wave_authChallenge w); VNum (wave_authLevel w);
        VStr (wave_initiatorUrl w); VStr (wave_WaveCodeUrl w);
        VStr (wave_statusUrl w); VStr (wave_assertionUrl w);
        opt_to_null (wave_appChallengeUrl w);
        opt_to_null (wave_verifyAuthUrl w)].

(** msgpack gives back the value it has encoded. *)
Definition codec_roundtrip (v : Val) : Prop :=
  msgpack_decode (msgpack_encode v) = Ok v.






(** [m'] resolves wherever [m] does, and to the same result. *)
Definition extends {A} (m m' : M A) : Prop :=
  forall st r, m st = Some r -> m' st = Some r.



(** The signature listed under a level verifies against the key that
    the map holds for that level. *)
Definition level_verifies (s : Service) (username deviceId : string)
    (publicKeys : KeyMap) (entry : PKey * Val) : Prop :=
  exists h k,
    snd entry = VStr h
    /\ map_get (Number_of_key (fst entry)) publicKeys = Some k
    /\ verifySignature s (from_hex h) username deviceId k (Number_of_key (fst entry)) = true.

Definition level_fails (s : Service) (username deviceId : string)
    (publicKeys : KeyMap) (entry : PKey * Val) : Prop :=
  exists h k,
    snd entry = VStr h
    /\ map_get (Number_of_key (fst entry)) publicKeys = Some k
    /\ verifySignature s (from_hex h) username deviceId k (Number_of_key (fst entry)) = false.

(** The status texts that [Authentication.getState] and
    [Enrolment.getState] recognise. *)
Definition recognised_status (v : Val) : bool :=
  is_str v "initialised" || is_str v "scanned" || is_str v "pending sp solution"
  || is_str v "pending app solution" || is_str v "done" || is_str v "not found".

Definition recognised_enrolment_status (v : Val) : bool :=
  is_str v "initialised" || is_str v "scanned" || is_str v "validated"
  || is_str v "confirm" || is_str v "failed".

End Notions.

(** ** Notions of the further properties *)

(** ** Notions for the versions, the URLs and the HTTP client *)

(** The number of dots in a version string. *)
Fixpoint count_dots (s : string) : nat :=
  match s with
  | EmptyString => O
  | String c r => if Ascii.eqb c "." then S (count_dots r) else count_dots r
  end.

Definition is_integer (d : Num) : Prop :=
  match d with
  | Int _ => True
  | NaN => False
  end.

(** A number that JavaScript holds exactly and prints with all its
    digits. *)
Definition safe_digit (d : Num) : Prop :=
  match d with
  | Int z => - 2 ^ 53 < z < 2 ^ 53
  | NaN => True
  end.

(** [s] without the slashes at its end. *)
Fixpoint strip_slashes (s : string) : string :=
  match s with
  | EmptyString => EmptyString
  | String c r =>
      match strip_slashes r with
      | EmptyString => if Ascii.eqb c "/" then EmptyString else String c EmptyString
      | r' => String c r'
      end
  end.

Fixpoint slashes (n : nat) : string :=
  match n with
  | O => EmptyString
  | S n' => String "/" (slashes n')
  end.

(** The last character of a string. *)
Fixpoint last_char (s : string) : option ascii :=
  match s with
  | EmptyString => None
  | String c r =>
      match r with
      | EmptyString => Some c
      | _ => last_char r
      end
  end.

(** The first of the strings [ws] that [s] starts with, dropped from [s]. *)
Definition drop_first (ws : list string) (s : string) : option string :=
  fold_right
    (fun w found =>
       match after_prefix w s with
       | Some r => Some r
       | None => found
       end)
    None ws.

Fixpoint has_slash (s : string) : bool :=
  match s with
  | EmptyString => false
  | String c r => Ascii.eqb c "/" || has_slash r
  end.

(** The status codes that [checkForTimeout] takes for a timeout. *)
Definition timeout_status (status : Z) : bool :=
  (status =? 408) || (status =? 502) || (status =? 504).

(** The response, if there is one, does not have a timeout status. *)
Definition no_timeout_status (response : option HttpResponse) : Prop :=
  match response with
  | Some r => timeout_status (statusCode r) = false
  | None => True
  end.

Definition timed_out : Err := TimeoutError "Operation timed out".

Definition session_expired : Err := SessionExpiredError "Cipherise session expired".

(** The error of [Client.serverInformation] for a server older than
    version 6. *)
Definition unsupported_server : Err :=
  Error ("This version of the SDK does not support Cipherise servers older than version 6.x.x. "
         ++ "Please either upgrade your Cipherise server or downgrade your SDK, as appropriate.").

Definition confirmation_url_missing : Err :=
  Error "Expected confirmation URL. Has `validate` been called?".

Section RunNotions.
Context {net : Network} {cry : Crypto} {cod : Codec}.



(** The service key verifies the signature that it makes over what
    binds the key [k] of level [l] to the user and the device. *)
Definition signs_binding (s : Service) (username deviceId : string)
    (lk : Num * RSAKey) : Prop :=
  rsa_verify (svc_key s)
    (calculateSignatureData s username deviceId (snd lk) (fst lk))
    (calculateSignature s username deviceId (snd lk) (fst lk)) = true.

End RunNotions.

Section EnrolmentNotions.
Context {cry : Crypto}.

(** The entries of the [signatures] object that [Enrolment.confirm]
    builds for the device [deviceId]. *)
Definition signature_entries (s : Service) (username deviceId : string)
    (publicKeys : KeyMap) (acc : list (PKey * Val)) : list (PKey * Val) :=
  fold_left
    (fun signatures lk =>
       obj_set (key_of_Num (fst lk))
         (VStr (to_hex (calculateSignature s username deviceId (snd lk) (fst lk))))
         signatures)
    publicKeys acc.

(** An entry holds the signature of one of the keys, under its level. *)
Definition signature_of (s : Service) (username deviceId : string)
    (publicKeys : KeyMap) (entry : PKey * Val) : Prop :=
  exists lk,
    In lk publicKeys
    /\ fst entry = key_of_Num (fst lk)
    /\ snd entry
       = VStr (to_hex (calculateSignature s username deviceId (snd lk) (fst lk))).

End EnrolmentNotions.

(** The call that reaches the base logger through a chain of prefix
    loggers, each constructed on the one before it; [prefixes] lists
    their prefixes from the logger constructed on the base logger to
    the logger that is called. *)
Fixpoint through_prefixes (prefixes : list string) (c : LogCall) : LogCall :=
  match prefixes with
  | [] => c
  | p :: inner => PrefixLogger_forward p (through_prefixes inner c)
  end.

Fixpoint nested (n : nat) (meta : list Val) : list Val :=
  match n with
  | O => meta
  | S n' => [VArr (nested n' meta)]
  end.

Section ExchangeNotions.
Context {net : Network} {cry : Crypto}.

(** The state after [crypto.randomBytes(n)] and the bytes drawn. *)
Definition after_drawing (n : nat) (st : St) : St :=
  mkSt (sessionId st) (payloadSize st) (rng st + n) (world st) (log st).

Definition drawn (n : nat) (st : St) : list byte := map random_source (seq (rng st) n).

End ExchangeNotions.

Definition verification_url_missing : Err :=
  Error "Expected authentication verification URL. Has `authenticate` been called?".

(** A relation given by a test is an equivalence. *)
Definition equivalence_test {A : Type} (test : A -> A -> bool) : Prop :=
  (forall a, test a a = true)
  /\ (forall a b, test a b = test b a)
  /\ (forall a b c, test a b = true -> test b c = true -> test a c = true).

Section WaveNotions.
Context {cry : Crypto}.

(** What [WaveAuth.retrieveAssertion] posts after it has solved the
    challenge of the app. *)
Definition wave_answer (s : Service) (appChallenge authChallenge : list byte)
    (authLevel : Z) : Val :=
  VObj [(Name "appChallengeSolution", VStr (to_hex (sign s appChallenge)));
        (Name "authenticationLevel", VNum authLevel);
        (Name "authenticationChallenge", VStr (to_hex authChallenge));
        (Name "waitForAppSolution", VBool true)].

End WaveNotions.



(** ** Further runs in the executable environment *)

Module Cases.
Import Reference.

(** A response body that reports an expired session, and its text. *)
Definition expiredBody : list (PKey * Val) :=
  [(Name "error_message", VStr "Error: Expired Session (token 17)")].

Definition expiredText : string :=
  match json_text (VObj expiredBody) with
  | Some t => t
  | None => EmptyString
  end.

(** What a reverse proxy answers in place of the server. *)
Definition proxyPage : string := "<html>Bad Gateway</html>".


(** The status of a push authentication that waits for the service. *)
Definition pendingStatus : list (Res Val) :=
  [Ok (VObj [(Name "statusText", VStr "pending sp solution")])].

Definition statusRequest (url : string) : Request :=
  mkReq GET (VStr url) VUndef VUndef.

(** Server information of a server of version 5. *)
Definition oldServerInfo : Val :=
  VObj [(Name "productType", VStr "CS"); (Name "serverVersion", VStr "5.9.0");
        (Name "buildVersion", VStr "1201"); (Name "appMinVersion", VStr "5.0.0")].



(** A device listed with the signatures of both its keys. *)
Definition enrolledSignatures : list (PKey * Val) :=
  [(Idx 1, Sample.signatureHex 1); (Idx 2, Sample.signatureHex 2)].

Definition enrolledDevice : Val := Sample.deviceJson enrolledSignatures.

Definition enrolledKeys : @KeyMap toy_crypto :=
  [(Int 1, Sample.devicePublicKey); (Int 2, Sample.devicePublicKey)].

Definition listedDevice : @Device toy_crypto :=
  @mkDevice toy_crypto "device-1" "Alice's phone" enrolledKeys.

Definition devicesData : Val := VObj [(Name "devices", VArr [enrolledDevice])].

Definition afterListing : @St scripted :=
  snd (@send scripted (Sample.devicesRequest VUndef)
         (Sample.state (Sample.devicesResponse [enrolledDevice]))).

(** The answers to the three requests of [Service.PushAuth]. *)
Definition pushStarted : Val :=
  VObj [(Name "logId", VStr "log-7");
        (Name "statusURL", VStr "https://cs.example/status/7");
        (Name "challengeExchangeURL", VStr "https://cs.example/assertion/7");
        (Name "appAuthenticationURL", VStr "https://cs.example/app-challenge/7")].

Definition appChallengeData : Val := VObj [(Name "appChallenge", VStr "0d0e0f")].

Definition pushRun : list (Res Val) :=
  [Ok pushStarted; Ok appChallengeData; Ok (VObj [])].

Definition pushChallenge : list byte := map toy_random (seq 0 16).

Definition pushRequest1 : Request :=
  mkReq POST (VStr "https://cs.example/sp/authentication")
    (@pushAuth_request toy_crypto pushChallenge 2 "Sign in?" "Example" "Sign in" "alice"
       Sample.device)
    VUndef.

Definition pushRequest2 : Request :=
  mkReq GET (VStr "https://cs.example/app-challenge/7") VUndef VUndef.

Definition pushRequest3 : Request :=
  mkReq POST (VStr "https://cs.example/assertion/7")
    (@challenge_answer toy_crypto Sample.service (from_hex "0d0e0f") pushChallenge 2)
    VUndef.

Definition pushState0 : @St scripted :=
  @after_drawing scripted 16 (Sample.state pushRun).

Definition pushState1 : @St scripted := snd (@send scripted pushRequest1 pushState0).
Definition pushState2 : @St scripted := snd (@send scripted pushRequest2 pushState1).
Definition pushState3 : @St scripted := snd (@send scripted pushRequest3 pushState2).

Definition startedPushAuth : @PushAuth toy_crypto :=
  @mkPushAuth toy_crypto Sample.service "log-7" pushChallenge 2 "alice" Sample.device
    "https://cs.example/status/7" "https://cs.example/assertion/7" None.

(** The answer to [Service.enrolUser], and the enrolment made of it. *)
Definition enrolStarted : Val :=
  VObj [(Name "logId", VStr "log-9");
        (Name "qrCodeURL", VStr "https://cs.example/wave/9");
        (Name "directEnrolURL", VStr "https://cs.example/direct/9");
        (Name "statusURL", VStr "https://cs.example/status/9");
        (Name "validateURL", VStr "https://cs.example/validate/9")].

Definition freshEnrolment : @Enrolment toy_crypto :=
  @new_Enrolment toy_crypto Sample.service "log-9" "https://cs.example/wave/9"
    "https://cs.example/direct/9" "https://cs.example/status/9"
    "https://cs.example/validate/9" "alice".

Definition enrolRequest : Request :=
  mkReq POST (VStr "https://cs.example/sp/enrol-user/")
    (VObj [(Name "username", VStr "alice")]) VUndef.

Definition afterEnrol : @St scripted :=
  snd (@send scripted enrolRequest (Sample.state [Ok enrolStarted])).

(** A validation response that names no confirmation URL. *)
Definition validatedWithoutUrl : Val :=
  VObj [(Name "publicKeys", VObj [(Idx 1, VStr (toy_public_pem Sample.devicePublicKey))]);
        (Name "deviceId", VStr "device-1");
        (Name "identiconURL", VStr "https://cs.example/identicon/9")].

Definition validateRequest : Request :=
  mkReq GET (VStr "https://cs.example/validate/9") VUndef VUndef.

Definition afterValidate : @St scripted :=
  snd (@send scripted validateRequest (Sample.state [Ok validatedWithoutUrl])).

Definition fieldsWithoutUrl : @Validated toy_crypto :=
  @mkValidated toy_crypto [(Int 1, Sample.devicePublicKey)] (VStr "device-1") VUndef.




(** The state in which the payload size has been asked for. *)
Definition afterInfo : @St scripted :=
  Sample.state_of
    (@getPayloadSize scripted "https://cs.example/" (Sample.state [Ok Sample.serverInfo])).

End Cases.

Module WaveCases.
Import Reference.

Definition waveStarted : Val :=
  VObj [(Name "logId", VStr "log-8");
        (Name "directURL", VStr "https://cs.example/direct/8");
        (Name "qrURL", VStr "https://cs.example/wave/8");
        (Name "statusURL", VStr "https://cs.example/status/8");
        (Name "challengeExchangeURL", VStr "https://cs.example/assertion/8");
        (Name "appAuthenticationURL", VStr "https://cs.example/app-challenge/8")].

Definition waveRun : list (Res Val) :=
  [Ok waveStarted; Ok Cases.appChallengeData; Ok Sample.assertion].

Definition waveRequest1 : Request :=
  mkReq POST (VStr "https://cs.example/sp/authentication")
    (waveAuth_request Cases.pushChallenge 4 "Sign in?" "Example") VUndef.

Definition waveRequest2 : Request :=
  mkReq GET (VStr "https://cs.example/app-challenge/8") VUndef VUndef.

Definition waveRequest3 : Request :=
  mkReq POST (VStr "https://cs.example/assertion/8")
    (@wave_answer toy_crypto Sample.service (from_hex "0d0e0f") Cases.pushChallenge 4)
    VUndef.

Definition waveState0 : @St scripted := @after_drawing scripted 16 (Sample.state waveRun).
Definition waveState1 : @St scripted := snd (@send scripted waveRequest1 waveState0).
Definition waveState2 : @St scripted := snd (@send scripted waveRequest2 waveState1).
Definition waveState3 : @St scripted := snd (@send scripted waveRequest3 waveState2).

Definition startedWaveAuth : @WaveAuth toy_crypto :=
  @mkWaveAuth toy_crypto Sample.service "log-8" Cases.pushChallenge 4
    "https://cs.example/direct/8" "https://cs.example/wave/8"
    "https://cs.example/status/8" "https://cs.example/assertion/8"
    (Some "https://cs.example/app-challenge/8") None.

End WaveCases.

Module VersionCases.
Import Reference.



End VersionCases.

(** * Properties *)

(** ** Equality tests, hex and UTF-8 *)

Lemma PKey_eqb_eq a b : PKey_eqb a b = true <-> a = b.
Proof.
  destruct a, b; simpl; try (split; discriminate).
  - rewrite N.eqb_eq. split; congruence.
  - rewrite String.eqb_eq. split; congruence.
Qed.

Lemma PKey_eqb_refl a : PKey_eqb a a = true.
Proof. now apply PKey_eqb_eq. Qed.

Lemma Num_eqb_eq a b : Num_eqb a b = true <-> a = b.
Proof.
  destruct a, b; simpl; try (split; (discriminate || reflexivity)).
  rewrite Z.eqb_eq. split; congruence.
Qed.

Lemma bytes_eqb_eq a b : bytes_eqb a b = true <-> a = b.
Proof. unfold bytes_eqb. destruct (list_eq_dec _ a b); split; congruence. Qed.

Lemma opt_string_eqb_refl a : opt_string_eqb a a = true.
Proof. destruct a; simpl; auto using String.eqb_refl. Qed.

Lemma hex_byte_roundtrip (x : byte) :
  hex_value (hex_digit (Byte.to_N x / 16)) = Some (Byte.to_N x / 16)%N /\
  hex_value (hex_digit (Byte.to_N x mod 16)) = Some (Byte.to_N x mod 16)%N /\
  byte_of_nibbles (Byte.to_N x / 16) (Byte.to_N x mod 16) = x.
Proof. destruct x; vm_compute; repeat split. Qed.

Lemma from_hex_to_hex (b : list byte) : from_hex (to_hex b) = b.
Proof.
  induction b as [|x r IH]; [reflexivity|].
  cbn [to_hex from_hex].
  destruct (hex_byte_roundtrip x) as (H1 & H2 & H3).
  now rewrite H1, H2, H3, IH.
Qed.

Lemma utf8_roundtrip (s : string) : utf8_toString (utf8 s) = s.
Proof. apply string_of_list_byte_of_string. Qed.

(** ** Decimal numbers and byte strings *)

Lemma string_app_assoc (a b c : string) : ((a ++ b) ++ c = a ++ (b ++ c))%string.
Proof. induction a as [|x a IH]; simpl; [reflexivity | now rewrite IH]. Qed.

Lemma string_app_nil_r (a : string) : (a ++ EmptyString = a)%string.
Proof. induction a as [|x a IH]; simpl; [reflexivity | now rewrite IH]. Qed.




Lemma to_int_not_nil (z : Z) :
  Z.to_int z <> Decimal.Pos Decimal.Nil /\ Z.to_int z <> Decimal.Neg Decimal.Nil.
Proof.
  destruct z; simpl; split; try discriminate;
    intros H; injection H; apply DecimalPos.Unsigned.to_uint_nonnil.
Qed.

Lemma int_of_Z_toString (z : Z) :
  NilZero.int_of_string (Z_toString z) = Some (Z.to_int z).
Proof.
  unfold Z_toString. destruct (to_int_not_nil z). now apply NilZero.isi.
Qed.

Lemma Number_of_Z_toString (z : Z) : Number_of_string (Z_toString z) = Int z.
Proof.
  unfold Number_of_string. rewrite int_of_Z_toString. now rewrite DecimalZ.of_to.
Qed.



Lemma Number_of_key_of_Num (n : Num) : Number_of_key (key_of_Num n) = n.
Proof.
  destruct n as [|z]; [reflexivity|]. unfold key_of_Num.
  destruct ((0 <=? z) && (z <? array_index_bound)) eqn:E; simpl.
  - apply andb_true_iff in E. destruct E as [E _]. apply Z.leb_le in E.
    now rewrite Z2N.id.
  - apply Number_of_Z_toString.
Qed.

(** ** The signature that binds a device key to a user *)

Section Signature.
Context {cry : Crypto}.




End Signature.

Section SignatureBinding.
Context {cry : Crypto}.






End SignatureBinding.

(** ** Concrete runs: signatures *)




(** ** The access helpers: refresh and retry *)

Section Retry.
Context {net : Network} {cry : Crypto}.

Lemma run_helper_unfold (f : nat) (s : Service) (h : Helper) :
  run_helper (S f) s h = attempts (refreshSession f s) (helper_request s h) 2.
Proof. destruct h; reflexivity. Qed.

Lemma send_log (r : Request) (st : St) (res : Res Val) (st' : St) :
  send r st = (res, st') -> log st' = (log st ++ [r])%list.
Proof.
  unfold send. destruct (web (world st) r) as [x w]. intros H.
  injection H as _ <-. reflexivity.
Qed.

Lemma attempts_step (refresh : M unit) (call : Val -> Request) (n : nat) (st : St) :
  attempts refresh call (S n) st
  = match send (call (session_arg st)) st with
    | (Ok v, st') => Some (Ok v, st')
    | (Throw e, st') =>
        if is_SessionExpired e
        then bind refresh (fun _ => attempts refresh call n) st'
        else Some (Throw e, st')
    end.
Proof. reflexivity. Qed.

Lemma bind_extends {A B} (m m' : M A) (k k' : A -> M B) :
  extends m m' -> (forall a, extends (k a) (k' a)) -> extends (bind m k) (bind m' k').
Proof.
  intros Hm Hk st r. unfold bind. destruct (m st) as [[[a|e] st1]|] eqn:E; intros H.
  - rewrite (Hm _ _ E). now apply Hk.
  - now rewrite (Hm _ _ E).
  - discriminate H.
Qed.

Lemma extends_refl {A} (m : M A) : extends m m.
Proof. intros st r H. exact H. Qed.

Lemma attempts_extends (refresh refresh' : M unit) (call : Val -> Request) (n : nat) :
  extends refresh refresh' -> extends (attempts refresh call n) (attempts refresh' call n).
Proof.
  intros Hr. induction n as [|n IH]; [apply extends_refl|].
  intros st r. cbn [attempts]. destruct (send (call (session_arg st)) st) as [[v|e] st1].
  - auto.
  - destruct (is_SessionExpired e); [|auto].
    apply bind_extends; [exact Hr | intros _; exact IH].
Qed.

Lemma refreshSession_with_extends (g g' : string -> M Val) (p p' : string -> Val -> M Val)
    (s : Service) :
  (forall uri, extends (g uri) (g' uri)) ->
  (forall uri form, extends (p uri form) (p' uri form)) ->
  extends (refreshSession_with g p s) (refreshSession_with g' p' s).
Proof.
  intros Hg Hp. unfold refreshSession_with.
  apply bind_extends; [apply Hg | intros challengeData].
  repeat (apply bind_extends; [apply extends_refl | intros ?]).
  apply bind_extends; [apply Hp | intros responseData].
  apply extends_refl.
Qed.

(** A helper that has resolved keeps its result under a larger budget. *)
Lemma access_extends (f : nat) (s : Service) (call : Val -> Request) :
  extends (access f s call) (access (S f) s call).
Proof.
  revert call. induction f as [|f IH]; intros call.
  - intros st r H. discriminate H.
  - change (extends (attempts (refreshSession f s) call 2)
                    (attempts (refreshSession (S f) s) call 2)).
    apply attempts_extends. apply refreshSession_with_extends.
    + intros uri. apply IH.
    + intros uri form. apply IH.
Qed.

(** C3, as the code has it, for each of [postUrl], [postUri],
    [getUrl] and [getUri].  A first attempt that succeeds is returned
    after one request, with no refresh.  An error that is not
    session-expired propagates at once.  On session-expired,
    [refreshSession] is run: if it throws, its error propagates and
    there is no retry; if it completes, the request is sent exactly
    once more with the refreshed token and that attempt decides: its
    result is returned, its other errors propagate, and if it raises
    session-expired again [refreshSession] is run a second time, after
    which the call resolves to [undefined] without a third attempt, or
    throws what that refresh throws. *)
Theorem C3_refresh_and_retry_once (f : nat) (s : Service) (h : Helper) (st : St) :
  let call := helper_request s h in
  let run := run_helper (S f) s h st in
  let r1 := call (session_arg st) in
  (forall v st1, send r1 st = (Ok v, st1) ->
     run = Some (Ok v, st1) /\ log st1 = (log st ++ [r1])%list)
  /\ (forall e st1, send r1 st = (Throw e, st1) -> is_SessionExpired e = false ->
       run = Some (Throw e, st1) /\ log st1 = (log st ++ [r1])%list)
  /\ (forall e st1 e' st2, send r1 st = (Throw e, st1) -> is_SessionExpired e = true ->
       refreshSession f s st1 = Some (Throw e', st2) ->
       run = Some (Throw e', st2))
  /\ (forall e st1 st2, send r1 st = (Throw e, st1) -> is_SessionExpired e = true ->
       refreshSession f s st1 = Some (Ok tt, st2) ->
       let r2 := call (session_arg st2) in
       (forall v st3, send r2 st2 = (Ok v, st3) ->
          run = Some (Ok v, st3) /\ log st3 = (log st2 ++ [r2])%list)
       /\ (forall e2 st3, send r2 st2 = (Throw e2, st3) -> is_SessionExpired e2 = false ->
            run = Some (Throw e2, st3) /\ log st3 = (log st2 ++ [r2])%list)
       /\ (forall e2 st3 st4, send r2 st2 = (Throw e2, st3) -> is_SessionExpired e2 = true ->
            refreshSession f s st3 = Some (Ok tt, st4) ->
            run = Some (Ok VUndef, st4) /\ log st3 = (log st2 ++ [r2])%list)
       /\ (forall e2 st3 e' st4, send r2 st2 = (Throw e2, st3) -> is_SessionExpired e2 = true ->
            refreshSession f s st3 = Some (Throw e', st4) ->
            run = Some (Throw e', st4))).
Proof.
  intros call run r1. subst run. rewrite run_helper_unfold. fold call.
  rewrite attempts_step. fold r1.
  split; [|split; [|split]].
  - intros v st1 H. rewrite H. split; [reflexivity | exact (send_log _ _ _ _ H)].
  - intros e st1 H He. rewrite H, He. split; [reflexivity | exact (send_log _ _ _ _ H)].
  - intros e st1 e' st2 H He Hr. rewrite H, He. unfold bind. now rewrite Hr.
  - intros e st1 st2 H He Hr r2. rewrite H, He. unfold bind. rewrite Hr.
    rewrite attempts_step. fold r2. split; [|split; [|split]].
    + intros v st3 H2. rewrite H2. split; [reflexivity | exact (send_log _ _ _ _ H2)].
    + intros e2 st3 H2 He2. rewrite H2, He2.
      split; [reflexivity | exact (send_log _ _ _ _ H2)].
    + intros e2 st3 st4 H2 He2 Hr2. rewrite H2, He2. unfold bind. rewrite Hr2.
      split; [reflexivity | exact (send_log _ _ _ _ H2)].
    + intros e2 st3 e' st4 H2 He2 Hr2. rewrite H2, He2. unfold bind. now rewrite Hr2.
Qed.

End Retry.

(** On a server that reports every session as expired, also to the
    requests of the refresh itself, no helper ever resolves: each
    refresh starts with a helper call that needs a refresh. *)
Lemma always_expired_never_resolves {cry : Crypto}
    (fuel : nat) (s : Service) (call : Val -> Request) (st : @St Reference.always_expired) :
  @access Reference.always_expired cry fuel s call st = None.
Proof.
  revert call st. induction fuel as [|f IH]; intros call st; [reflexivity|].
  cbn [access attempts]. unfold send, bind, refreshSession_with, bind. simpl.
  now rewrite IH.
Qed.

(** ** Concrete runs: the access helpers *)

(** C3, as stated, fails.  In the first run both attempts of [getUri]
    raise session-expired and the call throws, because the second
    refresh fails.  In the second run the first attempt raises
    session-expired and there is no retry, because the refresh fails. *)
Lemma C3_counterexample_refresh_can_throw :
  @run_helper Reference.scripted Reference.toy_crypto 2 Sample.service
    (GetUri "sp/user-devices/alice") (Sample.state Sample.expires_twice)
  = Some (Throw (Error "socket hang up"), Sample.afterFailedRefresh2)
  /\ map (fun q => (target q, session q)) (log Sample.afterFailedRefresh2)
     = [(VStr "https://cs.example/sp/user-devices/alice", VUndef);
        (VStr "https://cs.example/sp/authenticate-service/svc-1", VUndef);
        (VStr "https://cs.example/sp/authenticate-service/", VUndef);
        (VStr "https://cs.example/sp/user-devices/alice", VStr "session-2");
        (VStr "https://cs.example/sp/authenticate-service/svc-1", VStr "session-2")]
  /\ @run_helper Reference.scripted Reference.toy_crypto 2 Sample.service
       (GetUri "sp/user-devices/alice") (Sample.state Sample.refresh_fails)
     = Some (Throw (Error "socket hang up"), Sample.afterFailedRefresh1)
  /\ map (fun q => (target q, session q)) (log Sample.afterFailedRefresh1)
     = [(VStr "https://cs.example/sp/user-devices/alice", VUndef);
        (VStr "https://cs.example/sp/authenticate-service/svc-1", VUndef)].
Proof. repeat split; vm_compute; reflexivity. Qed.

Lemma C3_witness :
  @run_helper Reference.scripted Reference.toy_crypto 2 Sample.service
    (GetUri "sp/user-devices/alice") (Sample.state Sample.expires_twice_refreshed)
  = Some (Ok VUndef, Sample.afterRefresh2)
  /\ map target (log Sample.afterRefresh2)
     = [VStr "https://cs.example/sp/user-devices/alice";
        VStr "https://cs.example/sp/authenticate-service/svc-1";
        VStr "https://cs.example/sp/authenticate-service/";
        VStr "https://cs.example/sp/user-devices/alice";
        VStr "https://cs.example/sp/authenticate-service/svc-1";
        VStr "https://cs.example/sp/authenticate-service/"].
Proof.
  destruct (@C3_refresh_and_retry_once Reference.scripted Reference.toy_crypto 1
              Sample.service (GetUri "sp/user-devices/alice")
              (Sample.state Sample.expires_twice_refreshed)) as (_ & _ & _ & H4).
  assert (A1 : @send Reference.scripted
                 (helper_request Sample.service (GetUri "sp/user-devices/alice")
                    (session_arg (Sample.state Sample.expires_twice_refreshed)))
                 (Sample.state Sample.expires_twice_refreshed)
               = (Throw (SessionExpiredError "Cipherise session expired"),
                  Sample.afterAttempt1)) by (vm_compute; reflexivity).
  assert (A2 : @refreshSession Reference.scripted Reference.toy_crypto 1 Sample.service
                 Sample.afterAttempt1 = Some (Ok tt, Sample.afterRefresh1))
    by (vm_compute; reflexivity).
  destruct (H4 _ _ _ A1 eq_refl A2) as (_ & _ & H43 & _).
  assert (B1 : @send Reference.scripted
                 (helper_request Sample.service (GetUri "sp/user-devices/alice")
                    (session_arg Sample.afterRefresh1))
                 Sample.afterRefresh1
               = (Throw (SessionExpiredError "Cipherise session expired"),
                  Sample.afterAttempt2)) by (vm_compute; reflexivity).
  assert (B2 : @refreshSession Reference.scripted Reference.toy_crypto 1 Sample.service
                 Sample.afterAttempt2 = Some (Ok tt, Sample.afterRefresh2))
    by (vm_compute; reflexivity).
  destruct (H43 _ _ _ B1 eq_refl B2) as [R _].
  split; [exact R | vm_compute; reflexivity].
Defined.

(** ** Session states *)

Section States.
Context {net : Network} {cry : Crypto}.

Lemma bind_resolve {A B} (m : M A) (k : A -> M B) (st st' : St) (a : A) :
  m st = Some (Ok a, st') -> bind m k st = k a st'.
Proof. intros H. unfold bind. now rewrite H. Qed.

Lemma bind_throws {A B} (m : M A) (k : A -> M B) (st st' : St) (e : Err) :
  m st = Some (Throw e, st') -> bind m k st = Some (Throw e, st').
Proof. intros H. unfold bind. now rewrite H. Qed.

Lemma Authentication_getState_unexpected (fuel : nat) (s : Service)
    (statusUrl logId : string) (st st' : St) (data v : Val) :
  getUrl fuel s (VStr statusUrl) st = Some (Ok data, st') ->
  prop data "statusText" = Ok v ->
  recognised_status v = false ->
  Authentication_getState fuel s statusUrl logId st
  = Some (Throw (Error ("Unexpected status " ++ to_str v
                        ++ " for authentication (" ++ logId ++ ")")), st').
Proof.
  intros Hget Hprop Hrec. unfold Authentication_getState.
  rewrite (bind_resolve _ _ _ _ _ Hget). rewrite Hprop.
  unfold recognised_status in Hrec.
  repeat (apply orb_false_iff in Hrec; destruct Hrec as [Hrec ?H]).
  unfold bind, lift. now rewrite Hrec, H, H0, H1, H2, H3.
Qed.

(** C10: when the status response carries a [statusText] outside the
    six recognised values, [getState] of a PushAuth and of a WaveAuth
    throws an error that names the status and the [logId] of the
    session; [Enrolment.getState] maps a status outside its five
    recognised values to [Unknown] and does not throw. *)
Theorem C10_unexpected_status_throws (fuel : nat) (st st' : St) (data v : Val) :
  (forall p : PushAuth,
      getUrl fuel (push_service p) (VStr (push_statusUrl p)) st = Some (Ok data, st') ->
      prop data "statusText" = Ok v ->
      recognised_status v = false ->
      PushAuth_getState fuel p st
      = Some (Throw (Error ("Unexpected status " ++ to_str v
                            ++ " for authentication (" ++ push_logId p ++ ")")), st'))
  /\ (forall w : WaveAuth,
      getUrl fuel (wave_service w) (VStr (wave_statusUrl w)) st = Some (Ok data, st') ->
      prop data "statusText" = Ok v ->
      recognised_status v = false ->
      WaveAuth_getState fuel w st
      = Some (Throw (Error ("Unexpected status " ++ to_str v
                            ++ " for authentication (" ++ wave_logId w ++ ")")), st'))
  /\ (forall e : Enrolment,
      getUrl fuel (enr_service e) (VStr (enr_statusUrl e)) st = Some (Ok data, st') ->
      prop data "QREnrolStatus" = Ok v ->
      recognised_enrolment_status v = false ->
      Enrolment_getState fuel e st = Some (Ok EnrUnknown, st')).
Proof.
  split; [|split].
  - intros p Hget Hprop Hrec. unfold PushAuth_getState.
    now rewrite (bind_throws _ _ _ _ _
                   (Authentication_getState_unexpected _ _ _ _ _ _ _ _ Hget Hprop Hrec)).
  - intros w Hget Hprop Hrec. unfold WaveAuth_getState.
    now rewrite (bind_throws _ _ _ _ _
                   (Authentication_getState_unexpected _ _ _ _ _ _ _ _ Hget Hprop Hrec)).
  - intros e Hget Hprop Hrec. unfold Enrolment_getState.
    rewrite (bind_resolve _ _ _ _ _ Hget). rewrite Hprop.
    unfold recognised_enrolment_status in Hrec.
    repeat (apply orb_false_iff in Hrec; destruct Hrec as [Hrec ?H]).
    unfold bind, lift. now rewrite Hrec, H, H0, H1, H2.
Qed.

End States.

Lemma C10_witness :
  @PushAuth_getState Reference.scripted Reference.toy_crypto 1 Sample.pushAuth
    (Sample.state Sample.pausedStatus)
  = Some (Throw (Error "Unexpected status paused for authentication (log-7)"),
          snd (@send Reference.scripted
                 (mkReq GET (VStr "https://cs.example/status/7") VUndef VUndef)
                 (Sample.state Sample.pausedStatus)))
  /\ @WaveAuth_getState Reference.scripted Reference.toy_crypto 1 Sample.waveAuth
       (Sample.state Sample.pausedStatus)
     = Some (Throw (Error "Unexpected status paused for authentication (log-8)"),
             snd (@send Reference.scripted
                    (mkReq GET (VStr "https://cs.example/status/8") VUndef VUndef)
                    (Sample.state Sample.pausedStatus)))
  /\ @Enrolment_getState Reference.scripted Reference.toy_crypto 1 Sample.enrolment
       (Sample.state Sample.pausedStatus)
     = Some (Ok EnrUnknown,
             snd (@send Reference.scripted
                    (mkReq GET (VStr "https://cs.example/status/9") VUndef VUndef)
                    (Sample.state Sample.pausedStatus))).
Proof.
  split; [|split].
  - apply (proj1 (@C10_unexpected_status_throws Reference.scripted Reference.toy_crypto
                    1 (Sample.state Sample.pausedStatus) _
                    (VObj [(Name "statusText", VStr "paused");
                           (Name "QREnrolStatus", VStr "paused")])
                    (VStr "paused")) Sample.pushAuth); reflexivity.
  - apply (proj1 (proj2 (@C10_unexpected_status_throws Reference.scripted
                           Reference.toy_crypto
                           1 (Sample.state Sample.pausedStatus) _
                           (VObj [(Name "statusText", VStr "paused");
                                  (Name "QREnrolStatus", VStr "paused")])
                           (VStr "paused"))) Sample.waveAuth); reflexivity.
  - apply (proj2 (proj2 (@C10_unexpected_status_throws Reference.scripted
                           Reference.toy_crypto
                           1 (Sample.state Sample.pausedStatus) _
                           (VObj [(Name "statusText", VStr "paused");
                                  (Name "QREnrolStatus", VStr "paused")])
                           (VStr "paused"))) Sample.enrolment); reflexivity.
Defined.

(** ** The payload envelope *)

Section Envelope.
Context {net : Network} {cry : Crypto} {cod : Codec}.

Lemma encryptPayloadData_eq (s : Service) (pk : RSAKey) (json : Val) (text : string)
    (st : St) :
  JSON_stringify json = Some text ->
  encryptPayloadData s pk json st
  = bind (getPayloadSize (svc_url s))
      (fun n =>
         if Z.of_nat (List.length (cipherWithIV text st)) * 2 >=? n
         then throw (length_exceeded (Z.of_nat (List.length (cipherWithIV text st))) n)
         else ret (sealed s pk text st))
      (after_draws st).
Proof.
  intros Htext. unfold encryptPayloadData. rewrite Htext. reflexivity.
Qed.



End Envelope.

Section EnvelopeRoundTrip.
Context {net : Network} {cry : Crypto} {cod : Codec}.

Lemma encryptPayloadData_returns (s : Service) (pk : RSAKey) (json env : Val)
    (text : string) (st st' : St) :
  JSON_stringify json = Some text ->
  encryptPayloadData s pk json st = Some (Ok env, st') ->
  env = sealed s pk text st.
Proof.
  intros Htext H. rewrite (encryptPayloadData_eq _ _ _ _ _ Htext) in H.
  unfold bind in H.
  destruct (getPayloadSize (svc_url s) (after_draws st)) as [[[n|e] st1]|];
    [|discriminate|discriminate].
  destruct (_ >=? n); [discriminate|]. now injection H as <- _.
Qed.

Lemma utf8_length (text : string) : List.length (utf8 text) = String.length text.
Proof.
  unfold utf8, list_byte_of_string. rewrite length_map.
  induction text as [|c r IH]; simpl; [reflexivity | now rewrite IH].
Qed.

Lemma rejects_unsigned_key (r : Service) (initiatorPublicKey : RSAKey)
    (data key signature : string) :
  rsa_verify initiatorPublicKey (from_hex key) (from_hex signature) = false ->
  decryptPayloadJson r initiatorPublicKey
    (VObj [(Name "data", VStr data); (Name "key", VStr key);
           (Name "signature", VStr signature)])
  = Throw (Error "Failed payload signature verification").
Proof. intros H. unfold decryptPayloadJson. simpl. now rewrite H. Qed.

(** C6, as the code has it.  Round trip: for a payload [P] with JSON
    text [text] that [encryptPayloadData] of the sender has sealed for
    the recipient (so it was under the size ceiling), with matching key
    pairs (the initiator key verifies what the sender signs, the
    recipient key decrypts what was encrypted to it) and AES-CFB
    inverting itself, [decryptPayloadJson] of the recipient returns
    [P].  Tampering: an envelope whose [key] field decodes to bytes
    that the signature does not verify for is rejected with the
    signature error before anything is decrypted.  The signature does
    not cover the [data] field, and nothing is promised about changes
    to it. *)
Theorem C6_envelope_round_trip (sender recipient : Service)
    (recipientPublicKey initiatorPublicKey : RSAKey) (P env : Val) (text : string)
    (st st' : St)
    (Henc : encryptPayloadData sender recipientPublicKey P st = Some (Ok env, st'))
    (Htext : JSON_stringify P = Some text)
    (Hnonempty : text <> EmptyString)
    (Hparse : JSON_parse text = Ok P)
    (Hsender : rsa_verify initiatorPublicKey
                 (rsa_encrypt recipientPublicKey (drawnKey st))
                 (rsa_sign (svc_key sender) (rsa_encrypt recipientPublicKey (drawnKey st)))
               = true)
    (Hrecipient : rsa_decrypt (svc_key recipient)
                    (rsa_encrypt recipientPublicKey (drawnKey st))
                  = Ok (drawnKey st))
    (Hcfb : aes_256_cfb_decrypt (drawnKey st) (drawnIV st)
              (aes_256_cfb_encrypt (drawnKey st) (drawnIV st) (utf8 text))
            = Ok (utf8 text))
    (Hlen : List.length (aes_256_cfb_encrypt (drawnKey st) (drawnIV st) (utf8 text))
            = List.length (utf8 text)) :
  decryptPayloadJson recipient initiatorPublicKey env = Ok P
  /\ (forall data key signature,
        rsa_verify initiatorPublicKey (from_hex key) (from_hex signature) = false ->
        decryptPayloadJson recipient initiatorPublicKey
          (VObj [(Name "data", VStr data); (Name "key", VStr key);
                 (Name "signature", VStr signature)])
        = Throw (Error "Failed payload signature verification")).
Proof.
  split; [|intros; now apply rejects_unsigned_key].
  rewrite (encryptPayloadData_returns _ _ _ _ _ _ _ Htext Henc).
  unfold sealed, envelope, decryptPayloadJson. simpl.
  rewrite !from_hex_to_hex, Hsender. simpl. rewrite Hrecipient. simpl.
  set (ct := aes_256_cfb_encrypt (drawnKey st) (drawnIV st) (utf8 text)) in *.
  assert (Hiv : List.length (drawnIV st) = 16%nat).
  { unfold drawnIV. now rewrite length_map, length_seq. }
  assert (Hct : (0 < List.length ct)%nat).
  { rewrite Hlen, utf8_length. destruct text; [congruence | simpl; lia]. }
  assert (Hb : Z.of_nat (List.length (cipherWithIV text st)) - 16
               = Z.of_nat (List.length ct)).
  { unfold cipherWithIV. fold ct. rewrite length_app, Hiv. lia. }
  rewrite Hb. destruct (Z.of_nat (List.length ct) <=? 0) eqn:E;
    [apply Z.leb_le in E; lia|].
  rewrite Nat2Z.id. unfold cipherWithIV. fold ct.
  rewrite firstn_app, firstn_all, Nat.sub_diag, firstn_O, app_nil_r.
  rewrite skipn_app, skipn_all, Nat.sub_diag, skipn_O. simpl.
  rewrite Hcfb. simpl. now rewrite utf8_roundtrip.
Qed.

End EnvelopeRoundTrip.

(** ** Concrete runs: the payload envelope *)

(** C6, as stated, fails in its tampering half.  The envelope sealed
    for the payload [{get: [], set: {a: "x"}}] is given first.  With
    the hex character at position 45 of its [data] field changed from
    0 to 1, [decryptPayloadJson] returns the payload with the value
    ["y"].  With the hex character at position 7 of its [key] field
    changed from b to B, it returns the original payload. *)
Lemma C6_counterexample_tampering_accepted :
  @encryptPayloadData Reference.scripted Reference.toy_crypto Reference.toy_codec
    Sample.service Sample.devicePublicKey (payloadRequestJson Sample.payloadRequest)
    Sample.ready
  = Some (Ok (Sample.envelopeOf Sample.sealedData Sample.sealedKey Sample.sealedSignature),
          @after_draws Reference.scripted Sample.ready)
  /\ String.get 45 Sample.sealedData = Some "0"%char
  /\ @decryptPayloadJson Reference.toy_crypto Reference.toy_codec
       Sample.deviceService Sample.servicePublicKey
       (Sample.envelopeOf (Sample.replace_char 45 "1" Sample.sealedData)
          Sample.sealedKey Sample.sealedSignature)
     = Ok (VObj [(Name "get", VArr []); (Name "set", VObj [(Name "a", VStr "y")])])
  /\ String.get 7 Sample.sealedKey = Some "b"%char
  /\ @decryptPayloadJson Reference.toy_crypto Reference.toy_codec
       Sample.deviceService Sample.servicePublicKey
       (Sample.envelopeOf Sample.sealedData
          (Sample.replace_char 7 "B" Sample.sealedKey) Sample.sealedSignature)
     = Ok (payloadRequestJson Sample.payloadRequest).
Proof. vm_compute. repeat split. Qed.

Lemma C6_witness :
  @decryptPayloadJson Reference.toy_crypto Reference.toy_codec
    Sample.deviceService Sample.servicePublicKey
    (Sample.envelopeOf Sample.sealedData Sample.sealedKey Sample.sealedSignature)
  = Ok (payloadRequestJson Sample.payloadRequest)
  /\ @decryptPayloadJson Reference.toy_crypto Reference.toy_codec
       Sample.deviceService Sample.servicePublicKey
       (Sample.envelopeOf Sample.sealedData
          (Sample.replace_char 3 "4" Sample.sealedKey) Sample.sealedSignature)
     = Throw (Error "Failed payload signature verification").
Proof.
  destruct (@C6_envelope_round_trip Reference.scripted Reference.toy_crypto
           Reference.toy_codec Sample.service Sample.deviceService
           Sample.devicePublicKey Sample.servicePublicKey
           (payloadRequestJson Sample.payloadRequest)
           (Sample.envelopeOf Sample.sealedData Sample.sealedKey Sample.sealedSignature)
           Sample.payloadText
           Sample.ready (@after_draws Reference.scripted Sample.ready)) as [H1 H2].
  - vm_compute. reflexivity.
  - vm_compute. reflexivity.
  - discriminate.
  - vm_compute. reflexivity.
  - vm_compute. reflexivity.
  - vm_compute. reflexivity.
  - vm_compute. reflexivity.
  - vm_compute. reflexivity.
  - split; [exact H1|]. apply H2. vm_compute. reflexivity.
Defined.


(** ** [authenticateInternal] *)

Section Authenticate.
Context {net : Network} {cry : Crypto} {cod : Codec}.

Lemma accept_first_attempt (f : nat) (s : Service) (url accepted failReason r : Val)
    (st st' : St) :
  is_undefined url = false ->
  send (mkReq POST url
          (VObj [(Name "failReason", failReason); (Name "verified", accepted)])
          (session_arg st)) st = (Ok r, st') ->
  accept (S f) s url accepted failReason st = Some (Ok r, st').
Proof.
  intros Hu H. unfold accept. rewrite Hu. unfold postUrl.
  change (access (S f) s ?c) with (attempts (refreshSession f s) c 2).
  rewrite attempts_step. now rewrite H.
Qed.

(** C2, as the code has it: when the assertion reports
    [authenticated == "true"], the key-binding signature verifies, the
    challenge solution verifies, and a payload with a non-empty [set]
    was requested whose acknowledgement [ack] by the device is falsy,
    then the acceptance notice posted to the verification URL carries
    [verified: authenticated && payloadValid], which is [ack] itself
    and so falsy, and the returned outcome is [Success]: the outcome
    is decided by the challenge solution alone, and the refused payload
    shows in the [set] field of the payload response. *)
Theorem C2_refused_payload_is_not_accepted_but_success
    (f : nat) (s : Service) (retrieveAssertion : M Val) (authChallenge : list byte)
    (p : PayloadRequest) (o : list (PKey * Val)) (publicKey : RSAKey)
    (keySignature user deviceId solution : string) (level : Z)
    (enc resp encrypted json ack getResponse r : Val) (st0 st1 st2 st3 st4 : St)
    (Hassertion : retrieveAssertion st0 = Some (Ok (VObj o), st1))
    (Hurl : is_undefined (lookup_key (Name "verifyAuthenticationURL") o) = false)
    (Htrue : lookup_key (Name "authenticated") o = VStr "true")
    (Hkey : new_NodeRSA (lookup_key (Name "publicKey") o) = Ok publicKey)
    (Hks : lookup_key (Name "keySignature") o = VStr keySignature)
    (Huser : lookup_key (Name "username") o = VStr user)
    (Hdev : lookup_key (Name "deviceId") o = VStr deviceId)
    (Hlevel : lookup_key (Name "publicKeyLevel") o = VNum level)
    (Hsol : lookup_key (Name "authenticationSolution") o = VStr solution)
    (Hbinding : verifySignature s (from_hex keySignature) user deviceId publicKey
                  (Int level) = true)
    (Hsolved : rsa_verify publicKey authChallenge (from_hex solution) = true)
    (Hset : pr_set p <> [])
    (Henc : encryptPayloadData s publicKey (payloadRequestJson p) st1 = Some (Ok enc, st2))
    (Hpost : postUrl (S f) s (lookup_key (Name "payloadURL") o)
               (VObj [(Name "payload", enc)]) st2 = Some (Ok resp, st3))
    (Hpayload : prop resp "payload" = Ok encrypted)
    (Hdecrypt : decryptPayloadJson s publicKey encrypted = Ok json)
    (Hack : prop json "setResponse" = Ok ack)
    (Hfalsy : truthy ack = false)
    (Hget : prop json "getResponse" = Ok getResponse)
    (Hnotice : send (mkReq POST (lookup_key (Name "verifyAuthenticationURL") o)
                       (VObj [(Name "failReason", VUndef); (Name "verified", ack)])
                       (session_arg st3)) st3 = (Ok r, st4)) :
  authenticateInternal (S f) s retrieveAssertion authChallenge (Some p) st0
  = Some (Ok (mkAuthenticationResult Success (VStr user)
                (mkPayloadResponse (spread_into [] getResponse) ack)), st4)
  /\ js_and (VBool true) (js_or (VBool false) ack) = ack
  /\ truthy (js_and (VBool true) (js_or (VBool false) ack)) = false
  /\ log st4
     = (log st3 ++ [mkReq POST (lookup_key (Name "verifyAuthenticationURL") o)
                      (VObj [(Name "failReason", VUndef); (Name "verified", ack)])
                      (session_arg st3)])%list.
Proof.
  split; [|split; [reflexivity | split; [exact Hfalsy | exact (send_log _ _ _ _ Hnotice)]]].
  unfold authenticateInternal.
  rewrite (bind_resolve _ _ _ _ _ Hassertion).
  assert (Hx : exchangePayload (S f) s (VObj o) publicKey p new_PayloadResponse st1
               = Some (Ok (ack, mkPayloadResponse (spread_into [] getResponse) ack), st3)).
  { assert (E : Nat.eqb (List.length (pr_set p)) 0 = false).
    { destruct (pr_set p); [congruence | reflexivity]. }
    unfold exchangePayload. rewrite (bind_resolve _ _ _ _ _ Henc). cbv beta.
    cbn [prop]. unfold lift at 1. unfold bind at 1. cbv beta iota.
    rewrite (bind_resolve _ _ _ _ _ Hpost). cbv beta.
    rewrite Hpayload. unfold lift at 1. unfold bind at 1. cbv beta iota.
    rewrite Hdecrypt. unfold lift at 1. unfold bind at 1. cbv beta iota.
    rewrite E, Hack. unfold lift at 1. unfold bind at 1. cbv beta iota.
    rewrite Hget. reflexivity. }
  cbn [prop]. rewrite Htrue, Hks, Huser, Hdev, Hlevel, Hsol.
  unfold lift.
  repeat (unfold bind at 1; cbv beta iota; rewrite ?Hkey;
          cbn [Buffer_from_hex as_string as_number];
          rewrite ?Hbinding, ?Hsolved; cbn [negb]).
  change (is_str (VStr "true") "cancelled") with false.
  change (is_str (VStr "true") "reported") with false.
  change (is_str (VStr "true") "true") with true.
  cbn [negb]. cbv iota. rewrite Hx. cbn [fst snd].
  unfold js_and. cbn [truthy].
  now rewrite (accept_first_attempt _ _ _ _ _ _ _ _ Hurl Hnotice).
Qed.

End Authenticate.

(** ** Concrete runs: authentication with a refused payload *)

(** C2, as stated, fails in its last part.  The device solves the
    challenge, the key-binding signature verifies, a payload with a
    non-empty [set] is requested and the device answers
    [setResponse: false].  The notice posted last carries
    [verified: false], and the outcome returned is [Success]. *)
Lemma C2_counterexample_outcome_is_success :
  lookup_key (Name "authenticated") (own_props Sample.assertion) = VStr "true"
  /\ @verifySignature Reference.toy_crypto Sample.service Sample.serviceSignature
       "alice" "device-1" Sample.devicePublicKey (Int 1) = true
  /\ @rsa_verify Reference.toy_crypto Sample.devicePublicKey Sample.authChallenge
       (Reference.toy_sign Sample.deviceKey Sample.authChallenge) = true
  /\ pr_set Sample.payloadRequest <> []
  /\ @PushAuth_authenticate Reference.scripted Reference.toy_crypto Reference.toy_codec
       1 Sample.pushAuth (Some Sample.payloadRequest)
       (Sample.state Sample.payloadRefused)
     = Some (Ok (mkAuthenticationResult Success (VStr "alice")
                   (mkPayloadResponse [] (VBool false))), Sample.afterNotice)
  /\ map (fun q => (target q, body q)) (skipn 3 (log Sample.afterNotice))
     = [(VStr "https://cs.example/verify/7",
         VObj [(Name "failReason", VUndef); (Name "verified", VBool false)])]
  /\ Success <> Failure.
Proof.
  split; [reflexivity|]. split; [vm_compute; reflexivity|].
  split; [vm_compute; reflexivity|]. split; [discriminate|].
  split; [vm_compute; reflexivity|]. split; [vm_compute; reflexivity | discriminate].
Qed.

Lemma C2_witness :
  @PushAuth_authenticate Reference.scripted Reference.toy_crypto Reference.toy_codec
    1 Sample.pushAuth (Some Sample.payloadRequest)
    (Sample.state Sample.payloadRefused)
  = Some (Ok (mkAuthenticationResult Success (VStr "alice")
                (mkPayloadResponse [] (VBool false))), Sample.afterNotice)
  /\ log Sample.afterNotice = (log Sample.afterExchange ++ [Sample.refusal])%list.
Proof.
  destruct (@C2_refused_payload_is_not_accepted_but_success
              Reference.scripted Reference.toy_crypto Reference.toy_codec
              0 Sample.service
              (@PushAuth_retrieveAssertion Reference.scripted Reference.toy_crypto
                 1 Sample.pushAuth)
              Sample.authChallenge Sample.payloadRequest
              (own_props Sample.assertion) Sample.devicePublicKey
              (to_hex Sample.serviceSignature) "alice" "device-1"
              (to_hex (Reference.toy_sign Sample.deviceKey Sample.authChallenge)) 1
              (Sample.envelopeOf Sample.sealedData Sample.sealedKey Sample.sealedSignature)
              (Sample.deviceReply (VBool false))
              (lookup_key (Name "payload") (own_props (Sample.deviceReply (VBool false))))
              (VObj [(Name "setResponse", VBool false); (Name "getResponse", VObj [])])
              (VBool false) (VObj []) (VObj [])
              (Sample.state Sample.payloadRefused) Sample.afterAssertion
              Sample.afterSealing Sample.afterExchange Sample.afterNotice)
    as (H1 & _ & _ & H4); try (vm_compute; reflexivity).
  - discriminate.
  - split; [exact H1 | exact H4].
Defined.

(** ** The device list *)

Section Devices.
Context {net : Network} {cry : Crypto}.

(** A device whose signatures all verify passes the loop, and the
    flag is set as soon as there is one signature. *)
Lemma verifyLevels_all_verify (s : Service) (username deviceId : string)
    (deviceJson : Val) (publicKeys : KeyMap) (signatures : list (PKey * Val))
    (found : bool) :
  prop deviceJson "deviceId" = Ok (VStr deviceId) ->
  Forall (level_verifies s username deviceId publicKeys) signatures ->
  verifyLevels s username deviceJson publicKeys signatures found
  = Ok (found || negb (Nat.eqb (List.length signatures) 0), true).
Proof.
  intros Hid Hall. revert found.
  induction Hall as [|[l v] rest (h & k & Hv & Hk & Hs) _ IH]; intros found.
  - simpl. now rewrite orb_false_r.
  - simpl in Hv, Hk, Hs. subst v. cbn [verifyLevels Buffer_from_hex rbind].
    rewrite Hid. cbn [rbind]. rewrite Hk. cbn [rbind as_string]. rewrite Hs.
    rewrite IH. simpl. now rewrite orb_true_r.
Qed.

(** A failing signature ends the loop for the device, whatever comes
    after it; the flag is set if a signature has verified before. *)
Lemma verifyLevels_one_fails (s : Service) (username deviceId : string)
    (deviceJson : Val) (publicKeys : KeyMap) (before after : list (PKey * Val))
    (entry : PKey * Val) (found : bool) :
  prop deviceJson "deviceId" = Ok (VStr deviceId) ->
  Forall (level_verifies s username deviceId publicKeys) before ->
  level_fails s username deviceId publicKeys entry ->
  verifyLevels s username deviceJson publicKeys (before ++ entry :: after)%list found
  = Ok (found || negb (Nat.eqb (List.length before) 0), false).
Proof.
  intros Hid Hall (h & k & Hv & Hk & Hs). revert found.
  induction Hall as [|[l v] rest (h' & k' & Hv' & Hk' & Hs') _ IH]; intros found.
  - destruct entry as [l v]. simpl in Hv, Hk, Hs. subst v.
    cbn [app verifyLevels Buffer_from_hex rbind].
    rewrite Hid. cbn [rbind]. rewrite Hk. cbn [rbind as_string]. rewrite Hs.
    simpl. now rewrite orb_false_r.
  - simpl in Hv', Hk', Hs'. subst v. cbn [app verifyLevels Buffer_from_hex rbind].
    rewrite Hid. cbn [rbind]. rewrite Hk'. cbn [rbind as_string]. rewrite Hs'.
    rewrite IH. simpl. now rewrite orb_true_r.
Qed.

(** C4, where the code departs from it: a device whose first
    per-level signature verifies and whose second does not is left out
    of the list, but the valid signature has already set
    [foundValidDevice]; when it is the only device of the response,
    [getUserDevices] returns the empty list instead of throwing
    "Mismatching key signatures". *)
Theorem C4_valid_level_before_failing_level_hides_error
    (fuel : nat) (s : Service) (username : string) (st st' : St)
    (data deviceJson pks sigs : Val) (publicKeys : KeyMap) (deviceId : string)
    (l1 l2 : PKey) (h1 h2 : string) (rest : list (PKey * Val)) (k1 k2 : RSAKey)
    (Hget : getUri fuel s ("sp/user-devices/" ++ username) st = Some (Ok data, st'))
    (Hdevices : prop data "devices" = Ok (VArr [deviceJson]))
    (Hpks : prop deviceJson "publicKeys" = Ok pks)
    (Hmap : objectToPublicKeyMap pks = Ok publicKeys)
    (Hsigs : prop deviceJson "signatures" = Ok sigs)
    (Hown : own_props sigs = (l1, VStr h1) :: (l2, VStr h2) :: rest)
    (Hid : prop deviceJson "deviceId" = Ok (VStr deviceId))
    (Hk1 : map_get (Number_of_key l1) publicKeys = Some k1)
    (Hk2 : map_get (Number_of_key l2) publicKeys = Some k2)
    (Hvalid : verifySignature s (from_hex h1) username deviceId k1 (Number_of_key l1) = true)
    (Hinvalid : verifySignature s (from_hex h2) username deviceId k2 (Number_of_key l2) = false) :
  getUserDevices fuel s username st = Some (Ok [], st').
Proof.
  unfold getUserDevices. rewrite (bind_resolve _ _ _ _ _ Hget).
  rewrite Hdevices. unfold lift at 1 2. unfold bind at 1 2. cbn [as_array].
  cbn [List.length Nat.eqb verifyDevices]. rewrite Hpks. cbn [rbind].
  rewrite Hmap. cbn [rbind]. rewrite Hsigs. cbn [rbind]. rewrite Hown.
  cbn [verifyLevels Buffer_from_hex rbind]. rewrite Hid. cbn [rbind].
  rewrite Hk1. cbn [rbind as_string]. rewrite Hvalid, Hk2. cbn [rbind as_string].
  rewrite Hinvalid. reflexivity.
Qed.

End Devices.

Lemma C4_witness :
  @getUserDevices Reference.scripted Reference.toy_crypto 1 Sample.service "alice"
    (Sample.state (Sample.devicesResponse [Sample.halfVerified]))
  = Some (Ok [],
          snd (@send Reference.scripted (Sample.devicesRequest VUndef)
                 (Sample.state (Sample.devicesResponse [Sample.halfVerified])))).
Proof.
  apply (@C4_valid_level_before_failing_level_hides_error
           Reference.scripted Reference.toy_crypto 1 Sample.service "alice" _ _
           (VObj [(Name "devices", VArr [Sample.halfVerified])]) Sample.halfVerified
           (VObj [(Idx 1, VStr (Reference.toy_public_pem Sample.devicePublicKey));
                  (Idx 2, VStr (Reference.toy_public_pem Sample.devicePublicKey))])
           (VObj [(Idx 1, Sample.signatureHex 1); (Idx 2, Sample.signatureHex 1)])
           [(Int 1, Sample.devicePublicKey); (Int 2, Sample.devicePublicKey)]
           "device-1" (Idx 1) (Idx 2)
           (to_hex Sample.serviceSignature) (to_hex Sample.serviceSignature) []
           Sample.devicePublicKey Sample.devicePublicKey);
    vm_compute; reflexivity.
Defined.

(** The same device with the two signatures in the other order, and a
    device without signatures, make [getUserDevices] throw; so does no
    device pass there, and here the error is raised. *)
Lemma getUserDevices_error_depends_on_order :
  @getUserDevices Reference.scripted Reference.toy_crypto 1 Sample.service "alice"
    (Sample.state (Sample.devicesResponse
       [Sample.deviceJson [(Idx 1, Sample.signatureHex 2);
                           (Idx 2, Sample.signatureHex 2)]]))
  = Some (Throw (Error "Mismatching key signatures"),
          snd (@send Reference.scripted (Sample.devicesRequest VUndef)
                 (Sample.state (Sample.devicesResponse
                    [Sample.deviceJson [(Idx 1, Sample.signatureHex 2);
                                        (Idx 2, Sample.signatureHex 2)]]))))
  /\ @getUserDevices Reference.scripted Reference.toy_crypto 1 Sample.service "alice"
       (Sample.state (Sample.devicesResponse [Sample.deviceJson []]))
     = Some (Throw (Error "Mismatching key signatures"),
             snd (@send Reference.scripted (Sample.devicesRequest VUndef)
                    (Sample.state (Sample.devicesResponse [Sample.deviceJson []]))))
  /\ @getUserDevices Reference.scripted Reference.toy_crypto 1 Sample.service "alice"
       (Sample.state (Sample.devicesResponse []))
     = Some (Ok [],
             snd (@send Reference.scripted (Sample.devicesRequest VUndef)
                    (Sample.state (Sample.devicesResponse [])))).
Proof. split; [|split]; reflexivity. Qed.

(** ** Deserialization errors *)

Section DeserializationErrors.
Context {cry : Crypto} {cod : Codec}.

(** C9, where the code departs from it: a serialized enrolment with a
    version other than 6.0.0 is refused with an error that names
    PushAuth, and a serialized service in the six-component format with
    a version other than 6.0.0 is refused with the error for a missing
    header. *)
Theorem C9_wrong_version_errors_misname (data : list byte) (v : string)
    (rest : list Val) (Hv : v <> SERIALIZED_VERSION) :
  (forall s : Service,
      msgpack_decode data = Ok (VArr (VStr Enrolment_Header :: VStr v :: rest)) ->
      List.length rest = 9%nat ->
      deserializeEnrolment s data
      = Throw (Error "Attempted to deserialize PushAuth, but wrong version"))
  /\ (forall url : string,
      msgpack_decode data = Ok (VArr (VStr Service_Header :: VStr v :: rest)) ->
      List.length rest = 4%nat ->
      deserializeService url data
      = Throw (Error "Attempted to deserialize service, but header not found")).
Proof.
  assert (E : is_str (VStr v) SERIALIZED_VERSION = false).
  { simpl. now apply String.eqb_neq. }
  split.
  - intros s Hd Hl. unfold deserializeEnrolment. rewrite Hd.
    cbn [rbind List.length]. rewrite Hl. cbn [Nat.eqb negb nth].
    change (is_str (VStr Enrolment_Header) Enrolment_Header) with true.
    cbn [negb]. now rewrite E.
  - intros url Hd Hl. unfold deserializeService. rewrite Hd.
    cbn [rbind List.length]. rewrite Hl. cbn [Nat.eqb negb nth].
    change (is_str (VStr Service_Header) Service_Header) with true.
    cbn [negb]. now rewrite E.
Qed.

End DeserializationErrors.

Lemma C9_witness :
  @deserializeEnrolment Reference.toy_crypto Reference.toy_codec Sample.service
    Sample.oldEnrolment
  = Throw (Error "Attempted to deserialize PushAuth, but wrong version")
  /\ @deserializeService Reference.toy_crypto Reference.toy_codec
       "https://cs.example/" Sample.oldService
     = Throw (Error "Attempted to deserialize service, but header not found").
Proof.
  split.
  - apply (proj1 (@C9_wrong_version_errors_misname Reference.toy_crypto
                    Reference.toy_codec Sample.oldEnrolment "5.0.0"
                    [VStr "log-9"; VStr "w"; VStr "d"; VStr "s"; VStr "v";
                     VStr "alice"; VStr "c"; VStr "device-1"; VObj []]
                    ltac:(discriminate)) Sample.service);
      vm_compute; reflexivity.
  - apply (proj2 (@C9_wrong_version_errors_misname Reference.toy_crypto
                    Reference.toy_codec Sample.oldService "5.0.0"
                    [VStr "svc-1";
                     VBuf (list_byte_of_string
                             (Reference.toy_private_text Sample.serviceKey));
                     VNull; VNull]
                    ltac:(discriminate)) "https://cs.example/");
      vm_compute; reflexivity.
Defined.

(** ** Serialization round trips *)

Section KeyMaps.
Context {cry : Crypto}.







Lemma obj_set_Forall (P : PKey * Val -> Prop) (k : PKey) (v : Val) (o : list (PKey * Val)) :
  P (k, v) -> Forall P o -> Forall P (obj_set k v o).
Proof.
  intros Hk. induction o as [|[k' v'] r IH]; simpl; intros Ho.
  - now constructor.
  - inversion Ho as [|? ? Hh Hr]; subst.
    destruct (PKey_eqb k' k) eqn:E.
    + apply PKey_eqb_eq in E. subst. now constructor.
    + destruct k as [n|t], k' as [n'|t'].
      * destruct (n <? n')%N; constructor; auto.
      * constructor; auto.
      * constructor; auto.
      * constructor; auto.
Qed.







End KeyMaps.

Section RoundTrip.
Context {cry : Crypto} {cod : Codec}.

Lemma bytes_eqb_refl (b : list byte) : bytes_eqb b b = true.
Proof. now apply bytes_eqb_eq. Qed.

Lemma Service_equals_refl (s : Service) : Service_equals s s = true.
Proof.
  unfold Service_equals. now rewrite !String.eqb_refl, bytes_eqb_refl.
Qed.




End RoundTrip.


(** * Further properties *)

(** ** Versions *)

(** The comparison loop on the two lists of digits side by side. *)
Lemma nth_skipn_0 (i : nat) (r : list Num) : nth i r NaN = nth 0 (skipn i r) NaN.
Proof.
  revert r. induction i as [|i IH]; intros r; [reflexivity|].
  destruct r as [|y r]; [reflexivity|]. simpl. apply IH.
Qed.

Lemma compare_from_skipn (i : nat) (l r : list Num) :
  compare_from i l r = compare_from 0 l (skipn i r).
Proof.
  revert i r. induction l as [|x l IH]; intros i r; [reflexivity|].
  change (compare_from i (x :: l) r)
    with (if Num_gt x (nth i r NaN) then 1
          else if Num_gt (nth i r NaN) x then -1
          else compare_from (S i) l r).
  change (compare_from 0 (x :: l) (skipn i r))
    with (if Num_gt x (nth 0 (skipn i r) NaN) then 1
          else if Num_gt (nth 0 (skipn i r) NaN) x then -1
          else compare_from 1 l (skipn i r)).
  rewrite (IH (S i) r), (IH 1%nat (skipn i r)), skipn_skipn, <- nth_skipn_0.
  reflexivity.
Qed.

Lemma compare_from_cons (x y : Num) (l r : list Num) :
  compare_from 0 (x :: l) (y :: r)
  = if Num_gt x y then 1 else if Num_gt y x then -1 else compare_from 0 l r.
Proof. cbn [compare_from nth]. now rewrite (compare_from_skipn 1 l (y :: r)). Qed.

Lemma compare_from_nil_r (l : list Num) : compare_from 0 l [] = 0.
Proof.
  assert (G : forall i, compare_from i l [] = 0).
  { induction l as [|x l IH]; intros i; [reflexivity|].
    cbn [compare_from]. destruct i; simpl; destruct x; simpl; apply IH. }
  apply G.
Qed.

Lemma Num_gt_asym (x y : Num) : Num_gt x y = true -> Num_gt y x = false.
Proof. destruct x, y; simpl; try discriminate; try reflexivity. lia. Qed.

Lemma compare_from_range (l r : list Num) :
  compare_from 0 l r = -1 \/ compare_from 0 l r = 0 \/ compare_from 0 l r = 1.
Proof.
  revert r. induction l as [|x l IH]; intros r; [now (right; left)|].
  destruct r as [|y r].
  - rewrite compare_from_nil_r. now (right; left).
  - rewrite compare_from_cons.
    destruct (Num_gt x y); [now (right; right)|].
    destruct (Num_gt y x); [now left | apply IH].
Qed.

Lemma compare_from_antisym (l r : list Num) :
  compare_from 0 r l = - compare_from 0 l r.
Proof.
  revert r. induction l as [|x l IH]; intros r.
  - now rewrite compare_from_nil_r.
  - destruct r as [|y r]; [now rewrite compare_from_nil_r|].
    rewrite !compare_from_cons.
    destruct (Num_gt x y) eqn:E1.
    + now rewrite (Num_gt_asym _ _ E1).
    + destruct (Num_gt y x); [reflexivity | apply IH].
Qed.

(** X1.  [Version.compare] is antisymmetric: swapping the two versions
    negates the result, so [a.lessThan(b)] is [b.greaterThan(a)] and
    [equalTo] is symmetric. *)
Theorem Version_compare_antisymmetric (a b : Version) :
  Version_compare b a = - Version_compare a b
  /\ Version_lessThan a b = Version_greaterThan b a
  /\ Version_greaterThan a b = Version_lessThan b a
  /\ Version_equalTo a b = Version_equalTo b a.
Proof.
  unfold Version_lessThan, Version_greaterThan, Version_equalTo, Version_compare.
  rewrite (compare_from_antisym (digits a) (digits b)).
  destruct (compare_from_range (digits a) (digits b)) as [E|[E|E]]; rewrite E;
    repeat split; reflexivity.
Qed.

(** X2.  Of [lessThan], [equalTo] and [greaterThan] exactly one holds of two
    versions, and [lessThanOrEqual] is [lessThan] or [equalTo]. *)
Theorem Version_comparisons_partition (a b : Version) :
  Version_lessThanOrEqual a b = Version_lessThan a b || Version_equalTo a b
  /\ (   (Version_lessThan a b = true /\ Version_equalTo a b = false
          /\ Version_greaterThan a b = false)
      \/ (Version_lessThan a b = false /\ Version_equalTo a b = true
          /\ Version_greaterThan a b = false)
      \/ (Version_lessThan a b = false /\ Version_equalTo a b = false
          /\ Version_greaterThan a b = true)).
Proof.
  unfold Version_lessThanOrEqual, Version_lessThan, Version_greaterThan,
    Version_equalTo, Version_compare.
  destruct (compare_from_range (digits a) (digits b)) as [E|[E|E]]; rewrite E.
  - split; [reflexivity|]. left. repeat split.
  - split; [reflexivity|]. right. left. repeat split.
  - split; [reflexivity|]. right. right. repeat split.
Qed.

Lemma compare_from_zero_eq (l r : list Num) :
  Forall is_integer l -> Forall is_integer r -> List.length l = List.length r ->
  compare_from 0 l r = 0 -> l = r.
Proof.
  intros Hl. revert r. induction Hl as [|x l Hx Hl IH]; intros r Hr Hlen H.
  - destruct r; [reflexivity | discriminate Hlen].
  - destruct r as [|y r]; [discriminate Hlen|].
    inversion Hr as [|? ? Hy Hr']; subst.
    rewrite compare_from_cons in H.
    destruct x as [|x]; [contradiction|]. destruct y as [|y]; [contradiction|].
    simpl in H.
    destruct (y <? x) eqn:E1; [discriminate|].
    destruct (x <? y) eqn:E2; [discriminate|].
    apply Z.ltb_ge in E1, E2. assert (x = y) by lia. subst y.
    f_equal. apply IH; [exact Hr' | now injection Hlen | exact H].
Qed.

Lemma compare_from_refl (l : list Num) : compare_from 0 l l = 0.
Proof.
  induction l as [|x l IH]; [reflexivity|].
  rewrite compare_from_cons.
  assert (E : Num_gt x x = false) by (destruct x; simpl; [reflexivity | lia]).
  now rewrite E.
Qed.

(** X3.  Two versions whose digits are all numbers are [equalTo] each other
    exactly when they have the same digits. *)
Theorem Version_equalTo_same_digits (a b : Version)
    (Ha : Forall is_integer (digits a)) (Hb : Forall is_integer (digits b))
    (Hlen : List.length (digits a) = List.length (digits b)) :
  Version_equalTo a b = true <-> digits a = digits b.
Proof.
  unfold Version_equalTo, Version_compare. split.
  - intros H. apply Z.eqb_eq in H. now apply compare_from_zero_eq.
  - intros ->. now rewrite compare_from_refl.
Qed.

Lemma Version_equalTo_same_digits_witness :
  Version_equalTo (mkVersion [Int 6; Int 3; Int 1]) (mkVersion [Int 6; Int 3; Int 1]) = true
  <-> [Int 6; Int 3; Int 1] = [Int 6; Int 3; Int 1].
Proof.
  apply (Version_equalTo_same_digits (mkVersion [Int 6; Int 3; Int 1])
           (mkVersion [Int 6; Int 3; Int 1])).
  - repeat constructor.
  - repeat constructor.
  - reflexivity.
Defined.

Lemma compare_from_all_NaN_l (l r : list Num) :
  Forall (fun d => d = NaN) l -> compare_from 0 l r = 0.
Proof.
  intros H. revert r. induction H as [|x l -> _ IH]; intros r; [reflexivity|].
  destruct r as [|y r]; [apply compare_from_nil_r|].
  rewrite compare_from_cons. simpl. destruct y; apply IH.
Qed.

(** X4.  A version whose components are all NaN, as [fromString] makes of
    a string without numbers, is [equalTo] every version, on either
    side of the comparison. *)
Theorem Version_without_numbers_equals_all (a b : Version)
    (Ha : Forall (fun d => d = NaN) (digits a)) :
  Version_equalTo a b = true /\ Version_equalTo b a = true
  /\ Version_lessThan a b = false /\ Version_greaterThan a b = false.
Proof.
  unfold Version_equalTo, Version_lessThan, Version_greaterThan, Version_compare.
  rewrite (compare_from_antisym (digits a) (digits b)).
  rewrite (compare_from_all_NaN_l _ (digits b) Ha). repeat split.
Qed.

Lemma Version_without_numbers_equals_all_witness :
  Version_fromString "x.y.z" = Ok (mkVersion [NaN; NaN; NaN])
  /\ Version_equalTo (mkVersion [NaN; NaN; NaN]) (mkVersion [Int 6; Int 0; Int 0]) = true
  /\ Version_equalTo (mkVersion [NaN; NaN; NaN]) (mkVersion [Int 7; Int 1; Int 2]) = true.
Proof.
  split; [reflexivity|]. split.
  - apply (Version_without_numbers_equals_all (mkVersion [NaN; NaN; NaN])
             (mkVersion [Int 6; Int 0; Int 0])).
    repeat constructor.
  - apply (Version_without_numbers_equals_all (mkVersion [NaN; NaN; NaN])
             (mkVersion [Int 7; Int 1; Int 2])).
    repeat constructor.
Defined.

Lemma compare_from_trans (l m r : list Num) :
  Forall is_integer l -> Forall is_integer m -> Forall is_integer r ->
  List.length l = List.length m -> List.length m = List.length r ->
  compare_from 0 l m = -1 -> compare_from 0 m r = -1 -> compare_from 0 l r = -1.
Proof.
  intros Hl. revert m r. induction Hl as [|x l Hx Hl IH]; intros m r Hm Hr L1 L2 H1 H2.
  - discriminate H1.
  - destruct m as [|y m]; [discriminate L1|]. destruct r as [|z r]; [discriminate L2|].
    inversion Hm as [|? ? Hy Hm']; subst. inversion Hr as [|? ? Hz Hr']; subst.
    destruct x as [|x]; [contradiction|]. destruct y as [|y]; [contradiction|].
    destruct z as [|z]; [contradiction|].
    rewrite compare_from_cons in *. simpl in *.
    destruct (y <? x) eqn:A1; [discriminate|].
    destruct (z <? y) eqn:B1; [discriminate|].
    apply Z.ltb_ge in A1, B1.
    destruct (x <? y) eqn:A2.
    + apply Z.ltb_lt in A2.
      assert (C1 : (z <? x) = false) by (apply Z.ltb_ge; lia).
      assert (C2 : (x <? z) = true) by (apply Z.ltb_lt; lia).
      now rewrite C1, C2.
    + apply Z.ltb_ge in A2. assert (x = y) by lia. subst y.
      destruct (x <? z) eqn:B2.
      * assert (C1 : (z <? x) = false) by (apply Z.ltb_ge; lia). now rewrite C1.
      * apply Z.ltb_ge in B2. assert (x = z) by lia. subst z.
        rewrite Z.ltb_irrefl.
        apply (IH m r); auto.
Qed.

(** X5.  On versions whose digits are all numbers, [lessThan] is transitive. *)
Theorem Version_lessThan_transitive (a b c : Version)
    (Ha : Forall is_integer (digits a)) (Hb : Forall is_integer (digits b))
    (Hc : Forall is_integer (digits c))
    (Lab : List.length (digits a) = List.length (digits b))
    (Lbc : List.length (digits b) = List.length (digits c))
    (Hab : Version_lessThan a b = true) (Hbc : Version_lessThan b c = true) :
  Version_lessThan a c = true.
Proof.
  unfold Version_lessThan, Version_compare in *.
  apply Z.eqb_eq in Hab, Hbc. apply Z.eqb_eq.
  now apply (compare_from_trans (digits a) (digits b) (digits c)).
Qed.

Lemma Version_lessThan_transitive_witness :
  Version_lessThan (mkVersion [Int 5; Int 9; Int 9]) (mkVersion [Int 6; Int 3; Int 1]) = true.
Proof.
  apply (Version_lessThan_transitive (mkVersion [Int 5; Int 9; Int 9])
           (mkVersion [Int 6; Int 0; Int 0]) (mkVersion [Int 6; Int 3; Int 1]));
    try reflexivity; repeat constructor.
Defined.



(** *** Printing and parsing a version *)

Lemma leading_digits_acc (u : Decimal.uint) (acc : positive) :
  leading_digits (NilEmpty.string_of_uint u) (Some (Z.pos acc))
  = Some (Z.pos (Pos.of_uint_acc u acc)).
Proof.
  revert acc. induction u as [|u IH|u IH|u IH|u IH|u IH|u IH|u IH|u IH|u IH|u IH];
    intros acc; [reflexivity|..];
    cbn [NilEmpty.string_of_uint leading_digits Pos.of_uint_acc];
    match goal with
    | |- context [digit_value ?c] =>
        let v := eval vm_compute in (digit_value c) in
        change (digit_value c) with v
    end;
    cbv beta iota; rewrite <- IH; f_equal; f_equal; lia.
Qed.

Lemma leading_digits_zero (u : Decimal.uint) :
  leading_digits (NilEmpty.string_of_uint u) (Some 0)
  = Some (Z.of_N (Pos.of_uint u)).
Proof.
  induction u as [|u IH|u IH|u IH|u IH|u IH|u IH|u IH|u IH|u IH|u IH];
    [reflexivity|..];
    cbn [NilEmpty.string_of_uint leading_digits Pos.of_uint];
    match goal with
    | |- context [digit_value ?c] =>
        let v := eval vm_compute in (digit_value c) in
        change (digit_value c) with v
    end;
    cbv beta iota; [exact IH|..];
    match goal with
    | |- leading_digits _ (Some (10 * 0 + ?k)) = _ =>
        change (10 * 0 + k) with k
    end;
    match goal with
    | |- leading_digits _ (Some (Z.pos ?k)) = _ => rewrite (leading_digits_acc u k)
    end; reflexivity.
Qed.

Lemma leading_digits_start (u : Decimal.uint) :
  u <> Decimal.Nil ->
  leading_digits (NilEmpty.string_of_uint u) None
  = leading_digits (NilEmpty.string_of_uint u) (Some 0).
Proof. destruct u; intros H; [contradiction|..]; reflexivity. Qed.

Lemma parseInt_digits (u : Decimal.uint) :
  u <> Decimal.Nil ->
  parseInt (NilEmpty.string_of_uint u) = Int (Z.of_N (Pos.of_uint u))
  /\ parseInt (String "-" (NilEmpty.string_of_uint u)) = Int (- Z.of_N (Pos.of_uint u)).
Proof.
  intros H.
  pose proof (leading_digits_zero u) as Hz.
  rewrite <- (leading_digits_start u H) in Hz.
  split.
  - destruct u; [contradiction|..]; unfold parseInt;
      cbn [NilEmpty.string_of_uint skip_spaces] in *;
      match goal with
      | |- context [is_space ?c] =>
          let v := eval vm_compute in (is_space c) in change (is_space c) with v
      end; cbv beta iota; rewrite Hz; reflexivity.
  - unfold parseInt. cbn [skip_spaces].
    change (is_space "-") with false. cbv beta iota. rewrite Hz. reflexivity.
Qed.

Lemma parseInt_Num_toString (d : Num) : parseInt (Num_toString d) = d.
Proof.
  destruct d as [|z]; [reflexivity|]. unfold Num_toString, Z_toString.
  destruct z as [|p|p]; [reflexivity| |]; cbn [Z.to_int NilZero.string_of_int].
  - pose proof (DecimalPos.Unsigned.to_uint_nonnil p) as Hn.
    assert (E : NilZero.string_of_uint (Pos.to_uint p)
                = NilEmpty.string_of_uint (Pos.to_uint p)).
    { destruct (Pos.to_uint p); [contradiction|..]; reflexivity. }
    rewrite E. rewrite (proj1 (parseInt_digits _ Hn)).
    now rewrite DecimalPos.Unsigned.of_to.
  - pose proof (DecimalPos.Unsigned.to_uint_nonnil p) as Hn.
    assert (E : NilZero.string_of_uint (Pos.to_uint p)
                = NilEmpty.string_of_uint (Pos.to_uint p)).
    { destruct (Pos.to_uint p); [contradiction|..]; reflexivity. }
    rewrite E. rewrite (proj2 (parseInt_digits _ Hn)).
    now rewrite DecimalPos.Unsigned.of_to.
Qed.

Lemma count_dots_digits (u : Decimal.uint) :
  count_dots (NilEmpty.string_of_uint u) = O.
Proof. induction u; simpl; auto. Qed.

Lemma count_dots_Num_toString (d : Num) : count_dots (Num_toString d) = O.
Proof.
  destruct d as [|z]; [reflexivity|]. unfold Num_toString, Z_toString.
  destruct z as [|p|p]; [reflexivity| |]; cbn [Z.to_int NilZero.string_of_int].
  - destruct (Pos.to_uint p) eqn:E; try reflexivity;
      rewrite <- E; unfold NilZero.string_of_uint; rewrite E; rewrite <- E;
      apply count_dots_digits.
  - cbn [count_dots]. change (Ascii.eqb "-" ".") with false. cbv iota.
    destruct (Pos.to_uint p) eqn:E; try reflexivity;
      rewrite <- E; unfold NilZero.string_of_uint; rewrite E; rewrite <- E;
      apply count_dots_digits.
Qed.

Lemma split_dots_no_dot (a b cur : string) :
  count_dots a = O -> split_dots (a ++ b) cur = split_dots b (cur ++ a).
Proof.
  revert cur. induction a as [|c a IH]; intros cur H.
  - simpl. now rewrite string_app_nil_r.
  - simpl in H. simpl. destruct (Ascii.eqb c "."); [discriminate|].
    rewrite (IH _ H). now rewrite string_app_assoc.
Qed.

(** X7.  A version of three digits that JavaScript holds exactly is read
    back by [Version.fromString] from what [toString] prints. *)
Theorem Version_toString_fromString (v : Version)
    (Hlen : List.length (digits v) = 3%nat)
    (Hsafe : Forall safe_digit (digits v)) :
  Version_fromString (Version_toString v) = Ok v.
Proof.
  destruct v as [ds]. cbn [digits] in *.
  destruct ds as [|a [|b [|c [|]]]]; try discriminate Hlen.
  unfold Version_fromString, Version_toString. cbn [digits map join fold_left].
  rewrite !string_app_assoc.
  rewrite (split_dots_no_dot _ _ _ (count_dots_Num_toString a)).
  cbn [append split_dots]. change (Ascii.eqb "." ".") with true. cbv iota.
  rewrite (split_dots_no_dot _ _ _ (count_dots_Num_toString b)).
  cbn [append split_dots]. change (Ascii.eqb "." ".") with true. cbv iota.
  rewrite <- (string_app_nil_r (Num_toString c)) at 1.
  rewrite (split_dots_no_dot _ _ _ (count_dots_Num_toString c)).
  cbn [append split_dots map]. rewrite !parseInt_Num_toString. reflexivity.
Qed.

Lemma Version_toString_fromString_witness :
  Version_toString (mkVersion [Int 6; Int 3; Int 1]) = "6.3.1"
  /\ Version_fromString "6.3.1" = Ok (mkVersion [Int 6; Int 3; Int 1]).
Proof.
  split; [reflexivity|].
  apply (Version_toString_fromString (mkVersion [Int 6; Int 3; Int 1])).
  - reflexivity.
  - repeat constructor; simpl; lia.
Defined.

(** ** The URL of a client *)

Lemma string_length_app (a b : string) :
  String.length (a ++ b) = (String.length a + String.length b)%nat.
Proof. induction a as [|c a IH]; simpl; [reflexivity | now rewrite IH]. Qed.

Lemma get_app_right (a b : string) (i : nat) :
  String.get (String.length a + i) (a ++ b) = String.get i b.
Proof. induction a as [|c a IH]; simpl; [reflexivity | exact IH]. Qed.

Lemma get_app_left (a b : string) (i : nat) :
  (i < String.length a)%nat -> String.get i (a ++ b) = String.get i a.
Proof.
  revert i. induction a as [|c a IH]; simpl; intros i H; [lia|].
  destruct i as [|i]; [reflexivity|]. apply IH. lia.
Qed.

Lemma get_slashes (n i : nat) : (i < n)%nat -> String.get i (slashes n) = Some "/"%char.
Proof.
  revert i. induction n as [|n IH]; intros i H; [lia|].
  destruct i as [|i]; [reflexivity|]. simpl. apply IH. lia.
Qed.

Lemma length_slashes (n : nat) : String.length (slashes n) = n.
Proof. induction n as [|n IH]; simpl; [reflexivity | now rewrite IH]. Qed.

Lemma slashes_snoc (n : nat) : slashes n ++ "/" = slashes (S n).
Proof. induction n as [|n IH]; simpl; [reflexivity | now rewrite IH]. Qed.

(** A string is its stripped form followed by slashes. *)
Lemma strip_slashes_split (s : string) :
  exists n, s = strip_slashes s ++ slashes n.
Proof.
  induction s as [|c s [n IH]]; [now exists O|].
  cbn [strip_slashes]. destruct (strip_slashes s) as [|d r] eqn:E.
  - destruct (Ascii.eqb c "/") eqn:Ec.
    + apply Ascii.eqb_eq in Ec. subst c. exists (S n). simpl in *. now rewrite IH at 1.
    + exists n. simpl in *. now rewrite IH at 1.
  - exists n. simpl in *. now rewrite IH at 1.
Qed.

Lemma get_last (s : string) : String.get (String.length s - 1) s = last_char s.
Proof.
  induction s as [|c s IH]; [reflexivity|].
  cbn [String.length last_char]. destruct s as [|d s]; [reflexivity|].
  rewrite <- IH. cbn [String.length].
  replace (S (S (String.length s)) - 1)%nat with (S (String.length s)) by lia.
  replace (S (String.length s) - 1)%nat with (String.length s) by lia.
  reflexivity.
Qed.

(** The stripped form does not end in a slash. *)
Lemma strip_slashes_last (s : string) :
  String.get (String.length (strip_slashes s) - 1) (strip_slashes s) <> Some "/"%char.
Proof.
  rewrite get_last.
  induction s as [|c s IH]; [discriminate|].
  cbn [strip_slashes]. destruct (strip_slashes s) as [|d r] eqn:E.
  - destruct (Ascii.eqb c "/") eqn:Ec; [discriminate|].
    simpl. intros H. injection H as ->. discriminate Ec.
  - exact IH.
Qed.

Lemma char_at_nat (s : string) (i : nat) : char_at s (Z.of_nat i) = String.get i s.
Proof. unfold char_at. destruct (Z.of_nat i <? 0) eqn:E; [apply Z.ltb_lt in E; lia|]. now rewrite Nat2Z.id. Qed.

(** The loop stops at the first slash that follows [core]. *)
Lemma skip_duplicates_stops (core : string) (m k fuel : nat) :
  String.get (String.length core - 1) core <> Some "/"%char ->
  (k < m)%nat -> (k <= fuel)%nat ->
  skip_duplicates fuel (core ++ slashes m) (Z.of_nat (String.length core + S k))
  = Some (Z.of_nat (String.length core + 1)).
Proof.
  intros Hcore. revert fuel. induction k as [|k IH]; intros fuel Hk Hfuel.
  - assert (E : same_char
                  (char_at (core ++ slashes m) (Z.of_nat (String.length core + 1) - 1))
                  (char_at (core ++ slashes m) (Z.of_nat (String.length core + 1) - 2))
                = false).
    { replace (Z.of_nat (String.length core + 1) - 1)
        with (Z.of_nat (String.length core + 0)) by lia.
      rewrite char_at_nat, get_app_right, (get_slashes m 0 Hk).
      destruct core as [|c core'] eqn:Ec.
      - reflexivity.
      - rewrite <- Ec in *.
        replace (Z.of_nat (String.length core + 1) - 2)
          with (Z.of_nat (String.length core - 1)).
        2:{ subst core. cbn [String.length]. lia. }
        rewrite char_at_nat, get_app_left.
        2:{ subst core. cbn [String.length]. lia. }
        destruct (String.get (String.length core - 1) core) as [x|]; [|reflexivity].
        cbn [same_char]. destruct (Ascii.eqb "/" x) eqn:Ex; [|reflexivity].
        apply Ascii.eqb_eq in Ex. subst x. now contradiction Hcore. }
    destruct fuel; cbn [skip_duplicates]; rewrite E; reflexivity.
  - destruct fuel as [|fuel]; [lia|].
    cbn [skip_duplicates].
    assert (E : same_char
                  (char_at (core ++ slashes m) (Z.of_nat (String.length core + S (S k)) - 1))
                  (char_at (core ++ slashes m) (Z.of_nat (String.length core + S (S k)) - 2))
                = true).
    { replace (Z.of_nat (String.length core + S (S k)) - 1)
        with (Z.of_nat (String.length core + S k)) by lia.
      replace (Z.of_nat (String.length core + S (S k)) - 2)
        with (Z.of_nat (String.length core + k)) by lia.
      rewrite !char_at_nat, !get_app_right.
      rewrite (get_slashes m (S k)) by lia. rewrite (get_slashes m k) by lia.
      reflexivity. }
    rewrite E.
    replace (Z.of_nat (String.length core + S (S k)) - 1)
      with (Z.of_nat (String.length core + S k)) by lia.
    apply IH; lia.
Qed.

Lemma substring_prefix (a b : string) :
  substring 0 (String.length a) (a ++ b) = a.
Proof.
  induction a as [|c a IH]; simpl.
  - destruct b; reflexivity.
  - now rewrite IH.
Qed.

(** The constructor of [Client] on a URL that is not blank. *)
Lemma Client_url_nonblank (url : string) :
  trim url <> EmptyString ->
  Client_url url = Some (Ok (strip_slashes (trim url) ++ "/")).
Proof.
  intros Hnb. unfold Client_url. set (t := trim url) in *.
  destruct t as [|c t'] eqn:Et; [now destruct Hnb|]. rewrite <- Et.
  assert (Hlen : Nat.eqb (String.length t) 0 = false) by (rewrite Et; reflexivity).
  rewrite Hlen.
  destruct (strip_slashes_split t) as [n Hn].
  set (core := strip_slashes t) in *.
  assert (Hu : t ++ "/" = core ++ slashes (S n)).
  { rewrite Hn at 1. rewrite string_app_assoc. now rewrite slashes_snoc. }
  rewrite Hu.
  assert (Hl : String.length (core ++ slashes (S n)) = (String.length core + S n)%nat).
  { now rewrite string_length_app, length_slashes. }
  rewrite Hl.
  rewrite (skip_duplicates_stops core (S n) n (String.length core + S n)
             (strip_slashes_last t)) by lia.
  rewrite Nat2Z.id. f_equal. f_equal.
  change (slashes (S n)) with ("/" ++ slashes n).
  rewrite <- string_app_assoc.
  replace (String.length core + 1)%nat with (String.length (core ++ "/")).
  - apply substring_prefix.
  - rewrite string_length_app. reflexivity.
Qed.

(** The constructor of [Client] on a blank URL. *)
Lemma Client_url_blank (url : string) :
  trim url = EmptyString ->
  Client_url url = Some (Throw (Error "Expected non-empty URL!")).
Proof. intros Hb. unfold Client_url. now rewrite Hb. Qed.

(** What an accepted URL has become. *)
Lemma Client_url_accepted (url result : string) :
  Client_url url = Some (Ok result) ->
  trim url <> EmptyString /\ result = strip_slashes (trim url) ++ "/".
Proof.
  intros H. destruct (string_dec (trim url) EmptyString) as [Hb | Hnb].
  - rewrite (Client_url_blank _ Hb) in H. discriminate H.
  - rewrite (Client_url_nonblank _ Hnb) in H. injection H as <-. now split.
Qed.

(** X8.  What the constructor of [Client] makes of its URL: a URL that is
    blank is refused; of any other, the white space around it and the
    slashes at its end are removed and one slash is put at the end.
    The constructor returns on every input. *)
Theorem Client_url_is_trimmed_with_one_slash (url : string) :
  Client_url url
  = Some (if String.eqb (trim url) EmptyString
          then Throw (Error "Expected non-empty URL!")
          else Ok (strip_slashes (trim url) ++ "/")).
Proof.
  destruct (String.eqb (trim url) EmptyString) eqn:E.
  - apply String.eqb_eq in E. now apply Client_url_blank.
  - apply String.eqb_neq in E. now apply Client_url_nonblank.
Qed.

Lemma substring_suffix (a b : string) :
  substring (String.length a) (String.length b) (a ++ b) = b.
Proof.
  induction a as [|c a IH]; simpl; [|exact IH].
  induction b as [|d b IHb]; simpl; [reflexivity | now rewrite IHb].
Qed.

Lemma endsWith_app (a b : string) : endsWith (a ++ b) b = true.
Proof.
  unfold endsWith. rewrite string_length_app.
  replace (String.length a + String.length b - String.length b)%nat
    with (String.length a) by lia.
  rewrite substring_suffix, String.eqb_refl.
  apply andb_true_iff. split; [apply Nat.leb_le; lia | reflexivity].
Qed.

Lemma endsWith_two_slashes (core : string) :
  String.get (String.length core - 1) core <> Some "/"%char ->
  endsWith (core ++ "/") "//" = false.
Proof.
  intros H. unfold endsWith. rewrite string_length_app. cbn [String.length].
  destruct core as [|c core'] eqn:Ec; [reflexivity|]. rewrite <- Ec in *.
  assert (Hl : (1 <= String.length core)%nat) by (subst core; cbn [String.length]; lia).
  replace (2 <=? String.length core + 1)%nat with true
    by (symmetry; apply Nat.leb_le; lia).
  cbn [andb]. apply String.eqb_neq. intros E.
  apply H.
  assert (G : String.get 0 (substring (String.length core + 1 - 2) 2 (core ++ "/"))
              = String.get (String.length core - 1) core).
  { rewrite <- (get_app_left core "/") by lia.
    replace (String.length core + 1 - 2)%nat with (String.length core - 1)%nat by lia.
    generalize (core ++ "/"). generalize (String.length core - 1)%nat.
    clear. induction n as [|n IH]; intros s.
    - destruct s as [|a [|b s]]; reflexivity.
    - destruct s as [|a s]; [reflexivity|]. simpl. apply IH. }
  rewrite <- G, E. reflexivity.
Qed.

(** X9.  The URL that a [Client] has accepted ends in exactly one slash,
    and the [WebClient] built on it keeps it as it is. *)
Theorem Client_url_ends_in_one_slash (url result : string)
    (Haccepted : Client_url url = Some (Ok result)) :
  endsWith result "/" = true
  /\ endsWith result "//" = false
  /\ WebClient_url result = result.
Proof.
  destruct (Client_url_accepted _ _ Haccepted) as [_ ->].
  assert (E : endsWith (strip_slashes (trim url) ++ "/") "/" = true)
    by apply endsWith_app.
  split; [exact E|]. split.
  - apply endsWith_two_slashes. apply strip_slashes_last.
  - unfold WebClient_url. now rewrite E.
Qed.

Lemma Client_url_ends_in_one_slash_witness :
  Client_url "  https://cs.example///  " = Some (Ok "https://cs.example/")
  /\ endsWith "https://cs.example/" "/" = true
  /\ endsWith "https://cs.example/" "//" = false
  /\ WebClient_url "https://cs.example/" = "https://cs.example/".
Proof.
  split; [vm_compute; reflexivity|].
  apply (Client_url_ends_in_one_slash "  https://cs.example///  " "https://cs.example/").
  vm_compute. reflexivity.
Defined.

(** *** Normalising a URL twice *)

Lemma after_prefix_app (p s r : string) : after_prefix p s = Some r -> s = p ++ r.
Proof.
  revert s. induction p as [|a p IH]; intros s H.
  - simpl in H. now injection H as ->.
  - destruct s as [|b s]; [discriminate H|]. simpl in H.
    destruct (Ascii.eqb a b) eqn:E; [|discriminate H].
    apply Ascii.eqb_eq in E. subst b. simpl. f_equal. now apply IH.
Qed.

Lemma after_prefix_extend (p s r t : string) :
  after_prefix p s = Some r -> after_prefix p (s ++ t) = Some (r ++ t).
Proof.
  revert s. induction p as [|a p IH]; intros s H.
  - simpl in *. now injection H as ->.
  - destruct s as [|b s]; [discriminate H|]. simpl in *.
    destruct (Ascii.eqb a b); [now apply IH | discriminate H].
Qed.

Lemma after_prefix_before_slash (p a b r : string) :
  has_slash p = false -> after_prefix p (a ++ String "/" b) = Some r ->
  exists r', after_prefix p a = Some r'.
Proof.
  revert a. induction p as [|c p IH]; intros a Hp H.
  - now exists a.
  - simpl in Hp. apply orb_false_iff in Hp. destruct Hp as [Hc Hp].
    destruct a as [|d a].
    + simpl in H. rewrite Hc in H. discriminate H.
    + simpl in *. destruct (Ascii.eqb c d); [now apply (IH a) | discriminate H].
Qed.

Lemma drop_first_None (ws : list string) (s : string) :
  drop_first ws s = None <-> Forall (fun w => after_prefix w s = None) ws.
Proof.
  induction ws as [|w ws IH]; simpl.
  - split; [constructor | reflexivity].
  - destruct (after_prefix w s) eqn:E.
    + split; [discriminate|]. intros H. inversion H; subst. congruence.
    + rewrite IH. split; [now constructor | intros H; now inversion H].
Qed.

Lemma drop_first_Some (ws : list string) (s r : string) :
  drop_first ws s = Some r -> exists w, In w ws /\ after_prefix w s = Some r.
Proof.
  induction ws as [|w ws IH]; simpl; [discriminate|].
  destruct (after_prefix w s) eqn:E.
  - intros H. injection H as ->. exists w. now split; [left|].
  - intros H. destruct (IH H) as (w' & Hin & Hw). exists w'. now split; [right|].
Qed.

Lemma white_space_not_empty : Forall (fun w => (0 < String.length w)%nat) white_space.
Proof. repeat constructor. Qed.

Lemma white_space_no_slash : Forall (fun w => has_slash w = false) white_space.
Proof. repeat constructor. Qed.

Lemma drop_white_shorter (s r : string) :
  drop_white s = Some r -> (String.length r < String.length s)%nat.
Proof.
  intros H. destruct (drop_first_Some white_space s r H) as (w & Hin & Hw).
  pose proof white_space_not_empty as Hne. rewrite Forall_forall in Hne.
  specialize (Hne w Hin). apply after_prefix_app in Hw. subst s.
  rewrite string_length_app. lia.
Qed.

Lemma drop_whites_done (n : nat) (s : string) :
  (String.length s <= n)%nat -> drop_white (drop_whites n s) = None.
Proof.
  revert s. induction n as [|n IH]; intros s H.
  - destruct s; [reflexivity | simpl in H; lia].
  - cbn [drop_whites]. destruct (drop_white s) as [r|] eqn:E; [|exact E].
    apply IH. apply drop_white_shorter in E. lia.
Qed.

Lemma drop_whites_fixed (n : nat) (s : string) :
  drop_white s = None -> drop_whites n s = s.
Proof. intros H. destruct n; cbn [drop_whites]; [reflexivity | now rewrite H]. Qed.

Lemma reverse_app (a b : string) : reverse (a ++ b) = reverse b ++ reverse a.
Proof.
  unfold reverse.
  assert (L : forall x y, list_ascii_of_string (x ++ y)
                          = (list_ascii_of_string x ++ list_ascii_of_string y)%list).
  { induction x as [|c x IH]; intros y; simpl; [reflexivity | now rewrite IH]. }
  assert (S : forall x y, string_of_list_ascii (x ++ y)%list
                          = string_of_list_ascii x ++ string_of_list_ascii y).
  { induction x as [|c x IH]; intros y; simpl; [reflexivity | now rewrite IH]. }
  now rewrite L, rev_app_distr, S.
Qed.

Lemma reverse_involutive (s : string) : reverse (reverse s) = s.
Proof.
  unfold reverse. rewrite list_ascii_of_string_of_list_ascii, rev_involutive.
  apply string_of_list_ascii_of_string.
Qed.

(** What [trimEnd] returns is a prefix of its argument. *)
Lemma drop_whites_end_prefix (n : nat) (s : string) :
  exists t, s = drop_whites_end n s ++ t.
Proof.
  revert s. induction n as [|n IH]; intros s; cbn [drop_whites_end].
  - exists EmptyString. now rewrite string_app_nil_r.
  - destruct (drop_white_end s) as [r|] eqn:E.
    + destruct (IH r) as [t Ht].
      unfold drop_white_end in E.
      assert (G : exists w, s = r ++ w).
      { revert E. generalize white_space. induction l as [|w ws IHw]; simpl; [discriminate|].
        destruct (after_prefix (reverse w) (reverse s)) as [q|] eqn:Eq.
        - intros H. injection H as <-. exists w.
          apply after_prefix_app in Eq.
          rewrite <- (reverse_involutive s), Eq, reverse_app. now rewrite reverse_involutive.
        - exact IHw. }
      destruct G as [w ->]. exists (t ++ w).
      rewrite <- string_app_assoc. now rewrite <- Ht.
    + exists EmptyString. now rewrite string_app_nil_r.
Qed.

(** A trimmed string does not start with white space. *)
Lemma trim_no_white_start (url : string) : drop_white (trim url) = None.
Proof.
  unfold trim, trimEnd.
  pose proof (drop_whites_done (String.length url) url (Nat.le_refl _)) as H.
  fold (trimStart url) in H. set (x := trimStart url) in *.
  destruct (drop_whites_end_prefix (String.length x) x) as [t Ht].
  set (y := drop_whites_end (String.length x) x) in *.
  apply drop_first_None. apply Forall_forall. intros w Hin.
  destruct (after_prefix w y) as [r|] eqn:E; [|reflexivity].
  apply (after_prefix_extend _ _ _ t) in E. rewrite <- Ht in E.
  change (drop_white x) with (drop_first white_space x) in H.
  rewrite drop_first_None, Forall_forall in H. specialize (H w Hin). congruence.
Qed.

Lemma strip_slashes_slashes (a : string) (n : nat) :
  strip_slashes (a ++ slashes n) = strip_slashes a.
Proof.
  induction a as [|c a IH].
  - induction n as [|n IHn]; [reflexivity|].
    simpl in *. now rewrite IHn.
  - cbn [append strip_slashes]. now rewrite IH.
Qed.

Lemma strip_slashes_idempotent (s : string) :
  strip_slashes (strip_slashes s) = strip_slashes s.
Proof.
  destruct (strip_slashes_split s) as [n Hn].
  rewrite Hn at 2. now rewrite strip_slashes_slashes.
Qed.

(** X10.  The constructor of [Client] accepts the URL it has produced and
    leaves it as it is. *)
Theorem Client_url_idempotent (url result : string)
    (Haccepted : Client_url url = Some (Ok result)) :
  Client_url result = Some (Ok result).
Proof.
  destruct (Client_url_accepted _ _ Haccepted) as [_ ->].
  set (core := strip_slashes (trim url)).
  assert (Hstart : drop_white (core ++ "/") = None).
  { apply drop_first_None. apply Forall_forall. intros w Hin.
    destruct (after_prefix w (core ++ "/")) as [r|] eqn:E; [|reflexivity].
    pose proof white_space_no_slash as Hns. rewrite Forall_forall in Hns.
    destruct (after_prefix_before_slash _ _ _ _ (Hns w Hin) E) as [r' Hr'].
    destruct (strip_slashes_split (trim url)) as [n Hn]. fold core in Hn.
    apply (after_prefix_extend _ _ _ (slashes n)) in Hr'. rewrite <- Hn in Hr'.
    pose proof (trim_no_white_start url) as Ht.
    change (drop_white (trim url)) with (drop_first white_space (trim url)) in Ht.
    rewrite drop_first_None, Forall_forall in Ht. specialize (Ht w Hin). congruence. }
  assert (Hend : drop_white_end (core ++ "/") = None).
  { unfold drop_white_end. rewrite reverse_app.
    change (reverse "/") with "/". cbn [append]. reflexivity. }
  assert (Htrim : trim (core ++ "/") = core ++ "/").
  { unfold trim, trimStart. rewrite (drop_whites_fixed _ _ Hstart).
    unfold trimEnd. destruct (String.length (core ++ "/")); cbn [drop_whites_end];
      [reflexivity | now rewrite Hend]. }
  assert (Hne : trim (core ++ "/") <> EmptyString).
  { rewrite Htrim. destruct core; discriminate. }
  rewrite (Client_url_nonblank _ Hne), Htrim.
  change (core ++ "/") with (core ++ slashes 1) at 1.
  rewrite strip_slashes_slashes. unfold core. now rewrite strip_slashes_idempotent.
Qed.

Lemma Client_url_idempotent_witness :
  Client_url " cs.example// " = Some (Ok "cs.example/")
  /\ Client_url "cs.example/" = Some (Ok "cs.example/").
Proof.
  split; [vm_compute; reflexivity|].
  apply (Client_url_idempotent " cs.example// " "cs.example/").
  vm_compute. reflexivity.
Defined.

(** ** The HTTP client: how a response is classified *)

Section Responses.
Context {cod : Codec}.

(** X11.  A response with status 408, 502 or 504, and a response with
    another status than 204 that has no body, reject both [postUrl] and
    [getUrl] with a [TimeoutError], whatever else the response holds. *)
Theorem timeout_is_rejected (r : HttpResponse) (body : Val)
    (Htimeout : timeout_status (statusCode r) = true
                \/ (statusCode r <> 204 /\ truthy body = false)) :
  postUrl_callback None (Some r) body = Rejected timed_out
  /\ getUrl_callback None (Some r) body = Rejected timed_out.
Proof.
  assert (E : checkForTimeout (Some r) body = Ok (Some timed_out)).
  { unfold checkForTimeout. fold (timeout_status (statusCode r)).
    destruct (timeout_status (statusCode r)) eqn:Et; [reflexivity|].
    destruct Htimeout as [H|[H1 H2]]; [discriminate H|].
    apply Z.eqb_neq in H1. now rewrite H1, H2. }
  unfold postUrl_callback, getUrl_callback, check_response. now rewrite E.
Qed.

Lemma toLowerCase_app (a b : string) :
  toLowerCase (a ++ b) = toLowerCase a ++ toLowerCase b.
Proof. induction a as [|c a IH]; simpl; [reflexivity | now rewrite IH]. Qed.

Lemma substring_middle (a m b : string) :
  substring (String.length a) (String.length m) (a ++ m ++ b) = m.
Proof. induction a as [|c a IH]; simpl; [apply substring_prefix | exact IH]. Qed.

Lemma includes_middle (a m b : string) :
  m <> EmptyString -> includes (a ++ m ++ b) m = true.
Proof.
  intros Hm. unfold includes.
  destruct (index 0 m (a ++ m ++ b)) eqn:E; [reflexivity|].
  exfalso.
  apply (index_correct3 0 (String.length a) m (a ++ m ++ b) E Hm); [lia|].
  apply substring_middle.
Qed.

(** X12.  An error message that holds "invalid session" or "expired session"
    at any place and in any letter case rejects [postUrl], and [getUrl]
    on the text of such a body, with a [SessionExpiredError], unless
    the status is one of a timeout. *)
Theorem session_expiry_is_recognised (response : option HttpResponse)
    (o : list (PKey * Val)) (before phrase after : string)
    (Hphrase : toLowerCase phrase = "invalid session"
               \/ toLowerCase phrase = "expired session")
    (Hmessage : lookup_key (Name "error_message") o = VStr (before ++ phrase ++ after))
    (Hstatus : no_timeout_status response) :
  postUrl_callback None response (VObj o) = Rejected session_expired
  /\ (forall text : string,
         text <> EmptyString -> JSON_parse text = Ok (VObj o) ->
         getUrl_callback None response (VStr text) = Rejected session_expired).
Proof.
  set (m := before ++ phrase ++ after) in *.
  assert (Hlow : (includes (toLowerCase m) "invalid session"
                  || includes (toLowerCase m) "expired session") = true).
  { unfold m. rewrite !toLowerCase_app. apply orb_true_iff.
    destruct Hphrase as [-> | ->]; [left | right];
      apply includes_middle; discriminate. }
  assert (Hne : truthy (VStr m) = true).
  { destruct m as [|c m'] eqn:Em; [|reflexivity].
    vm_compute in Hlow. discriminate Hlow. }
  assert (Hnot : is_str (VStr m) "Request timeout" = false).
  { simpl. apply String.eqb_neq. intros Em. rewrite Em in Hlow.
    vm_compute in Hlow. discriminate Hlow. }
  assert (T : forall body, parse_if_string body = Ok (VObj o) ->
                (forall r, response = Some r ->
                   (negb (statusCode r =? 204) && negb (truthy body)) = false) ->
                checkForTimeout response body = Ok None).
  { intros body Hb H204. unfold checkForTimeout. destruct response as [r|]; [|reflexivity].
    simpl in Hstatus. fold (timeout_status (statusCode r)). rewrite Hstatus.
    rewrite (H204 r eq_refl), Hb. cbn [rbind truthy prop]. rewrite Hmessage, Hne, Hnot.
    reflexivity. }
  assert (S : forall body, truthy body = true -> parse_if_string body = Ok (VObj o) ->
                checkForSessionExpiry response body = Ok (Some session_expired)).
  { intros body Ht Hb. unfold checkForSessionExpiry. rewrite Ht, Hb.
    cbn [negb rbind prop]. rewrite Hmessage, Hne. cbn [negb rbind]. now rewrite Hlow. }
  split.
  - unfold postUrl_callback, check_response.
    rewrite (T (VObj o) eq_refl), (S (VObj o) eq_refl eq_refl); [reflexivity|].
    intros r _. simpl. now rewrite andb_false_r.
  - intros text Hne' Hparse.
    assert (Ht : truthy (VStr text) = true).
    { simpl. apply negb_true_iff. now apply String.eqb_neq. }
    unfold getUrl_callback, check_response.
    rewrite (T (VStr text) Hparse), (S (VStr text) Ht Hparse); [reflexivity|].
    intros r _. rewrite Ht. now rewrite andb_false_r.
Qed.


(** X14.  A body that is a text other than JSON does not reject [getUrl]
    with "Invalid response": [checkForTimeout] parses the text outside
    the [try] of the callback, so the exception of the parser leaves
    the callback and the promise is neither resolved nor rejected. *)
Theorem getUrl_malformed_text_is_raised (response : option HttpResponse)
    (text : string) (e : Err)
    (Hmalformed : JSON_parse text = Throw e)
    (Hnonempty : text <> EmptyString)
    (Hstatus : no_timeout_status response) :
  getUrl_callback None response (VStr text) = Raised e.
Proof.
  assert (Ht : truthy (VStr text) = true).
  { simpl. apply negb_true_iff. now apply String.eqb_neq. }
  unfold getUrl_callback, check_response.
  destruct response as [r|].
  - simpl in Hstatus. unfold checkForTimeout. fold (timeout_status (statusCode r)).
    rewrite Hstatus, Ht. rewrite andb_false_r. cbn [parse_if_string].
    now rewrite Hmalformed.
  - cbn [checkForTimeout]. unfold checkForSessionExpiry. rewrite Ht.
    cbn [negb parse_if_string]. now rewrite Hmalformed.
Qed.

End Responses.

Lemma timeout_is_rejected_witness :
  @postUrl_callback Reference.toy_codec None (Some (mkHttpResponse 502))
    (VObj [(Name "error_message", VStr "Expired session")])
  = Rejected timed_out
  /\ @getUrl_callback Reference.toy_codec None (Some (mkHttpResponse 502))
       (VObj [(Name "error_message", VStr "Expired session")])
     = Rejected timed_out.
Proof.
  apply (@timeout_is_rejected Reference.toy_codec (mkHttpResponse 502)).
  left. reflexivity.
Defined.

(** ** Runs of the operations *)

Section Runs.
Context {net : Network} {cry : Crypto} {cod : Codec}.

Lemma bind_inv {A B} (m : M A) (k : A -> M B) (st st' : St) (b : B) :
  bind m k st = Some (Ok b, st') ->
  exists a st1, m st = Some (Ok a, st1) /\ k a st1 = Some (Ok b, st').
Proof.
  unfold bind. destruct (m st) as [[[a|e] st1]|]; intros H; try discriminate H.
  now exists a, st1.
Qed.

Lemma bind_lift {A B} (x : Res A) (k : A -> M B) (st : St) :
  bind (lift x) k st
  = match x with
    | Ok a => k a st
    | Throw e => Some (Throw e, st)
    end.
Proof. unfold bind, lift. now destruct x. Qed.

Lemma ret_inv {A} (a b : A) (st st' : St) :
  ret a st = Some (Ok b, st') -> a = b /\ st = st'.
Proof. unfold ret. intros H. injection H as -> ->. now split. Qed.

(** X15.  [PushAuth.getState] and [WaveAuth.getState] never return
    [PendingSPSolution]: a push authentication reports it as
    [Initialised], a wave authentication as [Scanned]. *)
Theorem getState_hides_pending_sp_solution (fuel : nat) (st st' : St)
    (state : AuthenticationState) :
  (forall p : PushAuth,
      PushAuth_getState fuel p st = Some (Ok state, st') ->
      state <> PendingSPSolution
      /\ (Authentication_getState fuel (push_service p) (push_statusUrl p) (push_logId p) st
          = Some (Ok PendingSPSolution, st') -> state = Initialised))
  /\ (forall w : WaveAuth,
      WaveAuth_getState fuel w st = Some (Ok state, st') ->
      state <> PendingSPSolution
      /\ (Authentication_getState fuel (wave_service w) (wave_statusUrl w) (wave_logId w) st
          = Some (Ok PendingSPSolution, st') -> state = Scanned)).
Proof.
  split.
  - intros p H. unfold PushAuth_getState in H.
    apply bind_inv in H. destruct H as (a & st1 & Ha & H).
    apply ret_inv in H. destruct H as [<- <-]. split.
    + destruct a; discriminate.
    + intros G. rewrite Ha in G. now injection G as ->.
  - intros w H. unfold WaveAuth_getState in H.
    apply bind_inv in H. destruct H as (a & st1 & Ha & H).
    apply ret_inv in H. destruct H as [<- <-]. split.
    + destruct a; discriminate.
    + intros G. rewrite Ha in G. now injection G as ->.
Qed.

(** X16.  Once [Client.getPayloadSize] has returned a size, it returns the
    same size again without asking the server. *)
Theorem getPayloadSize_is_cached (url : string) (st st' : St) (size : Z)
    (Hfirst : getPayloadSize url st = Some (Ok size, st')) :
  payloadSize st' = Some size
  /\ getPayloadSize url st' = Some (Ok size, st').
Proof.
  assert (E : payloadSize st' = Some size).
  { unfold getPayloadSize in Hfirst. destruct (payloadSize st) as [z|] eqn:Ez.
    - injection Hfirst as <- <-. exact Ez.
    - apply bind_inv in Hfirst. destruct Hfirst as (a & st1 & _ & H).
      destruct (payloadSize st1) as [z|] eqn:Ez1; [|discriminate H].
      injection H as <- <-. exact Ez1. }
  split; [exact E|]. unfold getPayloadSize. now rewrite E.
Qed.

(** [Client.serverInformation] sends one request, whatever comes of it. *)
Lemma serverInformation_log (url : string) (st st' : St) (r : Res ServerInformation) :
  serverInformation url st = Some (r, st') ->
  log st' = (log st ++ [info_request url])%list.
Proof.
  unfold serverInformation, webCall, send, bind, lift, throw, ret, set_payloadSize.
  fold (info_request url).
  destruct (web (world st) (info_request url)) as [[response|e] w];
    [|intros H; injection H as _ <-; reflexivity].
  destruct (prop response "productType") as [pt|];
    [|intros H; injection H as _ <-; reflexivity].
  destruct (negb (is_str pt "CS")); [intros H; injection H as _ <-; reflexivity|].
  destruct (prop response "serverVersion") as [sv|];
    [|intros H; injection H as _ <-; reflexivity].
  destruct (as_string sv) as [svs|]; [|intros H; injection H as _ <-; reflexivity].
  assert (G : forall st2 : St,
             log st2 = (log st ++ [info_request url])%list ->
             match prop response "payloadSize" with
             | Ok ps =>
                 match payloadSize_or_default ps with
                 | Ok size =>
                     match prop response "buildVersion" with
                     | Ok bv =>
                         match prop response "appMinVersion" with
                         | Ok amv =>
                             Some (new_ServerInformation sv bv amv size,
                                   mkSt (sessionId st2) (Some size) (rng st2)
                                     (world st2) (log st2))
                         | Throw e => Some (Throw e, mkSt (sessionId st2) (Some size)
                                                      (rng st2) (world st2) (log st2))
                         end
                     | Throw e => Some (Throw e, mkSt (sessionId st2) (Some size)
                                                  (rng st2) (world st2) (log st2))
                     end
                 | Throw e => Some (Throw e, st2)
                 end
             | Throw e => Some (Throw e, st2)
             end = Some (r, st') ->
             log st' = (log st ++ [info_request url])%list).
  { intros st2 L G. destruct (prop response "payloadSize") as [ps|];
      [|injection G as _ <-; exact L].
    destruct (payloadSize_or_default ps) as [size|]; [|injection G as _ <-; exact L].
    destruct (prop response "buildVersion");
      [|injection G as _ <-; exact L].
    destruct (prop response "appMinVersion"); injection G as _ <-; exact L. }
  destruct (parseInt (hd EmptyString (split_dots svs EmptyString))) as [|major].
  - apply G. reflexivity.
  - destruct (major <? 6); [intros H; injection H as _ <-; reflexivity|].
    apply G. reflexivity.
Qed.

(** X17.  With [validateServerVersion] set, [Client.createService] and
    [Client.deserializeServiceAsync] on a server that reports a major
    version below 6 throw the error of [serverInformation]; the request
    for the server information is the only one sent, so no service is
    created, and no payload size is kept. *)
Theorem old_server_is_refused_first (url serviceName sv : string) (key : RSAKey)
    (data : list byte) (st : St) (response : Val) (w : World) (major : Z)
    (Hinfo : web (world st) (info_request url) = (Ok response, w))
    (Hproduct : prop response "productType" = Ok (VStr "CS"))
    (Hversion : prop response "serverVersion" = Ok (VStr sv))
    (Hmajor : parseInt (hd EmptyString (split_dots sv EmptyString)) = Int major)
    (Hold : major < 6) :
  let st' := snd (send (info_request url) st) in
  createService true url key serviceName st = Some (Throw unsupported_server, st')
  /\ deserializeServiceAsync true url data st = Some (Throw unsupported_server, st')
  /\ log st' = (log st ++ [info_request url])%list
  /\ payloadSize st' = payloadSize st.
Proof.
  intros st'.
  assert (E : serverInformation url st = Some (Throw unsupported_server, st')).
  { unfold serverInformation, webCall, bind, lift, throw. subst st'. unfold send.
    fold (info_request url). rewrite Hinfo. cbn [snd]. rewrite Hproduct.
    change (negb (is_str (VStr "CS") "CS")) with false. cbv iota.
    rewrite Hversion. cbn [as_string]. rewrite Hmajor.
    apply Z.ltb_lt in Hold. rewrite Hold. reflexivity. }
  split; [|split; [|split]].
  - unfold createService, validate_server. unfold bind at 1. unfold bind at 1.
    now rewrite E.
  - unfold deserializeServiceAsync, validate_server. unfold bind at 1. unfold bind at 1.
    now rewrite E.
  - exact (serverInformation_log _ _ _ _ E).
  - subst st'. unfold send. rewrite Hinfo. reflexivity.
Qed.

End Runs.

(** ** What an authentication and a device list vouch for *)

Section Vouching.
Context {net : Network} {cry : Crypto} {cod : Codec}.






End Vouching.

(** ** From enrolment to the list of devices *)

Section Enrolled.
Context {net : Network} {cry : Crypto} {cod : Codec}.

Lemma confirm_signatures_entries (s : Service) (username deviceId : string)
    (publicKeys : KeyMap) :
  confirm_signatures s username (VStr deviceId) publicKeys
  = Ok (signature_entries s username deviceId publicKeys []).
Proof.
  unfold confirm_signatures, signature_entries. generalize (@nil (PKey * Val)).
  induction publicKeys as [|lk rest IH]; intros acc; [reflexivity|].
  cbn [fold_left rbind as_string]. apply IH.
Qed.

Lemma signature_entries_Forall (s : Service) (username deviceId : string)
    (all publicKeys : KeyMap) (acc : list (PKey * Val)) :
  incl publicKeys all ->
  Forall (signature_of s username deviceId all) acc ->
  Forall (signature_of s username deviceId all)
    (signature_entries s username deviceId publicKeys acc).
Proof.
  revert acc. induction publicKeys as [|lk rest IH]; intros acc Hincl Hacc; [exact Hacc|].
  cbn [signature_entries fold_left]. apply IH.
  - intros x Hx. apply Hincl. now right.
  - apply obj_set_Forall; [|exact Hacc].
    exists lk. split; [apply Hincl; now left | now split].
Qed.

Lemma obj_set_not_nil (k : PKey) (v : Val) (o : list (PKey * Val)) : obj_set k v o <> [].
Proof.
  destruct o as [|[k' v'] r]; simpl; [discriminate|].
  destruct (PKey_eqb k' k); [discriminate|].
  destruct k, k'; try discriminate. destruct (n <? n0)%N; discriminate.
Qed.

Lemma signature_entries_not_nil (s : Service) (username deviceId : string)
    (publicKeys : KeyMap) (acc : list (PKey * Val)) :
  (publicKeys <> [] \/ acc <> []) ->
  signature_entries s username deviceId publicKeys acc <> [].
Proof.
  revert acc. induction publicKeys as [|lk rest IH]; intros acc H.
  - destruct H as [H|H]; [contradiction | exact H].
  - cbn [signature_entries fold_left]. apply IH. right. apply obj_set_not_nil.
Qed.

Lemma map_set_keys (k : Num) (v : RSAKey) (m : KeyMap) :
  map fst (map_set k v m) = map fst m
  \/ (~ In k (map fst m) /\ map fst (map_set k v m) = (map fst m ++ [k])%list).
Proof.
  induction m as [|[k' v'] r IH]; simpl.
  - right. split; [tauto | reflexivity].
  - destruct (Num_eqb k' k) eqn:E; simpl; [now left|].
    destruct IH as [IH|[Hn IH]]; [left; now rewrite IH|].
    right. split; [|now rewrite IH].
    intros [H|H]; [|contradiction]. subst k'.
    assert (Num_eqb k k = true) by now apply Num_eqb_eq. congruence.
Qed.

Lemma map_set_NoDup (k : Num) (v : RSAKey) (m : KeyMap) :
  NoDup (map fst m) -> NoDup (map fst (map_set k v m)).
Proof.
  intros H. destruct (map_set_keys k v m) as [E|[Hn E]]; rewrite E; [exact H|].
  apply NoDup_app; [exact H | repeat constructor; tauto |].
  intros x Hx [<-|[]]. contradiction.
Qed.

(** A map that [objectToPublicKeyMap] returns has one entry per level. *)
Lemma objectToPublicKeyMap_NoDup (v : Val) (keys : KeyMap) :
  objectToPublicKeyMap v = Ok keys -> NoDup (map fst keys).
Proof.
  unfold objectToPublicKeyMap.
  assert (G : forall (l : list (PKey * Val)) (acc : Res KeyMap),
             (forall m, acc = Ok m -> NoDup (map fst m)) ->
             fold_left
               (fun acc lv =>
                  (keys <-- acc ;;
                   publicKey <-- importKey_public_pem (snd lv) ;;
                   Ok (map_set (Number_of_key (fst lv)) publicKey keys))%res)
               l acc = Ok keys ->
             NoDup (map fst keys)).
  { induction l as [|lv l IH]; intros acc Hacc H; [now apply Hacc|].
    cbn [fold_left] in H. apply IH in H; [exact H|].
    intros m Hm. destruct acc as [m0|]; [|discriminate Hm]. cbn [rbind] in Hm.
    destruct (importKey_public_pem (snd lv)); [|discriminate Hm].
    cbn [rbind] in Hm. injection Hm as <-. apply map_set_NoDup. now apply Hacc. }
  apply G. intros m Hm. injection Hm as <-. constructor.
Qed.

Lemma map_get_In (keys : KeyMap) (l : Num) (k : RSAKey) :
  NoDup (map fst keys) -> In (l, k) keys -> map_get l keys = Some k.
Proof.
  induction keys as [|[l' k'] rest IH]; intros Hnd Hin; [contradiction|].
  simpl in Hnd. inversion Hnd as [|? ? Hnot Hrest]; subst.
  simpl. destruct Hin as [Hin|Hin].
  - injection Hin as -> ->. assert (E : Num_eqb l l = true) by now apply Num_eqb_eq.
    now rewrite E.
  - destruct (Num_eqb l' l) eqn:E; [|now apply IH].
    apply Num_eqb_eq in E. subst l'. exfalso. apply Hnot.
    apply in_map_iff. now exists (l, k).
Qed.

(** X20.  A device that the server lists with the keys it has presented at
    enrolment and with the signatures that [Enrolment.confirm] has made
    for them is returned by [getUserDevices], and [userEnrolled] is
    true; the key of the service is assumed to verify its own
    signatures. *)
Theorem enrolled_device_is_returned (fuel : nat) (s : Service)
    (username deviceId friendlyName : string) (data deviceJson pks : Val)
    (keys : KeyMap) (sigs : list (PKey * Val)) (st st' : St)
    (Hget : getUri fuel s ("sp/user-devices/" ++ username) st = Some (Ok data, st'))
    (Hdevices : prop data "devices" = Ok (VArr [deviceJson]))
    (Hid : prop deviceJson "deviceId" = Ok (VStr deviceId))
    (Hname : prop deviceJson "friendlyName" = Ok (VStr friendlyName))
    (Hpks : prop deviceJson "publicKeys" = Ok pks)
    (Hkeys : objectToPublicKeyMap pks = Ok keys)
    (Hsome : keys <> [])
    (Hconfirm : confirm_signatures s username (VStr deviceId) keys = Ok sigs)
    (Hsigs : prop deviceJson "signatures" = Ok (VObj sigs))
    (Hsign : Forall (signs_binding s username deviceId) keys) :
  getUserDevices fuel s username st
  = Some (Ok [mkDevice deviceId friendlyName keys], st')
  /\ userEnrolled fuel s username st = Some (Ok true, st').
Proof.
  rewrite confirm_signatures_entries in Hconfirm. injection Hconfirm as <-.
  set (sigs := signature_entries s username deviceId keys []) in *.
  assert (Hall : Forall (level_verifies s username deviceId keys) sigs).
  { pose proof (signature_entries_Forall s username deviceId keys keys []
                  (incl_refl _) (Forall_nil _)) as Hof.
    fold sigs in Hof. eapply Forall_impl; [|exact Hof].
    intros [key v] ([l k] & Hin & Hkey & Hv). cbn [fst snd] in *. subst key v.
    exists (to_hex (calculateSignature s username deviceId k l)), k.
    cbn [fst snd]. rewrite Number_of_key_of_Num. split; [reflexivity|]. split.
    - apply map_get_In; [now apply (objectToPublicKeyMap_NoDup pks) | exact Hin].
    - rewrite from_hex_to_hex. rewrite Forall_forall in Hsign.
      exact (Hsign (l, k) Hin). }
  assert (Hne : Nat.eqb (List.length sigs) 0 = false).
  { destruct sigs as [|x r] eqn:E; [|reflexivity].
    exfalso. apply (signature_entries_not_nil s username deviceId keys []); [now left|].
    exact E. }
  assert (E : getUserDevices fuel s username st
              = Some (Ok [mkDevice deviceId friendlyName keys], st')).
  { unfold getUserDevices. rewrite (bind_resolve _ _ _ _ _ Hget).
    rewrite bind_lift, Hdevices, bind_lift. cbn [as_array]. rewrite bind_lift.
    cbn [verifyDevices List.length Nat.eqb]. rewrite Hpks. cbn [rbind].
    rewrite Hkeys. cbn [rbind]. rewrite Hsigs. cbn [rbind own_props].
    rewrite (verifyLevels_all_verify _ _ _ _ _ _ _ Hid Hall). cbn [rbind snd fst].
    rewrite Hid. cbn [rbind as_string]. rewrite Hname. cbn [rbind as_string app].
    rewrite Hne. reflexivity. }
  split; [exact E|]. unfold userEnrolled. now rewrite (bind_resolve _ _ _ _ _ E).
Qed.

(** ** Entities are not read as one another *)

(** X21.  A serialized entity is refused by the deserializer of another
    kind of entity: for the count of its components, or for its
    header. *)
Theorem other_entities_are_refused (s : Service) (url : string) :
  (forall w : WaveAuth,
      codec_roundtrip (WaveAuth_fields w) ->
      deserializePushAuth s (WaveAuth_serialize w)
      = Throw (Error "Attempted to deserialize PushAuth, but incorrect number of components")
      /\ deserializeEnrolment s (WaveAuth_serialize w)
         = Throw (Error "Attempted to deserialize enrolment, but header not found")
      /\ deserializeService url (WaveAuth_serialize w)
         = Throw (Error "Attempted to deserialize service, but header not found"))
  /\ (forall p : PushAuth,
      codec_roundtrip (PushAuth_fields p) ->
      deserializeWaveAuth s (PushAuth_serialize p)
      = Throw (Error "Attempted to deserialize WaveAuth, but incorrect number of components")
      /\ Device_deserialize (PushAuth_serialize p)
         = Throw (Error "Attempted to deserialize device, but incorrect number of components"))
  /\ (forall e : Enrolment,
      codec_roundtrip (Enrolment_fields e) ->
      deserializeWaveAuth s (Enrolment_serialize e)
      = Throw (Error "Attempted to deserialize WaveAuth, but header not found")
      /\ deserializeService url (Enrolment_serialize e)
         = Throw (Error "Attempted to deserialize service, but header not found"))
  /\ (forall d : Device,
      codec_roundtrip (Device_fields d) ->
      deserializeService url (Device_serialize d)
      = Throw (Error "Attempted to deserialize service, but header not found")
      /\ deserializeEnrolment s (Device_serialize d)
         = Throw (Error "Attempted to deserialize enrolment, but incorrect number of components"))
  /\ (forall (x : Service) (sessionId : Val),
      codec_roundtrip (Service_fields x sessionId) ->
      Device_deserialize (Service_serialize x sessionId)
      = Throw (Error "Attempted to deserialize device, but incorrect number of components")
      /\ deserializePushAuth s (Service_serialize x sessionId)
         = Throw (Error "Attempted to deserialize PushAuth, but incorrect number of components")).
Proof.
  split; [|split; [|split; [|split]]].
  - intros w Hc.
    unfold deserializePushAuth, deserializeEnrolment, deserializeService, WaveAuth_serialize.
    fold (WaveAuth_fields w). rewrite Hc. repeat split; reflexivity.
  - intros p Hc.
    unfold deserializeWaveAuth, Device_deserialize, PushAuth_serialize.
    fold (PushAuth_fields p). rewrite Hc. repeat split; reflexivity.
  - intros e Hc.
    unfold deserializeWaveAuth, deserializeService, Enrolment_serialize.
    fold (Enrolment_fields e). rewrite Hc. repeat split; reflexivity.
  - intros d Hc.
    unfold deserializeService, deserializeEnrolment, Device_serialize.
    fold (Device_fields d). rewrite Hc. repeat split; reflexivity.
  - intros x sid Hc.
    unfold Device_deserialize, deserializePushAuth, Service_serialize.
    fold (Service_fields x sid). rewrite Hc. repeat split; reflexivity.
Qed.

End Enrolled.

(** ** Prefix loggers *)

(** X22.  Through a chain of prefix loggers a message arrives at the base
    logger with all the prefixes before it, each followed by a colon
    and a space: the prefix of the logger constructed on the base comes
    first, that of the logger called stands next to the message.  The
    level is kept; the meta data arrive wrapped in one array per logger
    of the chain. *)
Theorem prefixes_accumulate (prefixes : list string) (c : LogCall) :
  log_level (through_prefixes prefixes c) = log_level c
  /\ log_msg (through_prefixes prefixes c)
     = fold_right (fun p m => p ++ ": " ++ m) (log_msg c) prefixes
  /\ log_meta (through_prefixes prefixes c) = nested (List.length prefixes) (log_meta c).
Proof.
  induction prefixes as [|p inner (IH1 & IH2 & IH3)]; [repeat split|].
  cbn [through_prefixes PrefixLogger_forward log_level log_msg log_meta fold_right
       List.length nested].
  now rewrite IH1, IH2, IH3.
Qed.

(** ** Starting a push authentication; confirming an enrolment *)

Section Exchanges.
Context {net : Network} {cry : Crypto} {cod : Codec}.

(** An access helper whose first attempt goes through. *)
Lemma access_first_attempt (f : nat) (s : Service) (call : Val -> Request)
    (st st' : St) (v : Val) :
  send (call (session_arg st)) st = (Ok v, st') ->
  access (S f) s call st = Some (Ok v, st').
Proof. intros H. cbn [access]. rewrite attempts_step. now rewrite H. Qed.

(** X23.  [Service.PushAuth], when none of its requests meets an expired
    session: the 16 bytes that it draws are the challenge of the
    session it returns and go to the server in hexadecimal with the
    first request; the challenge of the app is fetched and answered
    with the signature of the service together with the same
    authentication challenge; these three requests are all that is
    sent, and the session has no verification URL yet. *)
Theorem pushAuth_exchange (f : nat) (s : Service) (username : string) (device : Device)
    (authenticationMessage brandingMessage notificationMessage : string)
    (authLevel : Z) (st st1 st2 st3 : St) (data challengeData ack appUrl : Val)
    (logId statusURL assertionUrl appChallenge : string) :
  let authChallenge := drawn 16 st in
  let st0 := after_drawing 16 st in
  let r1 := mkReq POST (uri_target s "sp/authentication")
              (pushAuth_request authChallenge authLevel authenticationMessage
                 brandingMessage notificationMessage username device)
              (session_arg st0) in
  let r2 := mkReq GET appUrl VUndef (session_arg st1) in
  let r3 := mkReq POST (VStr assertionUrl)
              (challenge_answer s (from_hex appChallenge) authChallenge authLevel)
              (session_arg st2) in
  send r1 st0 = (Ok data, st1) ->
  prop data "challengeExchangeURL" = Ok (VStr assertionUrl) ->
  prop data "appAuthenticationURL" = Ok appUrl ->
  prop data "logId" = Ok (VStr logId) ->
  prop data "statusURL" = Ok (VStr statusURL) ->
  send r2 st1 = (Ok challengeData, st2) ->
  prop challengeData "appChallenge" = Ok (VStr appChallenge) ->
  send r3 st2 = (Ok ack, st3) ->
  Service_PushAuth (S f) s username device authenticationMessage brandingMessage
    notificationMessage authLevel st
  = Some (Ok (mkPushAuth s logId authChallenge authLevel username device statusURL
                assertionUrl None), st3)
  /\ log st3 = (log st ++ [r1; r2; r3])%list
  /\ List.length authChallenge = 16%nat.
Proof.
  intros authChallenge st0 r1 r2 r3 H1 Hce Haa Hlog Hsu H2 Hac H3.
  split; [|split].
  - unfold Service_PushAuth. unfold bind at 1. unfold randomBytes.
    fold authChallenge. fold st0.
    unfold postUri. rewrite (bind_resolve _ _ _ _ _ (access_first_attempt _ _ _ _ _ _ H1)).
    rewrite bind_lift, Hce, bind_lift, Haa.
    unfold getUrl. rewrite (bind_resolve _ _ _ _ _ (access_first_attempt _ _ _ _ _ _ H2)).
    rewrite bind_lift, Hac, bind_lift. cbn [Buffer_from_hex].
    unfold postUrl. rewrite (bind_resolve _ _ _ _ _ (access_first_attempt _ _ _ _ _ _ H3)).
    rewrite bind_lift, Hlog, bind_lift. cbn [as_string].
    rewrite bind_lift, Hsu, bind_lift. cbn [as_string]. rewrite bind_lift. reflexivity.
  - rewrite (send_log _ _ _ _ H3), (send_log _ _ _ _ H2), (send_log _ _ _ _ H1).
    subst st0. cbn [after_drawing log]. now rewrite <- !app_assoc.
  - unfold authChallenge, drawn. now rewrite length_map, length_seq.
Qed.


(** X25.  [Enrolment.confirm] throws and sends nothing when the enrolment has
    no confirmation URL: on an enrolment as [Service.enrolUser] returns
    it, and on the fields that [validate] has read from a response
    without a confirmation URL. *)
Theorem confirm_needs_confirmation_url (fuel : nat) (success : bool)
    (payload : option PayloadRequest) :
  (forall (s : Service) (username : string) (st st' : St) (e : Enrolment),
      enrolUser fuel s username st = Some (Ok e, st') ->
      Enrolment_confirm fuel e (fields_of e) success payload st'
      = Some (Throw confirmation_url_missing, st'))
  /\ (forall (e : Enrolment) (st st' : St) (identicon : Val) (v : Validated) (data : Val),
      Enrolment_validate fuel e st = Some (Ok (identicon, v), st') ->
      getUrl fuel (enr_service e) (VStr (enr_validateUrl e)) st = Some (Ok data, st') ->
      prop data "confirmationURL" = Ok VUndef ->
      Enrolment_confirm fuel e v success payload st'
      = Some (Throw confirmation_url_missing, st')).
Proof.
  split.
  - intros s username st st' e Henrol.
    assert (E : enr_confirmationUrl e = EmptyString).
    { unfold enrolUser in Henrol.
      apply bind_inv in Henrol. destruct Henrol as (data & st1 & _ & H).
      repeat (rewrite bind_lift in H;
              match type of H with
              | match ?x with _ => _ end = _ => destruct x; [|discriminate H]
              end).
      apply ret_inv in H. destruct H as [<- _]. reflexivity. }
    unfold Enrolment_confirm, fields_of. cbn [val_confirmationUrl]. rewrite E. reflexivity.
  - intros e st st' identicon v data Hval Hget Hurl.
    assert (E : val_confirmationUrl v = VUndef).
    { unfold Enrolment_validate in Hval. rewrite (bind_resolve _ _ _ _ _ Hget) in Hval.
      rewrite bind_lift in Hval.
      destruct (prop data "failReason") as [failReason|]; [|discriminate Hval].
      destruct (truthy failReason).
      { rewrite bind_lift in Hval. destruct (as_string failReason); discriminate Hval. }
      rewrite bind_lift in Hval.
      destruct (prop data "publicKeys") as [pks|]; [|discriminate Hval].
      rewrite bind_lift in Hval.
      destruct (objectToPublicKeyMap pks) as [keys|]; [|discriminate Hval].
      rewrite bind_lift in Hval.
      destruct (prop data "deviceId") as [did|]; [|discriminate Hval].
      rewrite bind_lift, Hurl, bind_lift in Hval.
      destruct (prop data "identiconURL") as [icon|]; [|discriminate Hval].
      apply ret_inv in Hval. destruct Hval as [Hv _]. now injection Hv as _ <-. }
    unfold Enrolment_confirm. rewrite E. reflexivity.
Qed.

End Exchanges.

(** ** The properties on runs of the executable environment *)

Lemma session_expiry_is_recognised_witness :
  @postUrl_callback Reference.toy_codec None (Some (mkHttpResponse 401))
    (VObj Cases.expiredBody)
  = Rejected session_expired
  /\ @getUrl_callback Reference.toy_codec None (Some (mkHttpResponse 401))
       (VStr Cases.expiredText)
     = Rejected session_expired.
Proof.
  destruct (@session_expiry_is_recognised Reference.toy_codec (Some (mkHttpResponse 401))
              Cases.expiredBody "Error: " "Expired Session" " (token 17)")
    as [H1 H2].
  - right. reflexivity.
  - reflexivity.
  - reflexivity.
  - split; [exact H1|]. apply H2.
    + vm_compute. discriminate.
    + vm_compute. reflexivity.
Defined.


Lemma getUrl_malformed_text_is_raised_witness :
  @getUrl_callback Reference.toy_codec None (Some (mkHttpResponse 200))
    (VStr Cases.proxyPage)
  = Raised (Error "Unexpected token in JSON").
Proof.
  apply (@getUrl_malformed_text_is_raised Reference.toy_codec).
  - vm_compute. reflexivity.
  - discriminate.
  - reflexivity.
Defined.

Lemma getState_hides_pending_sp_solution_witness :
  @PushAuth_getState Reference.scripted Reference.toy_crypto 1 Sample.pushAuth
    (Sample.state Cases.pendingStatus)
  = Some (Ok Initialised,
          snd (@send Reference.scripted
                 (Cases.statusRequest "https://cs.example/status/7")
                 (Sample.state Cases.pendingStatus)))
  /\ @WaveAuth_getState Reference.scripted Reference.toy_crypto 1 Sample.waveAuth
       (Sample.state Cases.pendingStatus)
     = Some (Ok Scanned,
             snd (@send Reference.scripted
                    (Cases.statusRequest "https://cs.example/status/8")
                    (Sample.state Cases.pendingStatus)))
  /\ Initialised <> PendingSPSolution
  /\ Scanned <> PendingSPSolution.
Proof.
  split; [reflexivity|]. split; [reflexivity|]. split.
  - apply (proj1 (@getState_hides_pending_sp_solution Reference.scripted
                    Reference.toy_crypto 1 (Sample.state Cases.pendingStatus)
                    (snd (@send Reference.scripted
                            (Cases.statusRequest "https://cs.example/status/7")
                            (Sample.state Cases.pendingStatus)))
                    Initialised) Sample.pushAuth).
    reflexivity.
  - apply (proj2 (@getState_hides_pending_sp_solution Reference.scripted
                    Reference.toy_crypto 1 (Sample.state Cases.pendingStatus)
                    (snd (@send Reference.scripted
                            (Cases.statusRequest "https://cs.example/status/8")
                            (Sample.state Cases.pendingStatus)))
                    Scanned) Sample.waveAuth).
    reflexivity.
Defined.

Lemma getPayloadSize_is_cached_witness :
  @payloadSize Reference.scripted Cases.afterInfo = Some 4000
  /\ @getPayloadSize Reference.scripted "https://cs.example/" Cases.afterInfo
     = Some (Ok 4000, Cases.afterInfo).
Proof.
  apply (@getPayloadSize_is_cached Reference.scripted "https://cs.example/"
           (Sample.state [Ok Sample.serverInfo]) Cases.afterInfo 4000).
  vm_compute. reflexivity.
Defined.

Lemma old_server_is_refused_first_witness :
  @createService Reference.scripted Reference.toy_crypto true "https://cs.example/"
    Sample.serviceKey "Example" (Sample.state [Ok Cases.oldServerInfo])
  = Some (Throw unsupported_server,
          snd (@send Reference.scripted (@info_request "https://cs.example/")
                 (Sample.state [Ok Cases.oldServerInfo])))
  /\ @deserializeServiceAsync Reference.scripted Reference.toy_crypto Reference.toy_codec
       true "https://cs.example/" [] (Sample.state [Ok Cases.oldServerInfo])
     = Some (Throw unsupported_server,
             snd (@send Reference.scripted (@info_request "https://cs.example/")
                    (Sample.state [Ok Cases.oldServerInfo])))
  /\ @log Reference.scripted
       (snd (@send Reference.scripted (@info_request "https://cs.example/")
               (Sample.state [Ok Cases.oldServerInfo])))
     = ([] ++ [@info_request "https://cs.example/"])%list
  /\ @payloadSize Reference.scripted
       (snd (@send Reference.scripted (@info_request "https://cs.example/")
               (Sample.state [Ok Cases.oldServerInfo])))
     = None.
Proof.
  apply (@old_server_is_refused_first Reference.scripted Reference.toy_crypto
           Reference.toy_codec "https://cs.example/" "Example" "5.9.0" Sample.serviceKey []
           (Sample.state [Ok Cases.oldServerInfo]) Cases.oldServerInfo [] 5).
  - reflexivity.
  - reflexivity.
  - reflexivity.
  - reflexivity.
  - lia.
Defined.



Lemma enrolled_device_is_returned_witness :
  @getUserDevices Reference.scripted Reference.toy_crypto 1 Sample.service "alice"
    (Sample.state (Sample.devicesResponse [Cases.enrolledDevice]))
  = Some (Ok [Cases.listedDevice], Cases.afterListing)
  /\ @userEnrolled Reference.scripted Reference.toy_crypto 1 Sample.service "alice"
       (Sample.state (Sample.devicesResponse [Cases.enrolledDevice]))
     = Some (Ok true, Cases.afterListing).
Proof.
  apply (@enrolled_device_is_returned Reference.scripted Reference.toy_crypto
           1 Sample.service "alice" "device-1" "Alice's phone"
           Cases.devicesData Cases.enrolledDevice
           (VObj [(Idx 1, VStr (Reference.toy_public_pem Sample.devicePublicKey));
                  (Idx 2, VStr (Reference.toy_public_pem Sample.devicePublicKey))])
           Cases.enrolledKeys Cases.enrolledSignatures
           (Sample.state (Sample.devicesResponse [Cases.enrolledDevice]))
           Cases.afterListing).
  - reflexivity.
  - reflexivity.
  - reflexivity.
  - reflexivity.
  - reflexivity.
  - reflexivity.
  - discriminate.
  - vm_compute. reflexivity.
  - reflexivity.
  - repeat constructor.
Defined.

Lemma other_entities_are_refused_witness :
  @deserializePushAuth Reference.toy_crypto Reference.toy_codec Sample.service
    (@WaveAuth_serialize Reference.toy_crypto Reference.toy_codec Sample.waveAuth)
  = Throw (Error "Attempted to deserialize PushAuth, but incorrect number of components")
  /\ @deserializeWaveAuth Reference.toy_crypto Reference.toy_codec Sample.service
       (@Enrolment_serialize Reference.toy_crypto Reference.toy_codec Sample.enrolment)
     = Throw (Error "Attempted to deserialize WaveAuth, but header not found")
  /\ @deserializeService Reference.toy_crypto Reference.toy_codec "https://cs.example/"
       (@Device_serialize Reference.toy_crypto Reference.toy_codec Sample.device)
     = Throw (Error "Attempted to deserialize service, but header not found").
Proof.
  destruct (@other_entities_are_refused Reference.toy_crypto Reference.toy_codec
              Sample.service "https://cs.example/") as (HW & _ & HE & HD & _).
  split; [|split].
  - apply (HW Sample.waveAuth). vm_compute. reflexivity.
  - apply (HE Sample.enrolment). vm_compute. reflexivity.
  - apply (HD Sample.device). vm_compute. reflexivity.
Defined.

Lemma pushAuth_exchange_witness :
  @Service_PushAuth Reference.scripted Reference.toy_crypto 1 Sample.service "alice"
    Sample.device "Sign in?" "Example" "Sign in" 2 (Sample.state Cases.pushRun)
  = Some (Ok Cases.startedPushAuth, Cases.pushState3)
  /\ @log Reference.scripted Cases.pushState3
     = ([] ++ [Cases.pushRequest1; Cases.pushRequest2; Cases.pushRequest3])%list
  /\ List.length Cases.pushChallenge = 16%nat.
Proof.
  apply (@pushAuth_exchange Reference.scripted Reference.toy_crypto 0 Sample.service
           "alice" Sample.device "Sign in?" "Example" "Sign in" 2
           (Sample.state Cases.pushRun) Cases.pushState1 Cases.pushState2 Cases.pushState3
           Cases.pushStarted Cases.appChallengeData (VObj [])
           (VStr "https://cs.example/app-challenge/7")
           "log-7" "https://cs.example/status/7" "https://cs.example/assertion/7" "0d0e0f");
    reflexivity.
Defined.


Lemma confirm_needs_confirmation_url_witness :
  @Enrolment_confirm Reference.scripted Reference.toy_crypto Reference.toy_codec 1
    Cases.freshEnrolment (@fields_of Reference.toy_crypto Cases.freshEnrolment) true None
    Cases.afterEnrol
  = Some (Throw confirmation_url_missing, Cases.afterEnrol)
  /\ @Enrolment_confirm Reference.scripted Reference.toy_crypto Reference.toy_codec 1
       Sample.enrolment Cases.fieldsWithoutUrl true None Cases.afterValidate
     = Some (Throw confirmation_url_missing, Cases.afterValidate).
Proof.
  destruct (@confirm_needs_confirmation_url Reference.scripted Reference.toy_crypto
              Reference.toy_codec 1 true None) as [H1 H2].
  split.
  - apply (H1 Sample.service "alice" (Sample.state [Ok Cases.enrolStarted])).
    reflexivity.
  - apply (H2 Sample.enrolment (Sample.state [Ok Cases.validatedWithoutUrl])
             Cases.afterValidate (VStr "https://cs.example/identicon/9")
             Cases.fieldsWithoutUrl Cases.validatedWithoutUrl);
      reflexivity.
Defined.

(** ** Equality of entities *)

Section Equalities.
Context {cry : Crypto} {cod : Codec}.

Lemma bytes_eqb_sym (a b : list byte) : bytes_eqb a b = bytes_eqb b a.
Proof.
  unfold bytes_eqb.
  destruct (list_eq_dec Byte.byte_eq_dec a b), (list_eq_dec Byte.byte_eq_dec b a);
    congruence.
Qed.

Lemma opt_string_eqb_sym (a b : option string) : opt_string_eqb a b = opt_string_eqb b a.
Proof. destruct a, b; simpl; auto using String.eqb_sym. Qed.

Lemma opt_string_eqb_eq (a b : option string) : opt_string_eqb a b = true <-> a = b.
Proof.
  destruct a, b; simpl; try (split; (discriminate || reflexivity)).
  rewrite String.eqb_eq. split; congruence.
Qed.

Ltac split_tests :=
  repeat match goal with
         | H : _ && _ = true |- _ => apply andb_true_iff in H; destruct H
         | H : String.eqb _ _ = true |- _ => apply String.eqb_eq in H
         | H : bytes_eqb _ _ = true |- _ => apply bytes_eqb_eq in H
         | H : Z.eqb _ _ = true |- _ => apply Z.eqb_eq in H
         | H : opt_string_eqb _ _ = true |- _ => apply opt_string_eqb_eq in H
         end.

Ltac join_tests :=
  repeat (apply andb_true_iff; split);
  first [ apply String.eqb_eq | apply bytes_eqb_eq | apply Z.eqb_eq
        | apply opt_string_eqb_eq ];
  congruence.


Lemma Service_equals_sym (a b : Service) : Service_equals a b = Service_equals b a.
Proof.
  unfold Service_equals.
  now rewrite (String.eqb_sym (svc_id a)), (String.eqb_sym (svc_url a)),
    (bytes_eqb_sym (exportKey_private_der (svc_key a))).
Qed.

Lemma Service_equals_trans (a b c : Service) :
  Service_equals a b = true -> Service_equals b c = true -> Service_equals a c = true.
Proof. unfold Service_equals. intros H1 H2. split_tests. join_tests. Qed.

Lemma Device_equals_refl (a : Device) : Device_equals a a = true.
Proof. unfold Device_equals. now rewrite !String.eqb_refl, opt_string_eqb_refl. Qed.

Lemma Device_equals_sym (a b : Device) : Device_equals a b = Device_equals b a.
Proof.
  unfold Device_equals.
  now rewrite (String.eqb_sym (dev_id a)), (String.eqb_sym (dev_name a)),
    (opt_string_eqb_sym (JSON_stringify (publicKeyMapToObject (dev_keys a)))).
Qed.

Lemma Device_equals_trans (a b c : Device) :
  Device_equals a b = true -> Device_equals b c = true -> Device_equals a c = true.
Proof. unfold Device_equals. intros H1 H2. split_tests. join_tests. Qed.

(** X26.  The [equals] methods of [Service] and [Device] are equivalence
    relations: each holds of an entity and itself, does not depend on
    the order of the two entities, and is transitive. *)
Theorem entity_equals_are_equivalences :
  equivalence_test Service_equals /\ equivalence_test Device_equals.
Proof.
  split.
  - split; [exact Service_equals_refl|].
    split; [exact Service_equals_sym | exact Service_equals_trans].
  - split; [exact Device_equals_refl|].
    split; [exact Device_equals_sym | exact Device_equals_trans].
Qed.


End Equalities.

(** ** An assertion without a verification URL *)

Section Unverifiable.
Context {net : Network} {cry : Crypto} {cod : Codec}.

(** X28.  When the assertion names no verification URL and the device has
    not answered "true", [authenticateInternal] throws the error of
    [accept] in place of returning [Cancel], [Report] or [Failure],
    and no notice is sent. *)
Theorem outcome_is_lost_without_verification_url (fuel : nat) (s : Service)
    (retrieveAssertion : M Val) (authChallenge : list byte)
    (payload : option PayloadRequest) (st st' : St) (data outcome user : Val)
    (Hassertion : retrieveAssertion st = Some (Ok data, st'))
    (Hurl : prop data "verifyAuthenticationURL" = Ok VUndef)
    (Huser : prop data "username" = Ok user)
    (Houtcome : prop data "authenticated" = Ok outcome)
    (Hnot : is_str outcome "true" = false) :
  authenticateInternal fuel s retrieveAssertion authChallenge payload st
  = Some (Throw verification_url_missing, st').
Proof.
  unfold authenticateInternal. rewrite (bind_resolve _ _ _ _ _ Hassertion).
  rewrite bind_lift, Hurl, bind_lift, Huser, bind_lift, Houtcome.
  destruct (is_str outcome "cancelled"); [reflexivity|].
  destruct (is_str outcome "reported"); [reflexivity|].
  rewrite Hnot. reflexivity.
Qed.

End Unverifiable.

Lemma outcome_is_lost_without_verification_url_witness :
  @authenticateInternal Reference.scripted Reference.toy_crypto Reference.toy_codec 1
    Sample.service
    (@PushAuth_retrieveAssertion Reference.scripted Reference.toy_crypto 1 Sample.pushAuth)
    Sample.authChallenge None
    (Sample.state [Ok (VObj [(Name "username", VStr "alice");
                             (Name "authenticated", VStr "cancelled")])])
  = Some (Throw verification_url_missing,
          snd (@send Reference.scripted
                 (Cases.statusRequest "https://cs.example/assertion/7")
                 (Sample.state [Ok (VObj [(Name "username", VStr "alice");
                                          (Name "authenticated", VStr "cancelled")])]))).
Proof.
  apply (@outcome_is_lost_without_verification_url Reference.scripted Reference.toy_crypto
           Reference.toy_codec 1 Sample.service _ Sample.authChallenge None _ _
           (VObj [(Name "username", VStr "alice"); (Name "authenticated", VStr "cancelled")])
           (VStr "cancelled") (VStr "alice"));
    reflexivity.
Defined.

(** ** Starting a wave authentication and retrieving its assertion *)

Section Wave.
Context {net : Network} {cry : Crypto} {cod : Codec}.

(** X29.  [Service.WaveAuth] followed by [WaveAuth.retrieveAssertion], when
    no request meets an expired session and the server has named a URL
    for the challenge of the app: one request starts the session with
    the 16 bytes drawn as its challenge; the challenge of the app is
    fetched only when the assertion is retrieved, and is answered with
    the signature of the service in the same request that asks for the
    assertion, together with the challenge of the session. *)
Theorem waveAuth_exchange (f : nat) (s : Service)
    (authenticationMessage brandingMessage : string) (authLevel : Z)
    (st st1 st2 st3 : St) (data challengeData assertion : Val)
    (logId directURL qrURL statusURL assertionUrl appUrl appChallenge : string) :
  let authChallenge := drawn 16 st in
  let st0 := after_drawing 16 st in
  let r1 := mkReq POST (uri_target s "sp/authentication")
              (waveAuth_request authChallenge authLevel authenticationMessage
                 brandingMessage)
              (session_arg st0) in
  let w := mkWaveAuth s logId authChallenge authLevel directURL qrURL statusURL
             assertionUrl (Some appUrl) None in
  let r2 := mkReq GET (VStr appUrl) VUndef (session_arg st1) in
  let r3 := mkReq POST (VStr assertionUrl)
              (wave_answer s (from_hex appChallenge) authChallenge authLevel)
              (session_arg st2) in
  send r1 st0 = (Ok data, st1) ->
  prop data "logId" = Ok (VStr logId) ->
  prop data "directURL" = Ok (VStr directURL) ->
  prop data "qrURL" = Ok (VStr qrURL) ->
  prop data "statusURL" = Ok (VStr statusURL) ->
  prop data "challengeExchangeURL" = Ok (VStr assertionUrl) ->
  prop data "appAuthenticationURL" = Ok (VStr appUrl) ->
  send r2 st1 = (Ok challengeData, st2) ->
  prop challengeData "appChallenge" = Ok (VStr appChallenge) ->
  send r3 st2 = (Ok assertion, st3) ->
  Service_WaveAuth (S f) s authenticationMessage brandingMessage authLevel st
  = Some (Ok w, st1)
  /\ WaveAuth_retrieveAssertion (S f) w st1 = Some (Ok assertion, st3)
  /\ log st3 = (log st ++ [r1; r2; r3])%list.
Proof.
  intros authChallenge st0 r1 w r2 r3 H1 Hlog Hdu Hqr Hsu Hce Haa H2 Hac H3.
  split; [|split].
  - unfold Service_WaveAuth. unfold bind at 1. unfold randomBytes.
    fold authChallenge. fold st0.
    unfold postUri. rewrite (bind_resolve _ _ _ _ _ (access_first_attempt _ _ _ _ _ _ H1)).
    rewrite bind_lift, Hlog, bind_lift. cbn [as_string].
    rewrite bind_lift, Hdu, bind_lift. cbn [as_string].
    rewrite bind_lift, Hqr, bind_lift. cbn [as_string].
    rewrite bind_lift, Hsu, bind_lift. cbn [as_string].
    rewrite bind_lift, Hce, bind_lift. cbn [as_string].
    rewrite bind_lift, Haa, bind_lift. reflexivity.
  - unfold WaveAuth_retrieveAssertion. subst w.
    cbn [wave_appChallengeUrl wave_service wave_authLevel wave_authChallenge
         wave_assertionUrl].
    unfold bind at 1. unfold getUrl.
    rewrite (bind_resolve _ _ _ _ _ (access_first_attempt _ _ _ _ _ _ H2)).
    rewrite bind_lift, Hac, bind_lift. cbn [Buffer_from_hex].
    unfold ret at 1. cbv beta iota.
    unfold postUrl. apply access_first_attempt. exact H3.
  - rewrite (send_log _ _ _ _ H3), (send_log _ _ _ _ H2), (send_log _ _ _ _ H1).
    subst st0. cbn [after_drawing log]. now rewrite <- !app_assoc.
Qed.

End Wave.

Lemma waveAuth_exchange_witness :
  @Service_WaveAuth Reference.scripted Reference.toy_crypto 1 Sample.service
    "Sign in?" "Example" 4 (Sample.state WaveCases.waveRun)
  = Some (Ok WaveCases.startedWaveAuth, WaveCases.waveState1)
  /\ @WaveAuth_retrieveAssertion Reference.scripted Reference.toy_crypto 1
       WaveCases.startedWaveAuth WaveCases.waveState1
     = Some (Ok Sample.assertion, WaveCases.waveState3)
  /\ @log Reference.scripted WaveCases.waveState3
     = ([] ++ [WaveCases.waveRequest1; WaveCases.waveRequest2;
               WaveCases.waveRequest3])%list.
Proof.
  apply (@waveAuth_exchange Reference.scripted Reference.toy_crypto 0 Sample.service
           "Sign in?" "Example" 4
           (Sample.state WaveCases.waveRun) WaveCases.waveState1 WaveCases.waveState2
           WaveCases.waveState3
           WaveCases.waveStarted Cases.appChallengeData Sample.assertion
           "log-8" "https://cs.example/direct/8" "https://cs.example/wave/8"
           "https://cs.example/status/8" "https://cs.example/assertion/8"
           "https://cs.example/app-challenge/8" "0d0e0f");
    reflexivity.
Defined.

(** ** Server versions that are not of three parts *)

Section ServerVersions.
Context {net : Network} {cry : Crypto} {cod : Codec}.


End ServerVersions.

